(** * Retrieval fusion, reranking and structured-answer recovery

    A shallow embedding of the core of the knowledge-base service, and
    the properties its specification states about it:

    - [KnowledgeBase.determine_answer_type] and
      [AnswerTypeClassifier.determine_answer_type]
      (src/models/knowledge_base.py, src/langchain_integration/chains.py);
    - [ElasticSearchClient.hybrid_search] (src/models/es_vector_store.py);
    - [UniversalBGEReranker] (src/utils/bge_reranker.py);
    - [StructuredOutputParser.parse] (src/langchain_integration/chains.py).

    Conventions of the embedding.

    - A Python [str] is a Rocq [string] holding its UTF-8 encoding.  The
      character classes that Python extends to Unicode ([str.isspace],
      [\s], [\d], [str.lower]) are modelled on their ASCII members; on
      ASCII text the model and the Python functions coincide.  Slices
      count bytes.
    - A Python [int] is a [Z], of any size; a Python [float] is an exact
      rational [Q] (no rounding, no NaN).
    - A Python [dict] is an association list in insertion order, updated
      in place when a key is already present.
    - A Python object decoded from JSON is a [json] value.
    - An exception is an explicit outcome: [None], or a constructor of the
      result type, at the place where the source catches it.
    - External collaborators (the search store, the CrossEncoder model, the
      Jina endpoint, the LLM service) are oracles; the calls made to them
      are recorded in a [World].

    The file has three parts: the embedding, one module per class of the
    source and per Python library it leans on; the notions the properties
    are stated with; the properties.  Each property of the specification
    (C1 to C10) is a theorem whose comment names it; where the code
    departs from the specification, the theorem states what the code
    does and a second lemma exhibits the departure on an input. *)

From Stdlib Require Import String Ascii List Bool Arith ZArith QArith Lia.
From Stdlib Require Import Sorted Permutation.
From Stdlib Require Import DecimalString DecimalZ DecimalPos DecimalFacts.
Import ListNotations.

#[local] Set Warnings "-register-all".
Close Scope Q_scope.
Local Open Scope list_scope.
Local Open Scope string_scope.

(* ================================================================= *)
(** ** Python strings *)

Module PyStr.

(** [str.isspace] on one ASCII character: TAB, LF, VT, FF, CR,
    FS, GS, RS, US and SPACE. *)
Definition is_space (c : ascii) : bool :=
  let n := nat_of_ascii c in
  ((9 <=? n) && (n <=? 13) || (28 <=? n) && (n <=? 32))%nat.

Definition is_digit (c : ascii) : bool :=
  let n := nat_of_ascii c in ((48 <=? n) && (n <=? 57))%nat.

Definition is_upper (c : ascii) : bool :=
  let n := nat_of_ascii c in ((65 <=? n) && (n <=? 90))%nat.

Definition lower_char (c : ascii) : ascii :=
  if is_upper c then ascii_of_nat (nat_of_ascii c + 32) else c.

(** [s.lower()] *)
Fixpoint lower (s : string) : string :=
  match s with
  | EmptyString => EmptyString
  | String c s' => String (lower_char c) (lower s')
  end.

(** [s.startswith(p)] *)
Definition startswith (p s : string) : bool := String.prefix p s.

(** [needle in hay] *)
Fixpoint contains (needle hay : string) : bool :=
  String.prefix needle hay ||
  match hay with
  | EmptyString => false
  | String _ hay' => contains needle hay'
  end.

(** [s.lstrip()], [s.rstrip()], [s.strip()] *)
Fixpoint lstrip (s : string) : string :=
  match s with
  | EmptyString => EmptyString
  | String c s' => if is_space c then lstrip s' else s
  end.

Fixpoint rstrip (s : string) : string :=
  match s with
  | EmptyString => EmptyString
  | String c s' =>
      match rstrip s' with
      | EmptyString => if is_space c then EmptyString else String c EmptyString
      | r => String c r
      end
  end.

Definition strip (s : string) : string := rstrip (lstrip s).

(** [s.split(sep)] for a one-character separator: never the empty list. *)
Fixpoint split (sep : ascii) (s : string) : list string :=
  match s with
  | EmptyString => [EmptyString]
  | String c s' =>
      if Ascii.eqb c sep then EmptyString :: split sep s'
      else match split sep s' with
           | [] => [String c EmptyString]
           | l :: ls => String c l :: ls
           end
  end.

(** [sep.join(parts)] *)
Definition join (sep : string) (parts : list string) : string :=
  String.concat sep parts.

(** [s.find(c)] and [s.rfind(c)] for a one-character needle: the index, or
    [-1]. *)
Fixpoint find (c : ascii) (s : string) : Z :=
  match s with
  | EmptyString => -1
  | String a s' =>
      if Ascii.eqb a c then 0
      else let i := find c s' in if (i =? -1)%Z then -1 else (i + 1)%Z
  end.

Fixpoint rfind (c : ascii) (s : string) : Z :=
  match s with
  | EmptyString => -1
  | String a s' =>
      let i := rfind c s' in
      if (i =? -1)%Z then (if Ascii.eqb a c then 0 else -1) else (i + 1)%Z
  end.

(** [s[i:j]] for [0 <= i]. *)
Definition slice (i j : Z) (s : string) : string :=
  String.substring (Z.to_nat i) (Z.to_nat (j - i)) s.

(** [s.replace(old, new)]: the leftmost occurrences of [old], none
    overlapping another.  [skip] counts the characters of an occurrence
    still to be dropped. *)
Fixpoint replace_from (skip : nat) (old new s : string) : string :=
  match s with
  | EmptyString => EmptyString
  | String c s' =>
      match skip with
      | S k => replace_from k old new s'
      | O =>
          if String.prefix old s
          then new ++ replace_from (String.length old - 1) old new s'
          else String c (replace_from 0 old new s')
      end
  end.

Definition replace (old new s : string) : string := replace_from 0 old new s.

(** The characters a literal cannot hold. *)
Definition dq : string := String "034" EmptyString.
Definition nl : string := String "010" EmptyString.
Definition tab : string := String "009" EmptyString.
Definition cr : string := String "013" EmptyString.
Definition backslash : string := String "092" EmptyString.

End PyStr.

(* ================================================================= *)
(** ** Python dictionaries *)

Module PyDict.

Section Dict.
Context {V : Type}.

(** [k in d] *)
Fixpoint has (k : string) (d : list (string * V)) : bool :=
  match d with
  | [] => false
  | (k', _) :: d' => String.eqb k k' || has k d'
  end.

(** [d.get(k)] *)
Fixpoint get (k : string) (d : list (string * V)) : option V :=
  match d with
  | [] => None
  | (k', v) :: d' => if String.eqb k k' then Some v else get k d'
  end.

(** [d[k] = v]: an existing key keeps its place, a new key goes last. *)
Fixpoint set (k : string) (v : V) (d : list (string * V)) : list (string * V) :=
  match d with
  | [] => [(k, v)]
  | (k', v') :: d' =>
      if String.eqb k k' then (k', v) :: d' else (k', v') :: set k v d'
  end.

(** [d[k] = f(d[k])] for a key that is present; nothing otherwise. *)
Fixpoint update (k : string) (f : V -> V) (d : list (string * V)) : list (string * V) :=
  match d with
  | [] => []
  | (k', v') :: d' =>
      if String.eqb k k' then (k', f v') :: d' else (k', v') :: update k f d'
  end.

Definition keys (d : list (string * V)) : list string := map fst d.

End Dict.

End PyDict.

(* ================================================================= *)
(** ** The json module of the Python library *)

Module Json.

(** A decoded document.  A float carries its exact decimal value; the
    three constants that have none keep their spelling. *)
Inductive json : Type :=
| JNull
| JBool (b : bool)
| JInt (z : Z)
| JFloat (q : Q)
| JNonFinite (lit : string)
| JStr (s : string)
| JArr (items : list json)
| JObj (members : list (string * json)).

(** What a decoding step yields: a value and the text after it,
    [json.JSONDecodeError], [RecursionError], or the end of the fuel that
    makes the recursion structural ([json_loads] never reaches it, see
    [json_loads_fuel]). *)
Inductive decode (A : Type) : Type :=
| Decoded (a : A) (rest : string)
| Invalid
| TooDeep
| OutOfFuel.
Arguments Decoded {A} a rest.
Arguments Invalid {A}.
Arguments TooDeep {A}.
Arguments OutOfFuel {A}.

(** JSON whitespace: space, TAB, LF, CR. *)
Definition is_ws (c : ascii) : bool :=
  Ascii.eqb c " " || Ascii.eqb c "009" || Ascii.eqb c "010" || Ascii.eqb c "013".

Fixpoint skip_ws (s : string) : string :=
  match s with
  | EmptyString => EmptyString
  | String c s' => if is_ws c then skip_ws s' else s
  end.

(** *** Strings *)

Definition hex_val (c : ascii) : option N :=
  let n := N_of_ascii c in
  if ((48 <=? n) && (n <=? 57))%N then Some (n - 48)%N
  else if ((97 <=? n) && (n <=? 102))%N then Some (n - 87)%N
  else if ((65 <=? n) && (n <=? 70))%N then Some (n - 55)%N
  else None.

Definition hex4 (a b c d : ascii) : option N :=
  match hex_val a, hex_val b, hex_val c, hex_val d with
  | Some x, Some y, Some z, Some w => Some (((x * 16 + y) * 16 + z) * 16 + w)%N
  | _, _, _, _ => None
  end.

Definition byte (n : N) : string := String (ascii_of_N n) EmptyString.

(** The UTF-8 encoding of a code point (a lone surrogate is encoded like
    any three-byte code point). *)
Definition utf8 (cp : N) : string :=
  if (cp <? 128)%N then byte cp
  else if (cp <? 2048)%N then
    byte (192 + cp / 64) ++ byte (128 + cp mod 64)
  else if (cp <? 65536)%N then
    byte (224 + cp / 4096) ++ byte (128 + (cp / 64) mod 64) ++ byte (128 + cp mod 64)
  else
    byte (240 + cp / 262144) ++ byte (128 + (cp / 4096) mod 64)
      ++ byte (128 + (cp / 64) mod 64) ++ byte (128 + cp mod 64).

Definition is_high_surrogate (cp : N) : bool := ((55296 <=? cp) && (cp <=? 56319))%N.
Definition is_low_surrogate (cp : N) : bool := ((56320 <=? cp) && (cp <=? 57343))%N.

(** The character a one-letter escape stands for. *)
Definition simple_escape (e : ascii) : option ascii :=
  if Ascii.eqb e "034" then Some "034"%char
  else if Ascii.eqb e "092" then Some "092"%char
  else if Ascii.eqb e "/" then Some "/"%char
  else if Ascii.eqb e "b" then Some "008"%char
  else if Ascii.eqb e "f" then Some "012"%char
  else if Ascii.eqb e "n" then Some "010"%char
  else if Ascii.eqb e "r" then Some "013"%char
  else if Ascii.eqb e "t" then Some "009"%char
  else None.

Definition cons_to (p : string) (r : option (string * string)) : option (string * string) :=
  match r with
  | Some (str, rest) => Some (p ++ str, rest)
  | None => None
  end.

(** The low half of a surrogate pair at the head of [s], with the text
    after it. *)
Definition low_surrogate_at (s : string) : option (N * string) :=
  match s with
  | String b (String u (String h1 (String h2 (String h3 (String h4 r))))) =>
      if Ascii.eqb b "092" && Ascii.eqb u "u" then
        match hex4 h1 h2 h3 h4 with
        | Some lo => if is_low_surrogate lo then Some (lo, r) else None
        | None => None
        end
      else None
  | _ => None
  end.

(** [scanstring], strict: the text after an opening quote, up to the
    closing one.  [None] is a decode error: no closing quote, a control
    character, a bad escape. *)
Fixpoint scanstring (s : string) : option (string * string) :=
  match s with
  | EmptyString => None
  | String c s' =>
      if Ascii.eqb c "034" then Some (EmptyString, s')
      else if Ascii.eqb c "092" then
        match s' with
        | EmptyString => None
        | String e s'' =>
            if Ascii.eqb e "u" then
              match s'' with
              | String h1 (String h2 (String h3 (String h4 r))) =>
                  match hex4 h1 h2 h3 h4 with
                  | None => None
                  | Some cp =>
                      if is_high_surrogate cp then
                        match r with
                        | String b (String u (String g1 (String g2 (String g3 (String g4 r2))))) =>
                            match low_surrogate_at r with
                            | Some (lo, _) =>
                                cons_to (utf8 (65536 + (cp - 55296) * 1024 + (lo - 56320))%N)
                                        (scanstring r2)
                            | None => cons_to (utf8 cp) (scanstring r)
                            end
                        | _ => cons_to (utf8 cp) (scanstring r)
                        end
                      else cons_to (utf8 cp) (scanstring r)
                  end
              | _ => None
              end
            else
              match simple_escape e with
              | Some ch => cons_to (String ch EmptyString) (scanstring s'')
              | None => None
              end
        end
      else if (N_of_ascii c <? 32)%N then None
      else cons_to (String c EmptyString) (scanstring s')
  end.

(** *** Numbers and constants *)

Fixpoint span_digits (s : string) : string * string :=
  match s with
  | EmptyString => (EmptyString, EmptyString)
  | String c s' =>
      if PyStr.is_digit c
      then let (d, r) := span_digits s' in (String c d, r)
      else (EmptyString, s)
  end.

(** The value of a run of decimal digits. *)
Definition Z_of_digits (ds : string) : Z :=
  match NilEmpty.uint_of_string ds with
  | Some u => Z.of_uint u
  | None => 0
  end.

(** [0|[1-9]\d*] *)
Definition scan_int_part (s : string) : option (string * string) :=
  match s with
  | EmptyString => None
  | String c s' =>
      if Ascii.eqb c "0" then Some ("0", s')
      else if PyStr.is_digit c
      then let (d, r) := span_digits s' in Some (String c d, r)
      else None
  end.

(** [(\.\d+)?]: the digits when the group takes part. *)
Definition scan_frac (s : string) : option (string * string) :=
  match s with
  | EmptyString => None
  | String c s' =>
      if Ascii.eqb c "." then
        match span_digits s' with
        | (EmptyString, _) => None
        | (d, r) => Some (d, r)
        end
      else None
  end.

(** [([eE][-+]?\d+)?]: the exponent when the group takes part. *)
Definition scan_exp (s : string) : option (Z * string) :=
  match s with
  | EmptyString => None
  | String c s' =>
      if Ascii.eqb c "e" || Ascii.eqb c "E" then
        let (sign, s1) :=
          match s' with
          | String g t =>
              if Ascii.eqb g "+" then (1%Z, t)
              else if Ascii.eqb g "-" then ((-1)%Z, t)
              else (1%Z, s')
          | EmptyString => (1%Z, s')
          end in
        match span_digits s1 with
        | (EmptyString, _) => None
        | (d, r) => Some ((sign * Z_of_digits d)%Z, r)
        end
      else None
  end.

(** The rational a float literal denotes. *)
Definition decimal_value (neg : bool) (ip frac : string) (ex : Z) : Q :=
  let m := Z_of_digits (ip ++ frac) in
  let m := if neg then (- m)%Z else m in
  let e10 := (ex - Z.of_nat (String.length frac))%Z in
  if (0 <=? e10)%Z then inject_Z (m * 10 ^ e10)
  else Qmake m (Z.to_pos (10 ^ (- e10))).

(** [NUMBER_RE]: an int when neither a fraction nor an exponent follows,
    a float otherwise. *)
Definition match_number (s : string) : option (json * string) :=
  let (neg, s1) :=
    match s with
    | String c t => if Ascii.eqb c "-" then (true, t) else (false, s)
    | EmptyString => (false, s)
    end in
  match scan_int_part s1 with
  | None => None
  | Some (ip, r1) =>
      let (frac, r2) :=
        match scan_frac r1 with
        | Some (f, r) => (Some f, r)
        | None => (None, r1)
        end in
      let (ex, r3) :=
        match scan_exp r2 with
        | Some (e, r) => (Some e, r)
        | None => (None, r2)
        end in
      match frac, ex with
      | None, None =>
          Some (JInt (if neg then - Z_of_digits ip else Z_of_digits ip)%Z, r3)
      | Some f, None => Some (JFloat (decimal_value neg ip f 0), r3)
      | None, Some e => Some (JFloat (decimal_value neg ip EmptyString e), r3)
      | Some f, Some e => Some (JFloat (decimal_value neg ip f e), r3)
      end
  end.

Fixpoint drop (n : nat) (s : string) : string :=
  match n, s with
  | S n', String _ s' => drop n' s'
  | _, _ => s
  end.

Definition constants : list (string * json) :=
  [ ("null", JNull); ("true", JBool true); ("false", JBool false);
    ("NaN", JNonFinite "NaN"); ("Infinity", JNonFinite "Infinity");
    ("-Infinity", JNonFinite "-Infinity") ].

Fixpoint match_constant (cs : list (string * json)) (s : string) : option (json * string) :=
  match cs with
  | [] => None
  | (lit, v) :: cs' =>
      if String.prefix lit s then Some (v, drop (String.length lit) s)
      else match_constant cs' s
  end.

(** A value that is neither a string nor a container. *)
Definition scan_scalar (s : string) : decode json :=
  match match_constant constants s with
  | Some (v, rest) => Decoded v rest
  | None =>
      match match_number s with
      | Some (v, rest) => Decoded v rest
      | None => Invalid
      end
  end.

(** *** Values *)

(** [scan_once]: one value at the head of [s].  [depth] is what is left of
    the interpreter's recursion limit; an object or an array uses one
    level.  [parse_items] reads the values of an array after its bracket,
    [parse_members] the pairs of an object after its brace; both start at
    a value (resp. a key), the empty cases being decided by [scan_once]. *)
Fixpoint scan_once (fuel depth : nat) (s : string) {struct fuel} : decode json :=
  match fuel with
  | O => OutOfFuel
  | S fuel' =>
      match s with
      | EmptyString => Invalid
      | String c s' =>
          if Ascii.eqb c "034" then
            match scanstring s' with
            | Some (str, rest) => Decoded (JStr str) rest
            | None => Invalid
            end
          else if Ascii.eqb c "{" then
            match depth with
            | O => TooDeep
            | S depth' =>
                match skip_ws s' with
                | EmptyString => Invalid
                | String c1 r1 =>
                    if Ascii.eqb c1 "}" then Decoded (JObj []) r1
                    else parse_members fuel' depth' (String c1 r1) []
                end
            end
          else if Ascii.eqb c "[" then
            match depth with
            | O => TooDeep
            | S depth' =>
                match skip_ws s' with
                | EmptyString => Invalid
                | String c1 r1 =>
                    if Ascii.eqb c1 "]" then Decoded (JArr []) r1
                    else parse_items fuel' depth' (String c1 r1) []
                end
            end
          else scan_scalar s
      end
  end

with parse_items (fuel depth : nat) (s : string) (acc : list json)
       {struct fuel} : decode json :=
  match fuel with
  | O => OutOfFuel
  | S fuel' =>
      match scan_once fuel' depth s with
      | Decoded v rest =>
          match skip_ws rest with
          | EmptyString => Invalid
          | String c r =>
              if Ascii.eqb c "]" then Decoded (JArr (acc ++ [v])%list) r
              else if Ascii.eqb c ","
              then parse_items fuel' depth (skip_ws r) (acc ++ [v])%list
              else Invalid
          end
      | Invalid => Invalid
      | TooDeep => TooDeep
      | OutOfFuel => OutOfFuel
      end
  end

with parse_members (fuel depth : nat) (s : string) (acc : list (string * json))
       {struct fuel} : decode json :=
  match fuel with
  | O => OutOfFuel
  | S fuel' =>
      match s with
      | EmptyString => Invalid
      | String c s' =>
          if Ascii.eqb c "034" then
            match scanstring s' with
            | None => Invalid
            | Some (key, r0) =>
                match skip_ws r0 with
                | EmptyString => Invalid
                | String c1 r1 =>
                    if Ascii.eqb c1 ":" then
                      match scan_once fuel' depth (skip_ws r1) with
                      | Decoded v rest =>
                          match skip_ws rest with
                          | EmptyString => Invalid
                          | String c2 r2 =>
                              if Ascii.eqb c2 "}"
                              then Decoded (JObj (PyDict.set key v acc)) r2
                              else if Ascii.eqb c2 ","
                              then parse_members fuel' depth (skip_ws r2)
                                                 (PyDict.set key v acc)
                              else Invalid
                          end
                      | Invalid => Invalid
                      | TooDeep => TooDeep
                      | OutOfFuel => OutOfFuel
                      end
                    else Invalid
                end
            end
          else Invalid
      end
  end.

(** [json.loads(s)]: one value, whitespace around it, nothing else.  The
    fuel is sized on the text. *)
Definition json_loads (recursion_limit : nat) (s : string) : decode json :=
  match scan_once (2 * String.length s + 1) recursion_limit (skip_ws s) with
  | Decoded v rest =>
      match skip_ws rest with
      | EmptyString => Decoded v EmptyString
      | _ => Invalid
      end
  | r => r
  end.

End Json.

(* ================================================================= *)
(** ** The regular expressions the parser uses *)

Module Re.

(** The fragment of Python's [re] the source needs: literals, character
    classes, greedy and lazy repetition of a class, concatenation, and one
    capture group. *)
Inductive regex : Type :=
| Lit (s : string)
| Cls (p : ascii -> bool)
| Star (p : ascii -> bool)
| StarLazy (p : ascii -> bool)
| Plus (p : ascii -> bool)
| Cat (r1 r2 : regex)
| Group (r : regex).

Fixpoint seq (rs : list regex) : regex :=
  match rs with
  | [] => Lit EmptyString
  | [r] => r
  | r :: rs' => Cat r (seq rs')
  end.

Fixpoint take (n : nat) (s : string) : string :=
  match n, s with
  | S n', String c s' => String c (take n' s')
  | _, _ => EmptyString
  end.

Section Matcher.
Context {R : Type}.

(** [p*]: the longest run first, shorter ones on backtracking. *)
Fixpoint star_greedy (p : ascii -> bool) (s : string) (k : string -> option R) : option R :=
  match s with
  | EmptyString => k EmptyString
  | String c s' =>
      if p c then
        match star_greedy p s' k with
        | Some r => Some r
        | None => k s
        end
      else k s
  end.

(** [p*?]: the shortest run first. *)
Fixpoint star_lazy (p : ascii -> bool) (s : string) (k : string -> option R) : option R :=
  match k s with
  | Some r => Some r
  | None =>
      match s with
      | EmptyString => None
      | String c s' => if p c then star_lazy p s' k else None
      end
  end.

(** A backtracking matcher in continuation-passing style: [k] receives the
    text left and the capture so far. *)
Fixpoint run (r : regex) (s : string) (cap : option string)
         (k : string -> option string -> option R) : option R :=
  match r with
  | Lit l => if String.prefix l s then k (Json.drop (String.length l) s) cap else None
  | Cls p =>
      match s with
      | EmptyString => None
      | String c s' => if p c then k s' cap else None
      end
  | Star p => star_greedy p s (fun s' => k s' cap)
  | StarLazy p => star_lazy p s (fun s' => k s' cap)
  | Plus p =>
      match s with
      | EmptyString => None
      | String c s' => if p c then star_greedy p s' (fun s'' => k s'' cap) else None
      end
  | Cat r1 r2 => run r1 s cap (fun s' cap' => run r2 s' cap' k)
  | Group r1 =>
      run r1 s cap
          (fun s' _ => k s' (Some (take (String.length s - String.length s') s)))
  end.

End Matcher.

(** A match at the head of [s]: group 1 (empty when the pattern has none)
    and the text after the match. *)
Definition match_at (r : regex) (s : string) : option (string * string) :=
  run r s None
      (fun rest cap => Some (match cap with Some g => g | None => EmptyString end, rest)).

(** [re.search(r, s)]: the leftmost match. *)
Fixpoint search (r : regex) (s : string) : option (string * string) :=
  match match_at r s with
  | Some m => Some m
  | None =>
      match s with
      | EmptyString => None
      | String _ s' => search r s'
      end
  end.

(** [re.sub(r, r'\1', s)] for a pattern whose matches are not empty.
    [skip] counts the characters of a match still to be passed over. *)
Fixpoint sub_group1_from (skip : nat) (r : regex) (s : string) : string :=
  match s with
  | EmptyString => EmptyString
  | String c s' =>
      match skip with
      | S k => sub_group1_from k r s'
      | O =>
          match match_at r s with
          | Some (g, rest) =>
              g ++ sub_group1_from (String.length s - String.length rest - 1) r s'
          | None => String c (sub_group1_from 0 r s')
          end
      end
  end.

Definition sub_group1 (r : regex) (s : string) : string := sub_group1_from 0 r s.

(** [re.findall(r, s)] for a pattern with no group and no empty match. *)
Fixpoint findall_from (skip : nat) (r : regex) (s : string) : list string :=
  match s with
  | EmptyString => []
  | String c s' =>
      match skip with
      | S k => findall_from k r s'
      | O =>
          match match_at r s with
          | Some (_, rest) =>
              let n := String.length s - String.length rest in
              take n s :: findall_from (n - 1) r s'
          | None => findall_from 0 r s'
          end
      end
  end.

Definition findall (r : regex) (s : string) : list string := findall_from 0 r s.

Definition chr (c : ascii) : ascii -> bool := fun a => Ascii.eqb a c.
Definition not_chr (c : ascii) : ascii -> bool := fun a => negb (Ascii.eqb a c).

End Re.

(* ================================================================= *)
(** ** StructuredOutputParser (src/langchain_integration/chains.py) *)

Module StructuredOutputParser.
Import PyStr Json Re.

Definition quoted (s : string) : string := dq ++ s ++ dq.

(** The key in quotes, a colon with optional white space on both sides,
    and a quoted run of characters other than the quote: the run is
    group 1. *)
Definition key_value_re (key : string) : regex :=
  seq [ Lit (quoted key); Star is_space; Lit ":"; Star is_space;
        Lit dq; Group (Star (not_chr "034")); Lit dq ].

(** The tolerant variant: the key in quotes, the shortest run of
    characters other than a closing brace, and a quoted run as above. *)
Definition key_alt_re (key : string) : regex :=
  seq [ Lit (quoted key); StarLazy (not_chr "}");
        Lit dq; Group (Star (not_chr "034")); Lit dq ].

(** The key [relevant_pages] in quotes, a colon with optional white space
    on both sides, and a bracketed run of characters other than the
    closing bracket: the run is group 1. *)
Definition pages_re : regex :=
  seq [ Lit (quoted "relevant_pages"); Star is_space; Lit ":"; Star is_space;
        Lit "["; Group (Star (not_chr "]")); Lit "]" ].

(** A bracketed, non-empty run of digits, commas and white space. *)
Definition pages_alt_re : regex :=
  seq [ Lit "[";
        Group (Plus (fun c => is_digit c || Ascii.eqb c "," || is_space c));
        Lit "]" ].

(** A comma, then as group 1 optional white space and a closing brace or
    bracket. *)
Definition trailing_comma_re : regex :=
  seq [ Lit ",";
        Group (Cat (Star is_space) (Cls (fun c => Ascii.eqb c "}" || Ascii.eqb c "]"))) ].

(** [r'\d+'] *)
Definition digits_re : regex := Plus is_digit.

(** [[int(p) for p in re.findall(r'\d+', text)]] *)
Definition page_numbers (text : string) : json :=
  JArr (map (fun p => JInt (Z_of_digits p)) (findall digits_re text)).

(** One turn of the loop over the lines of a reply that holds a code
    fence: the state is [inside_json] and [json_lines]. *)
Definition fence_step (st : bool * list string) (line : string) : bool * list string :=
  let (inside_json, json_lines) := st in
  let fall_through :=
    if inside_json then (inside_json, (json_lines ++ [line])%list) else st in
  if startswith "```json" (strip line) || String.eqb (strip line) "```" then
    if negb inside_json && contains "```json" line then (true, json_lines)
    else if inside_json && String.eqb (strip line) "```" then (false, json_lines)
    else fall_through
  else fall_through.

(** The text the decoding stages work on: the reply stripped, or the
    lines inside its code fences when it has some. *)
Definition preprocess (text : string) : string :=
  let processed_text := strip text in
  if contains "```" processed_text then
    let lines := split "010" processed_text in
    let (_, json_lines) := fold_left fence_step lines (false, []) in
    match json_lines with
    | [] => processed_text
    | _ => strip (join nl json_lines)
    end
  else processed_text.

(** The span from the first opening brace to the last closing one. *)
Definition brace_span (processed_text : string) : option string :=
  let start_idx := find "{" processed_text in
  let end_idx := rfind "}" processed_text in
  if negb (start_idx =? -1)%Z && negb (end_idx =? -1)%Z && (start_idx <? end_idx)%Z
  then Some (slice start_idx (end_idx + 1) processed_text)
  else None.

(** The clean-up of a span that did not decode. *)
Definition clean (json_candidate : string) : string :=
  let cleaned_json := sub_group1 trailing_comma_re json_candidate in
  replace cr (backslash ++ "r")
    (replace tab (backslash ++ "t")
       (replace nl (backslash ++ "n") cleaned_json)).

(** The first group of the key's pattern, or of its tolerant variant. *)
Definition field_match (key : string) (processed_text : string) : option string :=
  match search (key_value_re key) processed_text with
  | Some (g, _) => Some g
  | None =>
      match search (key_alt_re key) processed_text with
      | Some (g, _) => Some g
      | None => None
      end
  end.

Definition set_if {V : Type} (k : string) (v : option V) (d : list (string * V))
  : list (string * V) :=
  match v with
  | Some x => PyDict.set k x d
  | None => d
  end.

(** [d.setdefault]-like completion: [if k not in d: d[k] = v]. *)
Definition fill (k : string) (v : json) (d : list (string * json)) : list (string * json) :=
  if PyDict.has k d then d else PyDict.set k v d.

Section Parse.

(** What is left of the interpreter's recursion limit when the decoder is
    entered, and the text of the exception the handler reports. *)
Variable recursion_limit : nat.
Variable error_text : string.

Definition loads : string -> decode json := json_loads recursion_limit.

(** The [relevant_pages] entry of the recovery stage. *)
Definition pages_match (processed_text : string) : option json :=
  match search pages_re processed_text with
  | Some (g, _) =>
      match loads ("[" ++ g ++ "]") with
      | Decoded v _ => Some v
      | _ => Some (page_numbers g)
      end
  | None =>
      match search pages_alt_re processed_text with
      | Some (g, _) => Some (page_numbers g)
      | None => None
      end
  end.

(** The third step: the fields the patterns find, the others defaulted;
    the default structure when none is found. *)
Definition recover (processed_text : string) : json :=
  let result := [] in
  let result :=
    set_if "step_by_step_analysis"
      (option_map (fun g => JStr (replace (backslash ++ "n") nl g))
                  (field_match "step_by_step_analysis" processed_text)) result in
  let result :=
    set_if "reasoning_summary"
      (option_map JStr (field_match "reasoning_summary" processed_text)) result in
  let result := set_if "relevant_pages" (pages_match processed_text) result in
  let result :=
    set_if "final_answer"
      (option_map JStr (field_match "final_answer" processed_text)) result in
  match result with
  | _ :: _ =>
      let result := fill "step_by_step_analysis" (JStr "未找到分步分析") result in
      let result := fill "reasoning_summary" (JStr "未找到推理摘要") result in
      let result := fill "relevant_pages" (JArr []) result in
      let result := fill "final_answer" (JStr processed_text) result in
      JObj result
  | [] =>
      JObj [ ("step_by_step_analysis",
              JStr ("无法解析响应格式，原始内容: " ++ slice 0 200 processed_text ++ "..."));
             ("reasoning_summary", JStr "响应格式异常");
             ("relevant_pages", JArr []);
             ("final_answer", JStr processed_text) ]
  end.

(** The handler of the outer [try]. *)
Definition on_error (text : string) : json :=
  JObj [ ("step_by_step_analysis", JStr ("解析出错: " ++ error_text));
         ("reasoning_summary", JStr "解析过程中遇到错误");
         ("relevant_pages", JArr []);
         ("final_answer", JStr text) ].

(** The second step, on the brace span. *)
Definition parse_span (text processed_text json_candidate : string) : json :=
  match loads json_candidate with
  | Decoded v _ => v
  | Invalid =>
      match loads (clean json_candidate) with
      | Decoded v _ => v
      | Invalid => recover processed_text
      | _ => on_error text
      end
  | _ => on_error text
  end.

(** [StructuredOutputParser.parse]: a value the decoder yields is returned
    as it is; [json.JSONDecodeError] moves on to the next step; any other
    exception ends in the handler. *)
Definition parse (text : string) : json :=
  let processed_text := preprocess text in
  match loads processed_text with
  | Decoded v _ => v
  | Invalid =>
      match brace_span processed_text with
      | Some json_candidate => parse_span text processed_text json_candidate
      | None => recover processed_text
      end
  | _ => on_error text
  end.

End Parse.

(** The four keys of a structured answer. *)
Definition answer_keys : list string :=
  [ "step_by_step_analysis"; "reasoning_summary"; "relevant_pages"; "final_answer" ].

(** The value is a dict that holds all four keys. *)
Definition populated (v : json) : bool :=
  match v with
  | JObj d => forallb (fun k => PyDict.has k d) answer_keys
  | _ => false
  end.

End StructuredOutputParser.

(* ================================================================= *)
(** ** The two answer-type classifiers *)

(** [any(keyword in text for keyword in keywords)] *)
Definition any_keyword_in (keywords : list string) (text : string) : bool :=
  existsb (fun keyword => PyStr.contains keyword text) keywords.

(** src/langchain_integration/chains.py *)
Module AnswerTypeClassifier.

Definition determine_answer_type (question : string) : string :=
  let question_lower := PyStr.lower question in
  let number_keywords :=
    [ "多少"; "金额"; "数值"; "数量"; "比例"; "百分比"; "率"; "收入"; "利润"; "资产"; "负债";
      "销售额"; "成本"; "费用"; "投资"; "市值"; "股价"; "收益"; "产值"; "产量"; "销量" ] in
  let name_keywords :=
    [ "谁"; "哪个"; "哪位"; "什么人"; "姓名"; "名字"; "叫什么"; "称谓"; "职务"; "职位"; "角色" ] in
  let boolean_keywords :=
    [ "是否"; "有没有"; "是否存在"; "能否"; "可否"; "是不是"; "有没有"; "是否具备"; "是否拥有" ] in
  let names_keywords :=
    [ "哪些"; "哪些人"; "几个人"; "都有谁"; "都包括"; "分别"; "列表"; "清单"; "所有"; "多个" ] in
  if any_keyword_in number_keywords question_lower then "number"
  else if any_keyword_in name_keywords question_lower then "name"
  else if any_keyword_in boolean_keywords question_lower then "boolean"
  else if any_keyword_in names_keywords question_lower then "names"
  else "string".

End AnswerTypeClassifier.

(** src/models/knowledge_base.py *)
Module KnowledgeBase.

Definition determine_answer_type (question : string) : string :=
  let question_lower := PyStr.lower question in
  let number_keywords :=
    [ "多少"; "金额"; "数值"; "数量"; "比例"; "百分比"; "率"; "收入"; "利润"; "资产"; "负债";
      "销售额"; "成本"; "费用"; "投资"; "市值"; "股价"; "收益"; "产值"; "产量"; "销量" ] in
  let name_keywords :=
    [ "谁"; "哪个"; "哪位"; "什么人"; "姓名"; "名字"; "叫什么"; "称谓"; "职务"; "职位"; "角色" ] in
  let boolean_keywords :=
    [ "是否"; "有没有"; "是否存在"; "能否"; "可否"; "是不是"; "有没有"; "是否具备"; "是否拥有" ] in
  let names_keywords :=
    [ "哪些"; "哪些人"; "几个人"; "都有谁"; "都包括"; "分别"; "列表"; "清单"; "所有"; "多个" ] in
  if any_keyword_in number_keywords question_lower then "number"
  else if any_keyword_in name_keywords question_lower then "name"
  else if any_keyword_in boolean_keywords question_lower then "boolean"
  else if any_keyword_in names_keywords question_lower then "names"
  else "string".

End KnowledgeBase.

(* ================================================================= *)
(** ** Python lists *)

Module PyList.
Local Open Scope list_scope.

Section Lists.
Context {A : Type}.

(** [l[:k]] *)
Definition take (k : Z) (l : list A) : list A :=
  if (0 <=? k)%Z then firstn (Z.to_nat k) l
  else firstn (Z.to_nat (Z.of_nat (length l) + k)) l.

(** [l[i]] for an integer [i]: [None] is [IndexError]. *)
Definition index (l : list A) (i : Z) : option A :=
  if (0 <=? i)%Z then nth_error l (Z.to_nat i)
  else if (- Z.of_nat (length l) <=? i)%Z
       then nth_error l (Z.to_nat (Z.of_nat (length l) + i))
       else None.

(** [enumerate(l, start)] *)
Fixpoint enumerate_from (start : nat) (l : list A) : list (nat * A) :=
  match l with
  | [] => []
  | x :: l' => (start, x) :: enumerate_from (S start) l'
  end.

Definition enumerate (l : list A) : list (nat * A) := enumerate_from 0 l.

(** [l.sort(key=key, reverse=True)]: descending, and stable (elements with
    equal keys keep their order).  [insert_desc x l] puts [x] in front of
    the first element whose key is not greater than its own. *)
Fixpoint insert_desc (key : A -> Q) (x : A) (l : list A) : list A :=
  match l with
  | [] => [x]
  | y :: l' =>
      if Qle_bool (key y) (key x) then x :: y :: l'
      else y :: insert_desc key x l'
  end.

Fixpoint sort_desc (key : A -> Q) (l : list A) : list A :=
  match l with
  | [] => []
  | x :: l' => insert_desc key x (sort_desc key l')
  end.

End Lists.

End PyList.

(* ================================================================= *)
(** ** Search results *)

Module Results.

(** A hit of [search_by_vector] or [keyword_search]. *)
Record Hit : Type := {
  hit_id : string;
  hit_score : Q;
  hit_content : string;
  hit_metadata : list (string * Json.json)
}.

(** An entry of the result list of [hybrid_search]; the last three fields
    are the keys [rerank_search_results] adds. *)
Record SearchResult : Type := {
  id : string;
  content : string;
  metadata : list (string * Json.json);
  hybrid_score : Q;
  vector_score : Q;
  keyword_score : Q;
  rerank_score : option Q;
  rerank_position : option Z;
  original_position : option Z
}.

End Results.

(* ================================================================= *)
(** ** UniversalBGEReranker (src/utils/bge_reranker.py) *)

Module Reranker.
Import Json Results.
Local Open Scope list_scope.

Inductive ModelType : Type := cross_encoder | jina_api | llm.
Inductive Provider : Type := openai | dashscope | other_provider.

(** The fields of an instance that [rerank] reads: [_initialized], and
    whether [jina_headers] and [llm_client] are set. *)
Record UniversalBGEReranker : Type := {
  model_type : ModelType;
  _initialized : bool;
  jina_headers : bool;
  llm_client : bool;
  provider : Provider
}.

(** An entry of the list [rerank] returns. *)
Record Ranked : Type := {
  index : json;
  score : Q;
  text : string;
  original_rank : json;
  rerank_score : Q
}.

(** The request sent to the Jina endpoint. *)
Record JinaRequest : Type := {
  req_model : string;
  req_query : string;
  req_top_n : Z;
  req_documents : list string
}.

(** What [requests.post] does: it raises (connection error, timeout), or
    it returns a response with a status code and a body; the body is
    [None] when [response.json()] raises. *)
Inductive HttpOutcome : Type :=
| HttpRaised
| HttpResponse (status_code : Z) (body : option json).

(** What the LLM service answers: the parsed [block_rankings] scores
    (openai) or the message content (dashscope). *)
Inductive LlmReply : Type :=
| BlockRankings (relevance_scores : list Q)
| MessageContent (content : string).

(** The calls made so far to the three collaborators. *)
Record World : Type := {
  posted : list JinaRequest;
  predicted : list (list (string * string));
  asked : list (string * list string)
}.

(** [[{'index': i, 'score': 1.0/(i+1), ...} for i, doc in
    enumerate(documents[:top_k])]]: the documents in their order. *)
Definition pass_through (documents : list string) (top_k : Z) : list Ranked :=
  map (fun '(i, doc) =>
         {| index := JInt (Z.of_nat i);
            score := 1 # Pos.of_succ_nat i;
            text := doc;
            original_rank := JInt (Z.of_nat i);
            rerank_score := 1 # Pos.of_succ_nat i |})
      (PyList.enumerate (PyList.take top_k documents)).

(** [float(x)] on a decoded value; [None] when it raises.  A string is
    converted when it is written as a JSON number.  A non-finite float has
    no rational value: the model gives it no score and treats it like a
    value that cannot be converted. *)
Definition py_float (x : json) : option Q :=
  match x with
  | JInt z => Some (inject_Z z)
  | JBool b => Some (inject_Z (if b then 1 else 0))
  | JFloat q => Some q
  | JStr s =>
      match match_number (PyStr.strip s) with
      | Some (JInt z, EmptyString) => Some (inject_Z z)
      | Some (JFloat q, EmptyString) => Some q
      | _ => None
      end
  | _ => None
  end.

(** [x < n] for a decoded value and a length; [None] is [TypeError]. *)
Definition py_lt_len (x : json) (n : nat) : option bool :=
  match x with
  | JInt z => Some (z <? Z.of_nat n)%Z
  | JBool b => Some ((if b then 1 else 0) <? Z.of_nat n)%Z
  | JFloat q => Some (negb (Qle_bool (inject_Z (Z.of_nat n)) q))
  | JNonFinite lit => Some (String.eqb lit "-Infinity")
  | _ => None
  end.

(** [l[x]] for a decoded value; [None] is [IndexError] or [TypeError]. *)
Definition py_getitem {A : Type} (l : list A) (x : json) : option A :=
  match x with
  | JInt z => PyList.index l z
  | JBool b => PyList.index l (if b then 1 else 0)
  | _ => None
  end.

(** [key in x]; [None] is [TypeError]. *)
Definition py_in (key : string) (x : json) : option bool :=
  match x with
  | JObj d => Some (PyDict.has key d)
  | JArr l => Some (existsb (fun v => match v with JStr s => String.eqb s key | _ => false end) l)
  | JStr s => Some (PyStr.contains key s)
  | _ => None
  end.

(** The items a [for] loop over a decoded value visits, when every one of
    them is a dict; [None] when the loop raises (the value is not
    iterable, or an item has no [get]). *)
Definition dict_items (x : json) : option (list (list (string * json))) :=
  match x with
  | JArr l =>
      fold_right (fun v acc =>
                    match v, acc with
                    | JObj d, Some ds => Some (d :: ds)
                    | _, _ => None
                    end) (Some []) l
  | JObj [] => Some []
  | JStr EmptyString => Some []
  | _ => None
  end.

(** One entry of the Jina result list. *)
Definition jina_entry (documents : list string) (i : nat) (item : list (string * json))
  : option Ranked :=
  let doc_idx := match PyDict.get "index" item with Some v => v | None => JInt (Z.of_nat i) end in
  let score := match PyDict.get "relevance_score" item with Some v => v | None => JFloat 0 end in
  match py_float score, py_lt_len doc_idx (length documents) with
  | Some s, Some true =>
      match py_getitem documents doc_idx with
      | Some doc =>
          Some {| index := doc_idx; score := s; text := doc;
                  original_rank := doc_idx; rerank_score := s |}
      | None => None
      end
  | Some s, Some false =>
      Some {| index := doc_idx; score := s; text := EmptyString;
              original_rank := doc_idx; rerank_score := s |}
  | _, _ => None
  end.

Fixpoint jina_entries (documents : list string) (items : list (nat * list (string * json)))
  : option (list Ranked) :=
  match items with
  | [] => Some []
  | (i, item) :: items' =>
      match jina_entry documents i item, jina_entries documents items' with
      | Some e, Some es => Some (e :: es)
      | _, _ => None
      end
  end.

(** The branch of [_jina_api_rerank] for status 200; [None] when it
    raises. *)
Definition jina_results (documents : list string) (body : option json)
  : option (list Ranked) :=
  match body with
  | None => None
  | Some result =>
      match py_in "results" result with
      | None => None
      | Some false => Some []
      | Some true =>
          match result with
          | JObj d =>
              match PyDict.get "results" d with
              | Some rs =>
                  match dict_items rs with
                  | Some items => jina_entries documents (PyList.enumerate items)
                  | None => None
                  end
              | None => None
              end
          | _ => None
          end
      end
  end.

(** The loop of [_llm_rerank] over [enumerate(documents)], left as soon as
    [processed_docs >= top_k]. *)
Fixpoint llm_results (rankings : list Q) (top_k : Z) (processed_docs : Z)
         (docs : list (nat * string)) : list Ranked :=
  match docs with
  | [] => []
  | (i, doc) :: docs' =>
      let s := match nth_error rankings i with Some r => r | None => 0%Q end in
      let entry := {| index := JInt (Z.of_nat i); score := s; text := doc;
                      original_rank := JInt (Z.of_nat i); rerank_score := s |} in
      let processed_docs := (processed_docs + 1)%Z in
      if (top_k <=? processed_docs)%Z then [entry]
      else entry :: llm_results rankings top_k processed_docs docs'
  end.

Section Oracles.

(** The collaborators: the answer to the [n]-th call of each kind. *)
Variable post : nat -> JinaRequest -> HttpOutcome.
Variable predict : nat -> list (string * string) -> option (list Q).
Variable chat : nat -> Provider -> string -> list string -> option LlmReply.

Definition _cross_encoder_rerank (self : UniversalBGEReranker) (query : string)
           (documents : list string) (top_k : Z) (w : World) : list Ranked * World :=
  if negb (_initialized self) then (pass_through documents top_k, w)
  else
    let sentence_pairs := map (fun doc => (query, doc)) documents in
    let w' := {| posted := posted w;
                 predicted := predicted w ++ [sentence_pairs];
                 asked := asked w |} in
    match predict (length (predicted w)) sentence_pairs with
    | None => (pass_through documents top_k, w')
    | Some scores =>
        if (length scores <? length documents)%nat
        then (pass_through documents top_k, w')
        else
          let score_list := combine (seq 0 (length documents)) scores in
          let score_list := PyList.sort_desc snd score_list in
          let n := Z.to_nat (Z.min top_k (Z.of_nat (length score_list))) in
          (map (fun '(idx, s) =>
                  {| index := JInt (Z.of_nat idx); score := s;
                     text := nth idx documents EmptyString;
                     original_rank := JInt (Z.of_nat idx); rerank_score := s |})
               (firstn n score_list), w')
    end.

Definition _jina_api_rerank (self : UniversalBGEReranker) (query : string)
           (documents : list string) (top_k : Z) (w : World) : list Ranked * World :=
  if negb (_initialized self) || negb (jina_headers self)
  then (pass_through documents top_k, w)
  else
    let data := {| req_model := "jina-reranker-v2-base-multilingual";
                   req_query := query;
                   req_top_n := top_k;
                   req_documents := documents |} in
    let w' := {| posted := posted w ++ [data];
                 predicted := predicted w;
                 asked := asked w |} in
    match post (length (posted w)) data with
    | HttpRaised => (pass_through documents top_k, w')
    | HttpResponse status_code body =>
        if (status_code =? 200)%Z then
          match jina_results documents body with
          | Some results => (results, w')
          | None => (pass_through documents top_k, w')
          end
        else (pass_through documents top_k, w')
    end.

Definition _llm_rerank (self : UniversalBGEReranker) (query : string)
           (documents : list string) (top_k : Z) (w : World) : list Ranked * World :=
  if negb (_initialized self) || negb (llm_client self)
  then (pass_through documents top_k, w)
  else
    let w' := {| posted := posted w;
                 predicted := predicted w;
                 asked := asked w ++ [(query, documents)] |} in
    let reply := chat (length (asked w)) (provider self) query documents in
    let rankings :=
      match provider self, reply with
      | openai, Some (BlockRankings scores) => Some scores
      | dashscope, Some (MessageContent _) => Some (map (fun _ => 0%Q) documents)
      | _, _ => None
      end in
    match provider self, rankings with
    | other_provider, _ => (pass_through documents top_k, w)
    | _, None => (pass_through documents top_k, w')
    | _, Some rankings =>
        (PyList.sort_desc rerank_score
           (llm_results rankings top_k 0 (PyList.enumerate documents)), w')
    end.

(** [UniversalBGEReranker.rerank] *)
Definition rerank (self : UniversalBGEReranker) (query : string)
           (documents : list string) (top_k : Z) (w : World) : list Ranked * World :=
  match documents with
  | [] => ([], w)
  | _ =>
      match model_type self with
      | cross_encoder => _cross_encoder_rerank self query documents top_k w
      | jina_api => _jina_api_rerank self query documents top_k w
      | llm => _llm_rerank self query documents top_k w
      end
  end.

(** The loop of [rerank_search_results] that puts the results back
    together; [None] when [search_results[original_idx]] raises. *)
Fixpoint assemble (search_results : list SearchResult) (reranked : list Ranked)
         (final_results : list SearchResult) : option (list SearchResult) :=
  match reranked with
  | [] => Some final_results
  | r :: reranked' =>
      match py_getitem search_results (index r), index r with
      | Some original_result, (JInt _ | JBool _) =>
          let original_idx :=
            match index r with
            | JInt z => z
            | JBool b => if b then 1%Z else 0%Z
            | _ => 0%Z
            end in
          assemble search_results reranked'
            (final_results ++
             [ {| id := id original_result;
                  content := content original_result;
                  metadata := metadata original_result;
                  hybrid_score := hybrid_score original_result;
                  vector_score := vector_score original_result;
                  keyword_score := keyword_score original_result;
                  Results.rerank_score := Some (rerank_score r);
                  rerank_position := Some (Z.of_nat (length final_results) + 1)%Z;
                  original_position := Some (original_idx + 1)%Z |} ])
      | _, _ => None
      end
  end.

(** [UniversalBGEReranker.rerank_search_results] *)
Definition rerank_search_results (self : UniversalBGEReranker) (query : string)
           (search_results : list SearchResult) (top_k : Z) (w : World)
  : option (list SearchResult) * World :=
  match search_results with
  | [] => (Some [], w)
  | _ =>
      let documents := map content search_results in
      let (reranked_results, w') := rerank self query documents top_k w in
      (assemble search_results reranked_results [], w')
  end.

End Oracles.

End Reranker.

(* ================================================================= *)
(** ** ElasticSearchClient.hybrid_search (src/models/es_vector_store.py) *)

Module ElasticSearchClient.
Import Results.
Local Open Scope list_scope.

(** A value of the dict [all_results]. *)
Record Scores : Type := {
  s_id : string;
  s_content : string;
  s_metadata : list (string * Json.json);
  s_vector_score : Q;
  s_keyword_score : Q
}.

(** The body of the loop over [vector_results]. *)
Definition add_vector_result (all_results : list (string * Scores)) (item : Hit)
  : list (string * Scores) :=
  let doc_id := hit_id item in
  PyDict.set doc_id
    {| s_id := doc_id;
       s_content := hit_content item;
       s_metadata := hit_metadata item;
       s_vector_score := hit_score item;
       s_keyword_score := 0 |}
    all_results.

(** The body of the loop over [keyword_results]. *)
Definition add_keyword_result (all_results : list (string * Scores)) (item : Hit)
  : list (string * Scores) :=
  let doc_id := hit_id item in
  if negb (PyDict.has doc_id all_results) then
    PyDict.set doc_id
      {| s_id := doc_id;
         s_content := hit_content item;
         s_metadata := hit_metadata item;
         s_vector_score := 0;
         s_keyword_score := hit_score item |}
      all_results
  else
    PyDict.update doc_id
      (fun scores =>
         {| s_id := s_id scores;
            s_content := s_content scores;
            s_metadata := s_metadata scores;
            s_vector_score := s_vector_score scores;
            s_keyword_score := hit_score item |})
      all_results.

(** [all_results] after both loops. *)
Definition merge (vector_results keyword_results : list Hit) : list (string * Scores) :=
  fold_left add_keyword_result keyword_results
    (fold_left add_vector_result vector_results []).

(** The body of the loop over [all_results.items()]. *)
Definition scored (vector_weight : Q) (entry : string * Scores) : SearchResult :=
  let scores := snd entry in
  {| id := s_id scores;
     content := s_content scores;
     metadata := s_metadata scores;
     hybrid_score :=
       (s_vector_score scores * vector_weight
        + s_keyword_score scores * (1 - vector_weight))%Q;
     vector_score := s_vector_score scores;
     keyword_score := s_keyword_score scores;
     rerank_score := None;
     rerank_position := None;
     original_position := None |}.

(** [pre_rerank_results] before it is sorted, and after. *)
Definition unsorted_results (vector_results keyword_results : list Hit) (vector_weight : Q)
  : list SearchResult :=
  map (scored vector_weight) (merge vector_results keyword_results).

Definition pre_rerank_results (vector_results keyword_results : list Hit) (vector_weight : Q)
  : list SearchResult :=
  PyList.sort_desc hybrid_score
    (unsorted_results vector_results keyword_results vector_weight).

(** [x['rerank_score']] on a reranked result. *)
Definition rerank_key (x : SearchResult) : Q :=
  match rerank_score x with
  | Some s => s
  | None => 0
  end.

Section Search.

Variable post : nat -> Reranker.JinaRequest -> Reranker.HttpOutcome.
Variable predict : nat -> list (string * string) -> option (list Q).
Variable chat : nat -> Reranker.Provider -> string -> list string -> option Reranker.LlmReply.

(** [hybrid_search].  [vector_results] and [keyword_results] are what the
    two searches returned; [reranker] is the instance
    [get_high_comp_reranker()] builds, [None] when the import of the
    reranker module failed. *)
Definition hybrid_search (vector_results keyword_results : list Hit)
           (query_text : string) (top_k : Z) (vector_weight : Q) (use_reranker : bool)
           (reranker : option Reranker.UniversalBGEReranker) (w : Reranker.World)
  : list SearchResult * Reranker.World :=
  let pre := pre_rerank_results vector_results keyword_results vector_weight in
  let final_results := PyList.take top_k pre in
  match use_reranker, reranker with
  | true, Some r =>
      if Reranker._initialized r then
        match Reranker.rerank_search_results post predict chat r query_text pre
                (Z.min (top_k * 2) (Z.of_nat (length pre))) w with
        | (Some reranked_results, w') =>
            (PyList.take top_k (PyList.sort_desc rerank_key reranked_results), w')
        | (None, w') => (final_results, w')
        end
      else (final_results, w)
  | _, _ => (final_results, w)
  end.

End Search.

End ElasticSearchClient.

(* ================================================================= *)
(** ** Structured answers and their canonical text *)

Module StructuredAnswer.
Import PyStr Json.

(** [final_answer]: a text (the sentinel N/A is one), an integer, a
    boolean, or a list of names. *)
Inductive FinalAnswer : Type :=
| AnswerText (s : string)
| AnswerNumber (z : Z)
| AnswerBoolean (b : bool)
| AnswerNames (names : list string).

Record t : Type := {
  step_by_step_analysis : string;
  reasoning_summary : string;
  relevant_pages : list Z;
  final_answer : FinalAnswer
}.

(** The dict a structured answer is. *)
Definition final_answer_json (a : FinalAnswer) : json :=
  match a with
  | AnswerText s => JStr s
  | AnswerNumber z => JInt z
  | AnswerBoolean b => JBool b
  | AnswerNames names => JArr (map JStr names)
  end.

Definition to_json (x : t) : json :=
  JObj [ ("step_by_step_analysis", JStr (step_by_step_analysis x));
         ("reasoning_summary", JStr (reasoning_summary x));
         ("relevant_pages", JArr (map JInt (relevant_pages x)));
         ("final_answer", final_answer_json (final_answer x)) ].

(** Plain ASCII. *)
Fixpoint is_ascii (s : string) : bool :=
  match s with
  | EmptyString => true
  | String c s' => (N_of_ascii c <? 128)%N && is_ascii s'
  end.

Definition valid (x : t) : bool :=
  is_ascii (step_by_step_analysis x)
  && is_ascii (reasoning_summary x)
  && match final_answer x with
     | AnswerText s => is_ascii s
     | AnswerNames names => forallb is_ascii names
     | _ => true
     end.

(** *** The canonical text

    The specification defines the serialized form as the canonical
    structured text that the direct decoding step accepts: here, what
    [json.dumps] writes.  The separators are a comma and a colon, each
    followed by a space.  In a string the quote, the backslash and the
    characters outside the range from the space to the tilde are escaped
    (on ASCII text this is [encode_basestring_ascii]; a byte above 127 is
    copied). *)

Definition hex_digit (n : N) : ascii :=
  if (n <? 10)%N then ascii_of_N (48 + n) else ascii_of_N (87 + n).

Definition escape_char (c : ascii) : string :=
  let n := N_of_ascii c in
  if Ascii.eqb c "034" then backslash ++ dq
  else if Ascii.eqb c "092" then backslash ++ backslash
  else if Ascii.eqb c "010" then backslash ++ "n"
  else if Ascii.eqb c "013" then backslash ++ "r"
  else if Ascii.eqb c "009" then backslash ++ "t"
  else if Ascii.eqb c "008" then backslash ++ "b"
  else if Ascii.eqb c "012" then backslash ++ "f"
  else if (n <? 32)%N || (n =? 127)%N then
    backslash ++ "u00" ++ String (hex_digit (n / 16)) (String (hex_digit (n mod 16)) EmptyString)
  else String c EmptyString.

Fixpoint escape (s : string) : string :=
  match s with
  | EmptyString => EmptyString
  | String c s' => escape_char c ++ escape s'
  end.

Definition encode_string (s : string) : string := dq ++ escape s ++ dq.

Definition encode_int (z : Z) : string := NilZero.string_of_int (Z.to_int z).

Definition encode_bool (b : bool) : string := if b then "true" else "false".

Definition encode_list {A : Type} (encode : A -> string) (l : list A) : string :=
  "[" ++ join ", " (map encode l) ++ "]".

Definition encode_final_answer (a : FinalAnswer) : string :=
  match a with
  | AnswerText s => encode_string s
  | AnswerNumber z => encode_int z
  | AnswerBoolean b => encode_bool b
  | AnswerNames names => encode_list encode_string names
  end.

Definition serialize (x : t) : string :=
  "{" ++ encode_string "step_by_step_analysis" ++ ": "
      ++ encode_string (step_by_step_analysis x) ++ ", "
      ++ encode_string "reasoning_summary" ++ ": "
      ++ encode_string (reasoning_summary x) ++ ", "
      ++ encode_string "relevant_pages" ++ ": "
      ++ encode_list encode_int (relevant_pages x) ++ ", "
      ++ encode_string "final_answer" ++ ": "
      ++ encode_final_answer (final_answer x) ++ "}".

End StructuredAnswer.

(* ================================================================= *)
(** ** Exceptions and calls

    A computation that may raise and that makes calls: it maps the record
    of the calls made so far to a result ([None] when it raised) and the
    record after it.  The calls made before an exception stay on the
    record. *)

Module Exn.

Section Monad.
Context {S : Type}.

Definition M (A : Type) : Type := S -> option A * S.

Definition ret {A : Type} (a : A) : M A := fun s => (Some a, s).

Definition raise {A : Type} : M A := fun s => (None, s).

(** A value that is there, or the exception of its absence. *)
Definition lift {A : Type} (o : option A) : M A := fun s => (o, s).

Definition bind {A B : Type} (m : M A) (f : A -> M B) : M B :=
  fun s =>
    match m s with
    | (Some a, s') => f a s'
    | (None, s') => (None, s')
    end.

(** [try: body except Exception: handler] *)
Definition try_except {A : Type} (body handler : M A) : M A :=
  fun s =>
    match body s with
    | (Some a, s') => (Some a, s')
    | (None, s') => handler s'
    end.

End Monad.

End Exn.

Notation "x <- m ;; f" := (Exn.bind m (fun x => f))
  (at level 61, m at next level, right associativity).


(* ================================================================= *)
(** ** The prompts (src/prompts.py) *)

Module Prompts.
Import PyStr.

(** [AnswerWithRAGContextSharedPrompt.user_prompt.format(context=...,
    question=...)] *)
Module AnswerWithRAGContextSharedPrompt.

Definition user_prompt (context question : string) : string :=
  ("以下是上下文:
" ++ dq ++ dq ++ dq ++ "
")
  ++ context
  ++ ("
" ++ dq ++ dq ++ dq ++ "

---

以下是问题：
" ++ dq)
  ++ question
  ++ (dq ++ "
").

End AnswerWithRAGContextSharedPrompt.

(** The five prompt classes take the user prompt of the shared one. *)
Module AnswerWithRAGContextNamePrompt.
Definition user_prompt := AnswerWithRAGContextSharedPrompt.user_prompt.
End AnswerWithRAGContextNamePrompt.

Module AnswerWithRAGContextNumberPrompt.
Definition user_prompt := AnswerWithRAGContextSharedPrompt.user_prompt.
End AnswerWithRAGContextNumberPrompt.

Module AnswerWithRAGContextBooleanPrompt.
Definition user_prompt := AnswerWithRAGContextSharedPrompt.user_prompt.
End AnswerWithRAGContextBooleanPrompt.

Module AnswerWithRAGContextNamesPrompt.
Definition user_prompt := AnswerWithRAGContextSharedPrompt.user_prompt.
End AnswerWithRAGContextNamesPrompt.

Module AnswerWithRAGContextStringPrompt.
Definition user_prompt := AnswerWithRAGContextSharedPrompt.user_prompt.
End AnswerWithRAGContextStringPrompt.

(** *** DynamicPromptAnalyzer *)

Module DynamicPromptAnalyzer.

(** The keywords of [_identify_document_type]. *)
Definition financial_keywords : list string :=
  [ "财务报告"; "资产负债表"; "利润表"; "现金流量表"; "股东权益"; "营业收入";
    "净利润"; "年报"; "年度报告"; "半年报"; "季度报"; "审计报告";
    "财务状况"; "经营成果" ].
Definition legal_keywords : list string :=
  [ "合同"; "协议"; "条款"; "法律"; "法规"; "规定";
    "义务"; "权利"; "责任"; "违约" ].
Definition technical_keywords : list string :=
  [ "技术规格"; "系统架构"; "接口"; "api"; "算法"; "数据结构";
    "性能"; "测试"; "部署" ].
Definition academic_keywords : list string :=
  [ "abstract"; "introduction"; "methodology"; "results"; "conclusion"; "参考文献";
    "摘要"; "引言"; "研究"; "实验"; "结论" ].
Definition _identify_document_type (content : string) : string :=
  let content_lower := lower content in
  if any_keyword_in financial_keywords content_lower then "financial_annual_report"
  else if any_keyword_in legal_keywords content_lower then "legal_document"
  else if any_keyword_in technical_keywords content_lower then "technical_document"
  else if any_keyword_in academic_keywords content_lower then "academic_paper"
  else "general_document".

(** The keywords of [_extract_domain_keywords]. *)
Definition financial_domain_keywords : list string :=
  [ "营业收入"; "净利润"; "总资产"; "净资产"; "资产负债率"; "毛利率";
    "现金流"; "股东权益"; "每股收益"; "市盈率"; "ROE"; "ROA";
    "EBITDA" ].
Definition tech_keywords : list string :=
  [ "API"; "interface"; "function"; "class"; "method"; "algorithm";
    "performance"; "optimization"; "security"; "scalability" ].
(** The list [keywords] of [_extract_domain_keywords] before it is made a
    set. *)
Definition keywords_found (content : string) : list string :=
  let content_lower := lower content in
  let keywords := [] in
  let keywords :=
    if contains "financial_annual_report" (_identify_document_type content)
    then (keywords ++ filter (fun kw => contains kw content) financial_domain_keywords)%list
    else keywords in
  let keywords :=
    if contains "technical_document" (_identify_document_type content)
    then (keywords ++ filter (fun kw => contains (lower kw) content_lower) tech_keywords)%list
    else keywords in
  keywords.

(** [_extract_domain_keywords]: [list(set(keywords))] holds the keywords
    found, each once, in an order the language does not fix; [result] is
    one of the lists the call may return. *)
Definition _extract_domain_keywords (content : string) (result : list string) : Prop :=
  NoDup result /\ forall kw, In kw result <-> In kw (keywords_found content).

End DynamicPromptAnalyzer.

(** *** DynamicRAGPromptGenerator *)

Module DynamicRAGPromptGenerator.
Import DynamicPromptAnalyzer.

Definition _generate_financial_prompt (question context : string) : string :=
  ("你是一个专业的金融分析师，正在分析公司年报或财务报告。
你的任务是仅基于提供的财务文档内容，精确回答给定问题。

特别注意事项：
1. 对于数值类问题，必须严格匹配指标定义和计量单位
2. 注意区分总额、净额、比率、百分比等不同计量方式
3. 尊重数据的时间范围和会计期间
4. 如果问题需要计算或推导而文档未直接提供，请返回'N/A'

以下是上下文:
" ++ dq)
  ++ context
  ++ (dq ++ "

---

以下是问题：
" ++ dq)
  ++ question
  ++ (dq ++ "

请按照以下JSON格式回答：
{
  " ++ dq ++ "step_by_step_analysis" ++ dq ++ ": " ++ dq ++ "1. 明确问题所需的财务指标定义\n2. 在上下文中查找对应数据\n3. 验证数据的准确性、期间和单位\n4. 确认是否满足问题要求\n5. 得出结论" ++ dq ++ ",
  " ++ dq ++ "reasoning_summary" ++ dq ++ ": " ++ dq ++ "简要总结分析过程和依据" ++ dq ++ ",
  " ++ dq ++ "relevant_pages" ++ dq ++ ": [1, 2, 3],  // 相关页面编号列表
  " ++ dq ++ "final_answer" ++ dq ++ ": " ++ dq ++ "精确的数值或文字答案，如无法确定则返回'N/A'" ++ dq ++ "
}").

Definition _generate_legal_prompt (question context : string) : string :=
  ("你是一个专业的法律分析师，正在分析合同或法律文档。
你的任务是仅基于提供的法律文档内容，精确解释相关条款。

特别注意事项：
1. 严格按照文档条款进行解释，不得推测或假设
2. 注意条款的有效期、适用条件和例外情况
3. 区分权利与义务、违约责任等不同性质的条款
4. 如果问题超出文档范围，请返回'N/A'

以下是上下文:
" ++ dq)
  ++ context
  ++ (dq ++ "

---

以下是问题：
" ++ dq)
  ++ question
  ++ (dq ++ "

请按照以下JSON格式回答：
{
  " ++ dq ++ "step_by_step_analysis" ++ dq ++ ": " ++ dq ++ "1. 识别问题涉及的法律概念或条款\n2. 在上下文中定位相关条款\n3. 分析条款的适用条件\n4. 确认条款的效力和约束力\n5. 得出结论" ++ dq ++ ",
  " ++ dq ++ "reasoning_summary" ++ dq ++ ": " ++ dq ++ "简要总结法律分析过程" ++ dq ++ ",
  " ++ dq ++ "relevant_pages" ++ dq ++ ": [1, 2, 3],  // 相关页面编号列表
  " ++ dq ++ "final_answer" ++ dq ++ ": " ++ dq ++ "基于法律文档的精确解释，如无法确定则返回'N/A'" ++ dq ++ "
}").

Definition _generate_technical_prompt (question context : string) : string :=
  ("你是一个技术专家，正在分析技术文档或API文档。
你的任务是仅基于提供的技术文档内容，解答技术实现问题。

特别注意事项：
1. 严格按照文档中的技术规范进行回答
2. 注意版本、兼容性和依赖关系
3. 区分概念解释、使用方法和最佳实践
4. 如涉及未明确说明的实现细节，请返回'N/A'

以下是上下文:
" ++ dq)
  ++ context
  ++ (dq ++ "

---

以下是问题：
" ++ dq)
  ++ question
  ++ (dq ++ "

请按照以下JSON格式回答：
{
  " ++ dq ++ "step_by_step_analysis" ++ dq ++ ": " ++ dq ++ "1. 明确问题的技术领域\n2. 在文档中查找相关技术信息\n3. 验证信息的准确性和时效性\n4. 确认是否满足问题需求\n5. 得出结论" ++ dq ++ ",
  " ++ dq ++ "reasoning_summary" ++ dq ++ ": " ++ dq ++ "简要总结技术分析过程" ++ dq ++ ",
  " ++ dq ++ "relevant_pages" ++ dq ++ ": [1, 2, 3],  // 相关页面编号列表
  " ++ dq ++ "final_answer" ++ dq ++ ": " ++ dq ++ "基于技术文档的精确答案，如无法确定则返回'N/A'" ++ dq ++ "
}").

Definition _generate_academic_prompt (question context : string) : string :=
  ("你是一个学术研究员，正在分析学术论文。
你的任务是仅基于提供的论文内容，回答研究相关问题。

特别注意事项：
1. 严格按照论文内容进行分析，不得超出文档范围
2. 区分研究结论、假设、方法论和局限性
3. 注意研究的适用范围和条件
4. 如果问题涉及未充分讨论的内容，请返回'N/A'

以下是上下文:
" ++ dq)
  ++ context
  ++ (dq ++ "

---

以下是问题：
" ++ dq)
  ++ question
  ++ (dq ++ "

请按照以下JSON格式回答：
{
  " ++ dq ++ "step_by_step_analysis" ++ dq ++ ": " ++ dq ++ "1. 识别问题所属的研究领域\n2. 在论文中查找相关信息\n3. 分析研究方法和结论的可靠性\n4. 确认信息的适用性\n5. 得出结论" ++ dq ++ ",
  " ++ dq ++ "reasoning_summary" ++ dq ++ ": " ++ dq ++ "简要总结学术分析过程" ++ dq ++ ",
  " ++ dq ++ "relevant_pages" ++ dq ++ ": [1, 2, 3],  // 相关页面编号列表
  " ++ dq ++ "final_answer" ++ dq ++ ": " ++ dq ++ "基于论文内容的精确回答，如无法确定则返回'N/A'" ++ dq ++ "
}").

Definition _generate_general_prompt (question context : string) : string :=
  ("你是一个专业的内容分析师。
你的任务是仅基于提供的文档内容，准确回答给定问题。

以下是上下文:
" ++ dq)
  ++ context
  ++ (dq ++ "

---

以下是问题：
" ++ dq)
  ++ question
  ++ (dq ++ "

请按照以下JSON格式回答：
{
  " ++ dq ++ "step_by_step_analysis" ++ dq ++ ": " ++ dq ++ "1. 理解问题的要求\n2. 在上下文中寻找相关信息\n3. 验证信息的准确性\n4. 确认信息满足问题需求\n5. 得出结论" ++ dq ++ ",
  " ++ dq ++ "reasoning_summary" ++ dq ++ ": " ++ dq ++ "简要总结分析过程" ++ dq ++ ",
  " ++ dq ++ "relevant_pages" ++ dq ++ ": [1, 2, 3],  // 相关页面编号列表
  " ++ dq ++ "final_answer" ++ dq ++ ": " ++ dq ++ "基于上下文的准确答案，如无法确定则返回'N/A'" ++ dq ++ "
}").

(** The choice of [generate_context_aware_prompt] among the five. *)
Definition prompt_of_type (document_type question context : string) : string :=
  if String.eqb document_type "financial_annual_report"
  then _generate_financial_prompt question context
  else if String.eqb document_type "legal_document"
  then _generate_legal_prompt question context
  else if String.eqb document_type "technical_document"
  then _generate_technical_prompt question context
  else if String.eqb document_type "academic_paper"
  then _generate_academic_prompt question context
  else _generate_general_prompt question context.

(** [generate_context_aware_prompt(question, context)], as its callers
    use it: [document_analysis] is not given, the context is analyzed,
    and of the analysis the document type is read. *)
Definition generate_context_aware_prompt (question context : string) : string :=
  prompt_of_type (_identify_document_type context) question context.

End DynamicRAGPromptGenerator.

End Prompts.

(* ================================================================= *)
(** ** QwenLLMClient.parse_structured_response (src/utils/qwen_client.py) *)

Module QwenLLMClient.
Import PyStr Json.

(** The structure returned when the response holds no brace span. *)
Definition no_json_found (response_text : string) : json :=
  JObj [ ("step_by_step_analysis", JStr "无法解析响应格式");
         ("reasoning_summary", JStr "响应格式异常");
         ("relevant_pages", JArr []);
         ("final_answer", JStr response_text) ].

(** The structure the handler of [json.JSONDecodeError] returns. *)
Definition json_decode_error (response_text : string) : json :=
  JObj [ ("step_by_step_analysis", JStr "JSON解析失败");
         ("reasoning_summary", JStr "无法解析模型响应");
         ("relevant_pages", JArr []);
         ("final_answer", JStr response_text) ].

(** [parse_structured_response]; [None] when it raises: the handler
    catches [json.JSONDecodeError] only, an exhausted recursion limit goes
    to the caller.  [answer_type] is not read. *)
Definition parse_structured_response (recursion_limit : nat)
           (response_text : string) (answer_type : string) : option json :=
  let start_idx := find "{" response_text in
  let end_idx := rfind "}" response_text in
  if negb (start_idx =? -1)%Z && negb (end_idx =? -1)%Z && (start_idx <? end_idx)%Z
  then
    let json_str := slice start_idx (end_idx + 1) response_text in
    match json_loads recursion_limit json_str with
    | Decoded parsed_response _ => Some parsed_response
    | Invalid => Some (json_decode_error response_text)
    | _ => None
    end
  else Some (no_json_found response_text).

(** What [dashscope.Generation.call] answers. *)
Record Response : Type := {
  status_code : Z;
  output_text : string
}.

Section Calls.
Import Exn Prompts.
Local Open Scope list_scope.

(** [generation_call n prompt temperature] is the answer to the call
    number [n], [None] when it raises.  The record of a client is the
    list of the prompts it sent, each with its temperature. *)
Variable generation_call : nat -> string -> Q -> option Response.

(** The call and the test of the status, the body of the three methods:
    a status other than 200 raises, and the handler raises again. *)
Definition generate (prompt : string) (temperature : Q)
  : M (S := list (string * Q)) string :=
  fun calls =>
    let calls' := calls ++ [(prompt, temperature)] in
    match generation_call (length calls) prompt temperature with
    | Some response =>
        if (status_code response =? 200)%Z then (Some (output_text response), calls')
        else (None, calls')
    | None => (None, calls')
    end.

(** [chat(question, context)] *)
Definition chat (question context : string) : M (S := list (string * Q)) string :=
  let prompt :=
    match context with
    | String _ _ =>
        ("基于以下上下文信息回答问题:" ++ nl ++ nl ++ context ++ nl ++ nl
         ++ "问题: " ++ question ++ nl ++ "答案:")%string
    | EmptyString => ("问题: " ++ question ++ nl ++ "答案:")%string
    end in
  generate prompt 0.7.

(** [structured_chat(question, context, answer_type)] *)
Definition structured_chat (question context answer_type : string)
  : M (S := list (string * Q)) string :=
  let user_prompt_of :=
    if String.eqb answer_type "name" then AnswerWithRAGContextNamePrompt.user_prompt
    else if String.eqb answer_type "number" then AnswerWithRAGContextNumberPrompt.user_prompt
    else if String.eqb answer_type "boolean" then AnswerWithRAGContextBooleanPrompt.user_prompt
    else if String.eqb answer_type "names" then AnswerWithRAGContextNamesPrompt.user_prompt
    else AnswerWithRAGContextStringPrompt.user_prompt in
  let user_prompt := user_prompt_of context question in
  generate user_prompt 0.3.

(** [chat_with_custom_prompt(custom_prompt)] *)
Definition chat_with_custom_prompt (custom_prompt : string)
  : M (S := list (string * Q)) string :=
  generate custom_prompt 0.3.

End Calls.

End QwenLLMClient.

(* ================================================================= *)
(** ** The chains (src/langchain_integration/chains.py) *)

Module Chains.
Import PyStr Json Results Exn.
Local Open Scope list_scope.

(** An entry of [sources]. *)
Record Source : Type := {
  source_id : string;
  source_content : string;
  source_score : Q;
  source_original_score : Q;
  source_rerank_position : option Z;
  source_original_position : option Z;
  source_use_reranker : bool
}.

(** [result.get('rerank_score', result.get('hybrid_score', 0.0))] *)
Definition score_of (result : SearchResult) : Q :=
  match rerank_score result with
  | Some s => s
  | None => hybrid_score result
  end.

(** The body of the loop over [search_results]. *)
Definition source_of (use_reranker : bool) (result : SearchResult) : Source :=
  {| source_id := id result;
     source_content := (slice 0 200 (content result) ++ "...")%string;
     source_score := score_of result;
     source_original_score := hybrid_score result;
     source_rerank_position := rerank_position result;
     source_original_position := original_position result;
     source_use_reranker := use_reranker |}.

(** [context_parts] joined, and [sources]. *)
Definition context_of (search_results : list SearchResult) : string :=
  join (nl ++ nl) (map content search_results).

Definition sources_of (use_reranker : bool) (search_results : list SearchResult)
  : list Source :=
  map (source_of use_reranker) search_results.

(** [parsed.get(key, default)] on what the parser returned: [None] is the
    [AttributeError] of a value that is not a dict. *)
Definition get_or (parsed : json) (key : string) (default : json) : option json :=
  match parsed with
  | JObj d =>
      Some (match PyDict.get key d with
            | Some v => v
            | None => default
            end)
  | _ => None
  end.

(** [self.llm.invoke(prompt)]: the record is the list of the prompts
    sent; [invoke n prompt] is the reply to the call number [n], [None]
    when the call raises. *)
Definition llm_invoke (invoke : nat -> string -> option string) (prompt : string)
  : M (S := list string) string :=
  fun sent => (invoke (length sent) prompt, sent ++ [prompt]).

End Chains.

(** *** RAGChain *)

Module RAGChain.
Import PyStr Json Results Exn Chains.
Local Open Scope list_scope.

(** The keys of [inputs]; [None] for a key that is absent. *)
Record Inputs : Type := {
  question : option string;
  top_k : option Z;
  use_reranker : option bool;
  reranker_model : option string
}.

(** The dict [__call__] returns. *)
Record Output : Type := {
  answer : json;
  sources : list Source;
  search_results : list SearchResult;
  structured_response : json;
  answer_type : string
}.

(** [LangChainPrompts.basic_rag_prompt.format(context=..., question=...)] *)
Definition basic_rag_prompt (context question : string) : string :=
  ("基于以下上下文信息回答问题:" ++ nl ++ nl ++ context ++ nl ++ nl
   ++ "问题: " ++ question ++ nl ++ "答案:")%string.

Section Call.

(** The parser's parameters, the model, the vector store, and the five
    prompt templates of [LangChainPrompts]: each [get_adaptive_..._prompt()
    .format(context=..., question=...)] gives a prompt, or raises. *)
Variable recursion_limit : nat.
Variable error_text : string.
Variable invoke : nat -> string -> option string.
Variable hybrid_search : string -> Z -> bool -> string -> option (list SearchResult).
Variable name_qa_prompt : string -> string -> option string.
Variable number_qa_prompt : string -> string -> option string.
Variable boolean_qa_prompt : string -> string -> option string.
Variable names_qa_prompt : string -> string -> option string.
Variable string_qa_prompt : string -> string -> option string.

Definition prompt_template (answer_type : string) : string -> string -> option string :=
  if String.eqb answer_type "name" then name_qa_prompt
  else if String.eqb answer_type "number" then number_qa_prompt
  else if String.eqb answer_type "boolean" then boolean_qa_prompt
  else if String.eqb answer_type "names" then names_qa_prompt
  else string_qa_prompt.

(** The handler: the basic prompt, outside any [try]. *)
Definition basic_answer (context question : string) (sources : list Source)
           (search_results : list SearchResult) : M (S := list string) Output :=
  answer <- llm_invoke invoke (basic_rag_prompt context question) ;;
  ret {| answer := JStr answer;
         sources := sources;
         search_results := search_results;
         structured_response := JObj [];
         answer_type := "fallback" |}.

(** [RAGChain.__call__] *)
Definition call (inputs : Inputs) : M (S := list string) Output :=
  question <- lift (question inputs) ;;
  let top_k := match top_k inputs with Some k => k | None => 5%Z end in
  let use_reranker := match use_reranker inputs with Some b => b | None => true end in
  let reranker_model :=
    match reranker_model inputs with Some m => m | None => "default"%string end in
  search_results <- lift (hybrid_search question top_k use_reranker reranker_model) ;;
  let sources := sources_of use_reranker search_results in
  let context := context_of search_results in
  let answer_type := AnswerTypeClassifier.determine_answer_type question in
  formatted_prompt <- lift (prompt_template answer_type context question) ;;
  try_except
    (response <- llm_invoke invoke formatted_prompt ;;
     let structured_response :=
       StructuredOutputParser.parse recursion_limit error_text response in
     final_answer <-
       lift (get_or structured_response "final_answer"
                    (JStr "未能从上下文中找到相关信息。")) ;;
     ret {| answer := final_answer;
            sources := sources;
            search_results := search_results;
            structured_response := structured_response;
            answer_type := answer_type |})
    (basic_answer context question sources search_results).

End Call.

End RAGChain.

(** *** QuestionRephraseChain *)

Module QuestionRephraseChain.
Import PyStr Json Exn Chains.
Local Open Scope list_scope.

Record Inputs : Type := {
  question : option string;
  companies : option (list string)
}.

Section Call.

(** [system_prompt] is [RephrasedQuestionsPrompt.system_prompt], a
    constant of src/prompts.py. *)
Variable recursion_limit : nat.
Variable error_text : string.
Variable invoke : nat -> string -> option string.
Variable system_prompt : string.

Definition formatted_prompt (question : string) (companies : list string) : string :=
  let companies_str := join ", " (map (fun comp => dq ++ comp ++ dq)%string companies) in
  let user_content :=
    ("原始比较问题：'" ++ question ++ "'" ++ nl ++ nl ++ "涉及公司：" ++ companies_str)%string in
  (system_prompt ++ nl ++ nl ++ user_content)%string.

(** [QuestionRephraseChain.__call__]: the handler logs and raises again,
    so an exception goes to the caller.  The result is the dict with the
    one key [rephrased_questions]. *)
Definition call (inputs : Inputs) : M (S := list string) json :=
  question <- lift (question inputs) ;;
  companies <- lift (companies inputs) ;;
  response <- llm_invoke invoke (formatted_prompt question companies) ;;
  let parsed_response := StructuredOutputParser.parse recursion_limit error_text response in
  rephrased_questions <- lift (get_or parsed_response "questions" (JArr [])) ;;
  ret (JObj [("rephrased_questions", rephrased_questions)]).

End Call.

End QuestionRephraseChain.

(** *** ComparativeAnswerChain *)

Module ComparativeAnswerChain.
Import PyStr Json Exn Chains.
Local Open Scope list_scope.

Record Inputs : Type := {
  context : option string;
  question : option string
}.

Section Call.

(** [system_prompt] is [ComparativeAnswerPrompt.system_prompt], a
    constant of src/prompts.py. *)
Variable recursion_limit : nat.
Variable error_text : string.
Variable invoke : nat -> string -> option string.
Variable system_prompt : string.

Definition formatted_prompt (context question : string) : string :=
  (system_prompt ++ nl ++ nl ++ "以下是单个公司的回答：" ++ nl
   ++ dq ++ context ++ dq ++ nl ++ nl ++ "---" ++ nl ++ nl
   ++ "以下是原始比较问题：" ++ nl ++ dq ++ question ++ dq)%string.

(** [ComparativeAnswerChain.__call__]: the two keys are read outside the
    [try]; inside it, any exception gives the answer N/A.  The result is
    the dict with the one key [final_answer]. *)
Definition call (inputs : Inputs) : M (S := list string) json :=
  context <- lift (context inputs) ;;
  question <- lift (question inputs) ;;
  try_except
    (response <- llm_invoke invoke (formatted_prompt context question) ;;
     let parsed_response :=
       StructuredOutputParser.parse recursion_limit error_text response in
     final_answer <- lift (get_or parsed_response "final_answer" (JStr "N/A")) ;;
     ret (JObj [("final_answer", final_answer)]))
    (ret (JObj [("final_answer", JStr "N/A")])).

End Call.

End ComparativeAnswerChain.


(* ================================================================= *)
(** ** The search as a whole (src/models/es_vector_store.py,
       src/langchain_integration/es_vector_store_wrapper.py) *)

Module ElasticSearchVectorStore.
Import Results Reranker Exn.
Local Open Scope list_scope.

Section Store.

(** The collaborators of the reranker; the embedding client; the two
    searches of the client, which answer with their hits or raise; and
    the instance [get_high_comp_reranker()] builds. *)
Variable post : nat -> JinaRequest -> HttpOutcome.
Variable predict : nat -> list (string * string) -> option (list Q).
Variable chat : nat -> Provider -> string -> list string -> option LlmReply.
Variable embed_query : string -> option (list Q).
Variable search_by_vector : list Q -> Z -> option (list Hit).
Variable keyword_search : string -> Z -> option (list Hit).
Variable reranker : option UniversalBGEReranker.

(** [ElasticSearchClient.hybrid_search], the method from its first line:
    the two searches are asked for [top_k * 2] hits each, and an
    exception of either goes to the caller. *)
Definition client_hybrid_search (query_text : string) (query_vector : list Q)
           (top_k : Z) (vector_weight : Q) (use_reranker : bool)
  : M (S := World) (list SearchResult) :=
  vector_results <- lift (search_by_vector query_vector (top_k * 2)) ;;
  keyword_results <- lift (keyword_search query_text (top_k * 2)) ;;
  fun w =>
    let (results, w') :=
      ElasticSearchClient.hybrid_search post predict chat vector_results keyword_results
                                        query_text top_k vector_weight use_reranker
                                        reranker w in
    (Some results, w').

(** [ElasticSearchVectorStore.hybrid_search]: the query is embedded and
    handed to the client with the default weight; [reranker_model] is
    not read. *)
Definition hybrid_search (query_text : string) (top_k : Z) (use_reranker : bool)
           (reranker_model : string) : M (S := World) (list SearchResult) :=
  query_vector <- lift (embed_query query_text) ;;
  client_hybrid_search query_text query_vector top_k 0.7 use_reranker.

End Store.

End ElasticSearchVectorStore.

(* ================================================================= *)
(** ** The two knowledge bases (src/models/knowledge_base.py,
       src/langchain_enhanced_kb.py) *)

(** A document as [add_documents] looks at it: an object, with or without
    the attributes [page_content] and [metadata]; a dict; a string.
    [str] is [str(doc)]. *)
Module Documents.
Import Json.

Inductive Document : Type :=
| DocObject (page_content : option json) (metadata : option json) (str : string)
| DocDict (d : list (string * json)) (str : string)
| DocStr (s : string).

Definition content_of (doc : Document) : json :=
  match doc with
  | DocObject (Some page_content) _ _ => page_content
  | DocObject None _ str => JStr str
  | DocDict d str =>
      match PyDict.get "page_content" d with
      | Some page_content => page_content
      | None => JStr str
      end
  | DocStr s => JStr s
  end.

Definition metadata_of (doc : Document) : json :=
  match doc with
  | DocObject _ (Some metadata) _ => metadata
  | DocObject _ None _ => JObj []
  | DocDict d _ =>
      match PyDict.get "metadata" d with
      | Some metadata => metadata
      | None => JObj []
      end
  | DocStr _ => JObj []
  end.

(** A document of the index: content, vector, metadata. *)
Definition Indexed : Type := (json * list Q * json)%type.

(** The state of a knowledge base and the record of its calls: the flag
    [is_initialized], the number of calls of [create_index], the
    documents added to the index, the prompts the client sent (with
    their temperature) and the prompts the LangChain model was sent. *)
Record World : Type := {
  is_initialized : bool;
  created : nat;
  indexed : list Indexed;
  calls : list (string * Q);
  sent : list string
}.

Definition with_initialized (b : bool) (w : World) : World :=
  {| is_initialized := b; created := created w; indexed := indexed w;
     calls := calls w; sent := sent w |}.

Definition with_created (n : nat) (w : World) : World :=
  {| is_initialized := is_initialized w; created := n; indexed := indexed w;
     calls := calls w; sent := sent w |}.

Definition with_indexed (l : list Indexed) (w : World) : World :=
  {| is_initialized := is_initialized w; created := created w; indexed := l;
     calls := calls w; sent := sent w |}.

Definition with_calls (l : list (string * Q)) (w : World) : World :=
  {| is_initialized := is_initialized w; created := created w; indexed := indexed w;
     calls := l; sent := sent w |}.

Definition with_sent (l : list string) (w : World) : World :=
  {| is_initialized := is_initialized w; created := created w; indexed := indexed w;
     calls := calls w; sent := l |}.

Section Index.
Import Exn.
Local Open Scope list_scope.

(** [es_client.create_index] and [es_client.add_document]: the answer to
    the call number [n], [None] when it raises. *)
Variable create_index : nat -> option bool.
Variable add_document : nat -> json -> list Q -> json -> option json.

(** [initialize], the same in the two classes: the flag is set when
    [create_index] returns, whatever it returns. *)
Definition initialize : M (S := World) bool :=
  fun w =>
    let w' := with_created (S (created w)) w in
    match create_index (created w) with
    | Some _ => (Some true, with_initialized true w')
    | None => (Some false, w')
    end.

(** The guard of [add_documents] and of [load_and_add_documents]. *)
Definition ensure_initialized : M (S := World) unit :=
  fun w =>
    if is_initialized w then (Some tt, w)
    else (ok <- initialize ;; if ok : bool then ret tt else raise) w.

(** [self.es_client.add_document(content, vector, metadata)] *)
Definition es_add_document (content : json) (vector : list Q) (metadata : json)
  : M (S := World) json :=
  fun w =>
    match add_document (length (indexed w)) content vector metadata with
    | Some response =>
        (Some response, with_indexed (indexed w ++ [(content, vector, metadata)]) w)
    | None => (None, w)
    end.

End Index.

End Documents.

(** *** KnowledgeBase (src/models/knowledge_base.py) *)

Module KnowledgeBaseMethods.
Import PyStr Json Results Exn Chains Documents.
Local Open Scope list_scope.

(** The dict [ask] returns; [None] for a key it does not set. *)
Record AskOutput (Analysis : Type) : Type := {
  answer : json;
  sources : list Source;
  search_results : list SearchResult;
  structured_response : option json;
  document_analysis : option Analysis;
  prompt_strategy : option string;
  answer_type : string
}.

Arguments answer {Analysis}.
Arguments sources {Analysis}.
Arguments search_results {Analysis}.
Arguments structured_response {Analysis}.
Arguments document_analysis {Analysis}.
Arguments prompt_strategy {Analysis}.
Arguments answer_type {Analysis}.

Section Methods.

(** The collaborators: the index, the embedding client, the search of the
    client, the model, and the analysis of a context by
    [DynamicPromptAnalyzer.analyze_document], a function of the text. *)
Variable recursion_limit : nat.
Variable create_index : nat -> option bool.
Variable add_document : nat -> json -> list Q -> json -> option json.
Variable embed_query : json -> option (list Q).
Variable hybrid_search : string -> list Q -> Z -> bool -> option (list SearchResult).
Variable generation_call : nat -> string -> Q -> option QwenLLMClient.Response.
Variable Analysis : Type.
Variable analyze_document : string -> Analysis.

(** A method of the client, run on the record of the knowledge base. *)
Definition on_calls {A : Type} (m : M (S := list (string * Q)) A) : M (S := World) A :=
  fun w => let (r, calls') := m (calls w) in (r, with_calls calls' w).

(** The loop of [add_documents]. *)
Fixpoint add_each (documents : list Document) : M (S := World) unit :=
  match documents with
  | [] => ret tt
  | doc :: documents' =>
      let content := content_of doc in
      embedding <- lift (embed_query content) ;;
      let metadata := metadata_of doc in
      _ <- es_add_document add_document content embedding metadata ;;
      add_each documents'
  end.

(** [KnowledgeBase.add_documents] *)
Definition add_documents (documents : list Document) : M (S := World) unit :=
  _ <- ensure_initialized create_index ;;
  add_each documents.

(** [KnowledgeBase.search]: [reranker_model] is not read. *)
Definition search (query : string) (top_k : Z) (use_reranker : bool)
           (reranker_model : string) : M (S := World) (list SearchResult) :=
  fun w =>
    if negb (is_initialized w) then (None, w)
    else
      (query_vector <- lift (embed_query (JStr query)) ;;
       lift (hybrid_search query query_vector top_k use_reranker)) w.

(** [KnowledgeBase.ask]: the search is outside any [try]; then the
    adaptive prompt, on failure the structured chat, on failure the
    basic chat. *)
Definition ask (question : string) (top_k : Z) (use_reranker : bool)
           (reranker_model : string) : M (S := World) (AskOutput Analysis) :=
  search_results <- search question top_k use_reranker reranker_model ;;
  let sources := sources_of use_reranker search_results in
  let context := context_of search_results in
  try_except
    (let adaptive_prompt :=
       Prompts.DynamicRAGPromptGenerator.generate_context_aware_prompt question context in
     answer <- on_calls (QwenLLMClient.chat_with_custom_prompt generation_call
                                                                adaptive_prompt) ;;
     let document_analysis := analyze_document context in
     ret {| answer := JStr answer;
            sources := sources;
            search_results := search_results;
            structured_response := None;
            document_analysis := Some document_analysis;
            prompt_strategy := Some "adaptive"%string;
            answer_type := "adaptive" |})
    (let answer_type := KnowledgeBase.determine_answer_type question in
     try_except
       (structured_response <-
          on_calls (QwenLLMClient.structured_chat generation_call question context
                                                  answer_type) ;;
        parsed_response <-
          lift (QwenLLMClient.parse_structured_response recursion_limit
                                                        structured_response answer_type) ;;
        final_answer <-
          lift (get_or parsed_response "final_answer"
                       (JStr "未能从上下文中找到相关信息。")) ;;
        ret {| answer := final_answer;
               sources := sources;
               search_results := search_results;
               structured_response := Some parsed_response;
               document_analysis := None;
               prompt_strategy := None;
               answer_type := answer_type |})
       (answer <- on_calls (QwenLLMClient.chat generation_call question context) ;;
        ret {| answer := JStr answer;
               sources := sources;
               search_results := search_results;
               structured_response := None;
               document_analysis := None;
               prompt_strategy := None;
               answer_type := "fallback" |})).

End Methods.

End KnowledgeBaseMethods.

(** *** LangChainEnhancedKnowledgeBase (src/langchain_enhanced_kb.py) *)

Module LangChainEnhancedKnowledgeBase.
Import PyStr Json Results Exn Chains Documents.
Local Open Scope list_scope.

(** The dict [ask] returns. *)
Record AskOutput : Type := {
  answer : json;
  sources : list Source;
  search_results : list SearchResult;
  structured_response : json;
  prompt_strategy : option string;
  answer_type : string
}.

Section Methods.

(** The collaborators: the index, the embedding client, the vector
    store's [hybrid_search], the LangChain model, and the prompt
    templates of the RAG chain. *)
Variable recursion_limit : nat.
Variable error_text : string.
Variable create_index : nat -> option bool.
Variable add_document : nat -> json -> list Q -> json -> option json.
Variable embed_query : json -> option (list Q).
Variable hybrid_search : string -> Z -> bool -> string -> option (list SearchResult).
Variable invoke : nat -> string -> option string.
Variable name_qa_prompt : string -> string -> option string.
Variable number_qa_prompt : string -> string -> option string.
Variable boolean_qa_prompt : string -> string -> option string.
Variable names_qa_prompt : string -> string -> option string.
Variable string_qa_prompt : string -> string -> option string.

(** A chain or a call of the model, run on the record of the knowledge
    base. *)
Definition on_sent {A : Type} (m : M (S := list string) A) : M (S := World) A :=
  fun w => let (r, sent') := m (sent w) in (r, with_sent sent' w).

(** The loop of [ElasticSearchVectorStore.add_texts]: [i] is the index of
    the first of [texts], [ids] the answers collected so far. *)
Fixpoint add_texts_from (i : nat) (texts : list json) (metadatas : option (list json))
         (ids : list json) : M (S := World) (list json) :=
  match texts with
  | [] => ret ids
  | text :: texts' =>
      embedding <- lift (embed_query text) ;;
      let metadata :=
        match metadatas with
        | Some (m :: ms) =>
            match nth_error (m :: ms) i with
            | Some metadata => metadata
            | None => JObj []
            end
        | _ => JObj []
        end in
      result_id <- es_add_document add_document text embedding metadata ;;
      add_texts_from (S i) texts' metadatas (ids ++ [result_id])
  end.

(** [ElasticSearchVectorStore.add_texts] *)
Definition add_texts (texts : list json) (metadatas : option (list json))
  : M (S := World) (list json) :=
  add_texts_from 0 texts metadatas [].

(** [LangChainEnhancedKnowledgeBase.add_documents] *)
Definition add_documents (documents : list Document) : M (S := World) (list json) :=
  _ <- ensure_initialized create_index ;;
  let texts := map content_of documents in
  let metadatas := map metadata_of documents in
  add_texts texts (Some metadatas).

(** [LangChainEnhancedKnowledgeBase.search] *)
Definition search (query : string) (top_k : Z) (use_reranker : bool)
           (reranker_model : string) : M (S := World) (list SearchResult) :=
  fun w =>
    if negb (is_initialized w) then (None, w)
    else lift (hybrid_search query top_k use_reranker reranker_model) w.

(** [LangChainEnhancedKnowledgeBase.ask]: the search, too, is inside the
    [try]; the handler runs the RAG chain. *)
Definition ask (question : string) (top_k : Z) (use_reranker : bool)
           (reranker_model : string) : M (S := World) AskOutput :=
  try_except
    (search_results <- search question top_k use_reranker reranker_model ;;
     let sources := sources_of use_reranker search_results in
     let context := context_of search_results in
     let adaptive_prompt :=
       Prompts.DynamicRAGPromptGenerator.generate_context_aware_prompt question context in
     response <- on_sent (llm_invoke invoke adaptive_prompt) ;;
     let structured_response :=
       StructuredOutputParser.parse recursion_limit error_text response in
     answer <-
       lift (get_or structured_response "final_answer"
                    (JStr "未能从上下文中找到相关信息。")) ;;
     ret {| answer := answer;
            sources := sources;
            search_results := search_results;
            structured_response := structured_response;
            prompt_strategy := Some "adaptive"%string;
            answer_type := "adaptive" |})
    (result <-
       on_sent (RAGChain.call recursion_limit error_text invoke hybrid_search
                  name_qa_prompt number_qa_prompt boolean_qa_prompt names_qa_prompt
                  string_qa_prompt
                  {| RAGChain.question := Some question;
                     RAGChain.top_k := Some top_k;
                     RAGChain.use_reranker := Some use_reranker;
                     RAGChain.reranker_model := Some reranker_model |}) ;;
     ret {| answer := RAGChain.answer result;
            sources := RAGChain.sources result;
            search_results := RAGChain.search_results result;
            structured_response := RAGChain.structured_response result;
            prompt_strategy := None;
            answer_type := RAGChain.answer_type result |}).

End Methods.

End LangChainEnhancedKnowledgeBase.

(* ================================================================= *)
(** ** Notions the properties are stated with *)

(** A list is non-increasing in [key]. *)
Definition descending {A : Type} (key : A -> Q) (l : list A) : Prop :=
  StronglySorted (fun a b => (key b <= key a)%Q) l.

Section FusionNotions.
Import Results ElasticSearchClient.
Local Open Scope list_scope.

(** The ids of a list in the order in which they are first seen. *)
Definition add_id (seen : list string) (i : string) : list string :=
  if existsb (String.eqb i) seen then seen else seen ++ [i].

Definition first_seen (ids : list string) : list string := fold_left add_id ids [].

Definition seen_in (seen : list string) (i : string) : bool := existsb (String.eqb i) seen.

(** The ids of [ids] that are new with respect to [seen], each once, in
    order. *)
Fixpoint fresh (seen ids : list string) : list string :=
  match ids with
  | [] => []
  | i :: ids' =>
      if seen_in seen i then fresh seen ids' else i :: fresh (seen ++ [i]) ids'
  end.

(** The score of the last hit of a list that carries the id (the hit, when
    the ids of the list are distinct). *)
Fixpoint last_score (i : string) (hits : list Hit) : option Q :=
  match hits with
  | [] => None
  | h :: hits' =>
      match last_score i hits' with
      | Some s => Some s
      | None => if String.eqb (hit_id h) i then Some (hit_score h) else None
      end
  end.

(** Every value of [all_results] carries its own key. *)
Definition well_keyed (d : list (string * Scores)) : Prop :=
  Forall (fun kv => s_id (snd kv) = fst kv) d.

(** The hybrid score of an entry is the weighted sum of its two scores. *)
Definition weighted (w : Q) (c : SearchResult) : Prop :=
  hybrid_score c = (vector_score c * w + keyword_score c * (1 - w))%Q.

(** The example of the specification: dense hits A (0.9) and B (0.4),
    sparse hits B (0.8) and C (0.5). *)
Definition example_hit (i : string) (s : Q) : Hit :=
  {| hit_id := i; hit_score := s; hit_content := i; hit_metadata := [] |}.

Definition example_dense : list Hit := [example_hit "A" 0.9; example_hit "B" 0.4].
Definition example_sparse : list Hit := [example_hit "B" 0.8; example_hit "C" 0.5].

End FusionNotions.

Section RerankerNotions.
Import Json Results Reranker.
Local Open Scope list_scope.

(** The request a call of the Jina variant sends. *)
Definition jina_request (query : string) (documents : list string) (top_k : Z) : JinaRequest :=
  {| req_model := "jina-reranker-v2-base-multilingual";
     req_query := query;
     req_top_n := top_k;
     req_documents := documents |}.

(** The request of a call fails: it raises, the status is not 200, or
    reading the response raises. *)
Definition jina_failed (documents : list string) (o : HttpOutcome) : bool :=
  match o with
  | HttpRaised => true
  | HttpResponse status_code body =>
      negb (status_code =? 200)%Z
      || match jina_results documents body with Some _ => false | None => true end
  end.

(** The guard each variant tests before it calls its collaborator: the
    instance is not initialized, or the handle of the variant is not
    set. *)
Definition degraded (self : UniversalBGEReranker) : bool :=
  match model_type self with
  | cross_encoder => negb (_initialized self)
  | jina_api => negb (_initialized self) || negb (jina_headers self)
  | llm => negb (_initialized self) || negb (llm_client self)
  end.

(** Instances: an initialized Jina variant, an initialized LLM variant
    (openai), a CrossEncoder variant whose model did not load. *)
Definition jina_ready : UniversalBGEReranker :=
  {| model_type := jina_api; _initialized := true; jina_headers := true;
     llm_client := false; provider := dashscope |}.

Definition llm_ready : UniversalBGEReranker :=
  {| model_type := llm; _initialized := true; jina_headers := false;
     llm_client := true; provider := openai |}.

Definition cross_encoder_degraded : UniversalBGEReranker :=
  {| model_type := cross_encoder; _initialized := false; jina_headers := false;
     llm_client := false; provider := dashscope |}.

(** No call made yet. *)
Definition empty_world : World := {| posted := []; predicted := []; asked := [] |}.

(** A model and an LLM service that always raise. *)
Definition no_predict : nat -> list (string * string) -> option (list Q) :=
  fun _ _ => None.
Definition no_chat : nat -> Provider -> string -> list string -> option LlmReply :=
  fun _ _ _ _ => None.

(** An endpoint that answers every request with status 200 and [body]. *)
Definition always_200 (body : json) : nat -> JinaRequest -> HttpOutcome :=
  fun _ _ => HttpResponse 200 (Some body).

(** An endpoint whose first answer is status 503 and whose later answers
    are status 200 with [body]. *)
Definition down_then_up (body : json) : nat -> JinaRequest -> HttpOutcome :=
  fun n _ => match n with
             | O => HttpResponse 503 None
             | S _ => HttpResponse 200 (Some body)
             end.

(** A body that lists one entry, for the document at index 1. *)
Definition one_entry_body : json :=
  JObj [("results", JArr [JObj [("index", JInt 1); ("relevance_score", JFloat 0.9)]])].

End RerankerNotions.

Section DecoderNotions.
Import Json.

(** A step that ends with fuel left consumed some text. *)
Definition progress (s : string) (r : decode json) : Prop :=
  match r with
  | Decoded _ rest => String.length rest < String.length s
  | OutOfFuel => False
  | _ => True
  end.

(** The text after a value: a comma, or the bracket or brace that closes
    the container. *)
Definition after_value (rest : string) : bool :=
  match rest with
  | EmptyString => false
  | String c _ => Ascii.eqb c "," || Ascii.eqb c "]" || Ascii.eqb c "}"
  end.

(** A numeral without a leading zero, or the numeral zero. *)
Definition canonical (u : Decimal.uint) : Prop :=
  u = Decimal.D0 Decimal.Nil \/ (u <> Decimal.Nil /\ forall u', u <> Decimal.D0 u').

(** Every character of a text satisfies [p]. *)
Fixpoint all_chars (p : ascii -> bool) (s : string) : bool :=
  match s with
  | EmptyString => true
  | String c s' => p c && all_chars p s'
  end.

Definition not_newline (c : ascii) : bool := negb (Ascii.eqb c "010").

End DecoderNotions.

Section ParserNotions.
Import PyStr Json StructuredAnswer StructuredOutputParser.

(** The number of names of a final answer that is a list. *)
Definition names_length (a : FinalAnswer) : nat :=
  match a with
  | AnswerNames names => length names
  | _ => 0
  end.

(** The reply of the example: a json code fence around an object with
    the one key [final_answer]. *)
Definition fenced_reply : string :=
  "```json" ++ nl ++ "{" ++ quoted "final_answer" ++ ":" ++ quoted "42" ++ "}" ++ nl ++ "```".

(** The same object without the fence. *)
Definition bare_reply : string :=
  "{" ++ quoted "final_answer" ++ ":" ++ quoted "42" ++ "}".

(** The value under a key of a parsed reply. *)
Definition field (k : string) (v : json) : option json :=
  match v with
  | JObj d => PyDict.get k d
  | _ => None
  end.

(** An answer whose texts hold a newline, a code fence, quotes and a
    backslash. *)
Definition example_answer : StructuredAnswer.t :=
  {| step_by_step_analysis := "1. read" ++ nl ++ "2. ``` compare " ++ dq ++ "a" ++ dq;
     reasoning_summary := "page 58 \ page 60";
     relevant_pages := [58; 60]%Z;
     final_answer := AnswerNames ["Zhang San"; "Li Si"] |}.

End ParserNotions.

Section MoreRerankerNotions.
Import Json Results Reranker.
Local Open Scope list_scope.

(** A reranked result is a copy of the search result its
    [original_position] names: the same id, content, metadata and scores;
    a [rerank_score] and a [rerank_position] were added. *)
Definition copy_of (search_results : list SearchResult) (r : SearchResult) : Prop :=
  exists (original_idx : Z) (original : SearchResult),
    original_position r = Some (original_idx + 1)%Z
    /\ PyList.index search_results original_idx = Some original
    /\ id r = id original
    /\ content r = content original
    /\ metadata r = metadata original
    /\ hybrid_score r = hybrid_score original
    /\ vector_score r = vector_score original
    /\ keyword_score r = keyword_score original.

(** An outcome that points at a place of the list. *)
Definition points_inside (n : nat) (r : Ranked) : Prop :=
  exists i : nat, index r = JInt (Z.of_nat i) /\ (i < n)%nat.

End MoreRerankerNotions.

Section MoreParserNotions.
Import PyStr Json StructuredOutputParser.
Local Open Scope list_scope.

(** The type the answer schema gives a key: a list for [relevant_pages],
    a text for the three other keys. *)
Definition schema_typed (k : string) (v : json) : Prop :=
  if String.eqb k "relevant_pages" then exists l, v = JArr l else exists s, v = JStr s.

(** Every value of a dict has the type of its key. *)
Definition typed_dict (d : list (string * json)) : Prop :=
  Forall (fun kv => schema_typed (fst kv) (snd kv)) d.

(** A line without a newline and without a backtick: it is neither an
    opening nor a closing code fence. *)
Definition plain_char (c : ascii) : bool := not_newline c && negb (Ascii.eqb c "`").

Definition plain_line (line : string) : bool := all_chars plain_char line.

(** A reply with one json code fence: the lines before it, the opening
    fence, the lines inside, the closing fence, the lines after it. *)
Definition fenced (before inside after : list string) : string :=
  join nl (before ++ ["```json"%string] ++ inside ++ ["```"%string] ++ after).

(** A character of plain prose: not a double quote, an opening bracket,
    an opening brace or a backtick. *)
Definition prose_char (c : ascii) : bool :=
  negb (Ascii.eqb c "034" || Ascii.eqb c "[" || Ascii.eqb c "{" || Ascii.eqb c "`").

(** The structure [parse] returns when nothing of a reply could be read. *)
Definition unreadable (processed_text : string) : json :=
  JObj [ ("step_by_step_analysis",
          JStr ("无法解析响应格式，原始内容: " ++ slice 0 200 processed_text ++ "..."));
         ("reasoning_summary", JStr "响应格式异常");
         ("relevant_pages", JArr []);
         ("final_answer", JStr processed_text) ].

End MoreParserNotions.

Section MoreSearchNotions.
Import Results.
Local Open Scope list_scope.

(** A result carries a candidate: the same id, content, metadata and
    scores. *)
Definition carries (c r : SearchResult) : Prop :=
  id r = id c
  /\ content r = content c
  /\ metadata r = metadata c
  /\ hybrid_score r = hybrid_score c
  /\ vector_score r = vector_score c
  /\ keyword_score r = keyword_score c.

End MoreSearchNotions.

Section ExampleNotions.
Import PyStr Json Results Reranker StructuredOutputParser.
Local Open Scope list_scope.

(** Instances: a CrossEncoder variant with its model loaded, an LLM
    variant with the dashscope provider. *)
Definition cross_encoder_ready : UniversalBGEReranker :=
  {| model_type := cross_encoder; _initialized := true; jina_headers := false;
     llm_client := false; provider := dashscope |}.

Definition llm_dashscope : UniversalBGEReranker :=
  {| model_type := llm; _initialized := true; jina_headers := false;
     llm_client := true; provider := dashscope |}.

(** A model that scores three documents 0.2, 0.9 and 0.5. *)
Definition three_scores : nat -> list (string * string) -> option (list Q) :=
  fun _ _ => Some [0.2; 0.9; 0.5]%Q.

(** A service that answers with a message, and one that answers with two
    rankings. *)
Definition chat_message : nat -> Provider -> string -> list string -> option LlmReply :=
  fun _ _ _ _ => Some (MessageContent "ok").

Definition chat_rankings : nat -> Provider -> string -> list string -> option LlmReply :=
  fun _ _ _ _ => Some (BlockRankings [0.1; 0.8]%Q).

(** An endpoint that always raises. *)
Definition no_post : nat -> JinaRequest -> HttpOutcome := fun _ _ => HttpRaised.

(** A fused candidate. *)
Definition example_candidate (i : string) (s : Q) : SearchResult :=
  {| id := i; content := i; metadata := [];
     hybrid_score := s; vector_score := s; keyword_score := 0;
     Results.rerank_score := None; rerank_position := None; original_position := None |}.

(** A reply in prose, and a reply with a code fence between two lines of
    prose. *)
Definition prose_reply : string := "The answer is 42.".

Definition fence_body : list string :=
  [ "{"%string; ("  " ++ quoted "final_answer" ++ ": 42")%string; "}"%string ].

End ExampleNotions.

(* ================================================================= *)
(** * Properties *)

(** ** Lists: the descending stable sort *)

Section SortFacts.
Local Open Scope list_scope.
Context {A : Type}.
Variable key : A -> Q.

Lemma insert_desc_perm (x : A) (l : list A) :
  Permutation (PyList.insert_desc key x l) (x :: l).
Proof.
  induction l as [|y l IH]; simpl.
  - apply Permutation_refl.
  - destruct (Qle_bool (key y) (key x)).
    + apply Permutation_refl.
    + eapply Permutation_trans; [apply perm_skip, IH | apply perm_swap].
Qed.

Lemma sort_desc_perm (l : list A) : Permutation (PyList.sort_desc key l) l.
Proof.
  induction l as [|x l IH]; simpl.
  - constructor.
  - eapply Permutation_trans; [apply insert_desc_perm | now apply perm_skip].
Qed.

Lemma Qle_bool_false_lt (a b : Q) : Qle_bool a b = false -> (b < a)%Q.
Proof.
  intros H. apply Qnot_le_lt. intros Hle.
  apply Qle_bool_iff in Hle. congruence.
Qed.

Lemma insert_desc_sorted (x : A) (l : list A) :
  descending key l -> descending key (PyList.insert_desc key x l).
Proof.
  unfold descending. induction l as [|y l IH]; simpl; intros Hs.
  - constructor; constructor.
  - inversion Hs as [|? ? Hl Hy]; subst.
    destruct (Qle_bool (key y) (key x)) eqn:E.
    + constructor; [assumption|].
      apply Qle_bool_iff in E.
      constructor; [assumption|].
      rewrite Forall_forall in Hy |- *. intros z Hz.
      eapply Qle_trans; [apply Hy, Hz | exact E].
    + constructor; [now apply IH|].
      apply Qle_bool_false_lt in E.
      rewrite Forall_forall in Hy |- *. intros z Hz.
      apply (Permutation_in _ (insert_desc_perm x l)) in Hz.
      destruct Hz as [<-|Hz]; [now apply Qlt_le_weak | now apply Hy].
Qed.

Lemma sort_desc_sorted (l : list A) : descending key (PyList.sort_desc key l).
Proof.
  induction l as [|x l IH]; simpl.
  - constructor.
  - now apply insert_desc_sorted.
Qed.

(** Stability: the elements of one key class keep their order. *)
Lemma insert_desc_stable (v : Q) (x : A) (l : list A) :
  filter (fun a => Qeq_bool (key a) v) (PyList.insert_desc key x l)
  = filter (fun a => Qeq_bool (key a) v) (x :: l).
Proof.
  induction l as [|y l IH]; simpl; [reflexivity|].
  destruct (Qle_bool (key y) (key x)) eqn:E; simpl; [reflexivity|].
  simpl in IH. rewrite IH.
  destruct (Qeq_bool (key x) v) eqn:Ex; [|reflexivity].
  destruct (Qeq_bool (key y) v) eqn:Ey; [|reflexivity].
  exfalso. apply Qle_bool_false_lt in E.
  apply Qeq_bool_iff in Ex. apply Qeq_bool_iff in Ey.
  rewrite Ex, Ey in E. exact (Qlt_irrefl _ E).
Qed.

Lemma sort_desc_stable (v : Q) (l : list A) :
  filter (fun a => Qeq_bool (key a) v) (PyList.sort_desc key l)
  = filter (fun a => Qeq_bool (key a) v) l.
Proof.
  induction l as [|x l IH]; simpl; [reflexivity|].
  rewrite insert_desc_stable. simpl. now rewrite IH.
Qed.

Lemma sort_desc_length (l : list A) : length (PyList.sort_desc key l) = length l.
Proof. apply Permutation_length, sort_desc_perm. Qed.

Lemma sort_desc_Forall (P : A -> Prop) (l : list A) :
  Forall P l -> Forall P (PyList.sort_desc key l).
Proof.
  intros H. eapply Permutation_Forall; [|exact H].
  apply Permutation_sym, sort_desc_perm.
Qed.

(** A list all of whose keys are equal is left as it is. *)
Lemma sort_desc_constant (l : list A) (v : Q) :
  Forall (fun a => (key a == v)%Q) l -> PyList.sort_desc key l = l.
Proof.
  intros H.
  assert (E : forall l', Forall (fun a => (key a == v)%Q) l' ->
                         filter (fun a => Qeq_bool (key a) v) l' = l').
  { induction l' as [|a l' IH]; simpl; intros Hl; [reflexivity|].
    inversion Hl; subst.
    replace (Qeq_bool (key a) v) with true
      by (symmetry; now apply Qeq_bool_iff).
    now rewrite IH. }
  rewrite <- (E _ (sort_desc_Forall _ _ H)).
  rewrite sort_desc_stable. now apply E.
Qed.

End SortFacts.

Section TakeFacts.
Local Open Scope list_scope.
Context {A : Type}.

Lemma take_length (k : Z) (l : list A) :
  (0 <= k)%Z -> Z.of_nat (length (PyList.take k l)) = Z.min k (Z.of_nat (length l)).
Proof.
  intros Hk. unfold PyList.take.
  destruct (Z.leb_spec 0 k); [|lia].
  rewrite length_firstn. lia.
Qed.

Lemma firstn_In (n : nat) (l : list A) (x : A) : In x (firstn n l) -> In x l.
Proof.
  intros H. rewrite <- (firstn_skipn n l). apply in_or_app. now left.
Qed.

Lemma take_incl (k : Z) (l : list A) (x : A) : In x (PyList.take k l) -> In x l.
Proof.
  unfold PyList.take. destruct (0 <=? k)%Z; apply firstn_In.
Qed.

Lemma take_Forall (P : A -> Prop) (k : Z) (l : list A) :
  Forall P l -> Forall P (PyList.take k l).
Proof.
  rewrite !Forall_forall. intros H x Hx. apply H. eapply take_incl, Hx.
Qed.

Lemma firstn_StronglySorted (R : A -> A -> Prop) (n : nat) (l : list A) :
  StronglySorted R l -> StronglySorted R (firstn n l).
Proof.
  revert n. induction l as [|x l IH]; intros [|n] Hs; simpl; try constructor.
  - inversion Hs; subst. now apply IH.
  - inversion Hs as [|? ? _ Hx]; subst.
    rewrite Forall_forall in Hx |- *. intros y Hy. apply Hx.
    eapply firstn_In, Hy.
Qed.

Lemma take_StronglySorted (R : A -> A -> Prop) (k : Z) (l : list A) :
  StronglySorted R l -> StronglySorted R (PyList.take k l).
Proof.
  unfold PyList.take. destruct (0 <=? k)%Z; apply firstn_StronglySorted.
Qed.

Lemma enumerate_from_length (start : nat) (l : list A) :
  length (PyList.enumerate_from start l) = length l.
Proof.
  revert start. induction l; simpl; intros; [reflexivity | now rewrite IHl].
Qed.

Lemma enumerate_from_snd (start : nat) (l : list A) :
  map snd (PyList.enumerate_from start l) = l.
Proof.
  revert start. induction l; simpl; intros; [reflexivity | now rewrite IHl].
Qed.

Lemma enumerate_from_fst (start : nat) (l : list A) :
  map fst (PyList.enumerate_from start l) = seq start (length l).
Proof.
  revert start. induction l; simpl; intros; [reflexivity | now rewrite IHl].
Qed.

End TakeFacts.

(** ** Dictionaries *)

Section DictFacts.
Local Open Scope list_scope.
Context {V : Type}.

Lemma has_existsb (k : string) (d : list (string * V)) :
  PyDict.has k d = existsb (String.eqb k) (PyDict.keys d).
Proof.
  induction d as [|[k' v'] d IH]; simpl; [reflexivity | now rewrite IH].
Qed.

Lemma has_In (k : string) (d : list (string * V)) :
  PyDict.has k d = true <-> In k (PyDict.keys d).
Proof.
  rewrite has_existsb, existsb_exists. split.
  - intros (x & Hx & E). apply String.eqb_eq in E. now subst.
  - intros H. exists k. split; [assumption | apply String.eqb_refl].
Qed.

Lemma has_get (k : string) (d : list (string * V)) :
  PyDict.has k d = match PyDict.get k d with Some _ => true | None => false end.
Proof.
  induction d as [|[k' v'] d IH]; simpl; [reflexivity|].
  destruct (String.eqb k k'); simpl; [reflexivity | exact IH].
Qed.

Lemma keys_set (k : string) (v : V) (d : list (string * V)) :
  PyDict.keys (PyDict.set k v d)
  = if PyDict.has k d then PyDict.keys d else PyDict.keys d ++ [k].
Proof.
  unfold PyDict.keys.
  induction d as [|[k' v'] d IH]; simpl; [reflexivity|].
  destruct (String.eqb k k') eqn:E; simpl; [reflexivity|].
  rewrite IH. destruct (PyDict.has k d); reflexivity.
Qed.

Lemma keys_update (k : string) (f : V -> V) (d : list (string * V)) :
  PyDict.keys (PyDict.update k f d) = PyDict.keys d.
Proof.
  unfold PyDict.keys.
  induction d as [|[k' v'] d IH]; simpl; [reflexivity|].
  destruct (String.eqb k k'); simpl; [reflexivity|].
  now rewrite IH.
Qed.

Lemma get_set_same (k : string) (v : V) (d : list (string * V)) :
  PyDict.get k (PyDict.set k v d) = Some v.
Proof.
  induction d as [|[k' v'] d IH]; simpl.
  - now rewrite String.eqb_refl.
  - destruct (String.eqb k k') eqn:E; simpl; rewrite E; [reflexivity | exact IH].
Qed.

Lemma get_set_other (k k0 : string) (v : V) (d : list (string * V)) :
  k <> k0 -> PyDict.get k (PyDict.set k0 v d) = PyDict.get k d.
Proof.
  intros Hne. induction d as [|[k' v'] d IH]; simpl.
  - apply String.eqb_neq in Hne. now rewrite Hne.
  - destruct (String.eqb k0 k') eqn:E; simpl.
    + apply String.eqb_eq in E. subst k'.
      apply String.eqb_neq in Hne. now rewrite Hne.
    + now rewrite IH.
Qed.

Lemma get_update_same (k : string) (f : V -> V) (d : list (string * V)) :
  PyDict.get k (PyDict.update k f d) = option_map f (PyDict.get k d).
Proof.
  induction d as [|[k' v'] d IH]; simpl; [reflexivity|].
  destruct (String.eqb k k') eqn:E; simpl; rewrite E; [reflexivity | exact IH].
Qed.

Lemma get_update_other (k k0 : string) (f : V -> V) (d : list (string * V)) :
  k <> k0 -> PyDict.get k (PyDict.update k0 f d) = PyDict.get k d.
Proof.
  intros Hne. induction d as [|[k' v'] d IH]; simpl; [reflexivity|].
  destruct (String.eqb k0 k') eqn:E; simpl.
  - apply String.eqb_eq in E. subst k'.
    apply String.eqb_neq in Hne. now rewrite Hne.
  - now rewrite IH.
Qed.

End DictFacts.

(** ** Fusion *)

Section FusionFacts.
Import Results ElasticSearchClient.
Local Open Scope list_scope.

Lemma well_keyed_set (k : string) (v : Scores) (d : list (string * Scores)) :
  well_keyed d -> s_id v = k -> well_keyed (PyDict.set k v d).
Proof.
  unfold well_keyed. intros Hd Hv.
  induction d as [|[k' v'] d IH]; simpl.
  - constructor; [exact Hv | constructor].
  - inversion Hd as [|? ? Hk Hd']. destruct (String.eqb k k') eqn:E.
    + apply String.eqb_eq in E. constructor; [simpl; congruence | assumption].
    + constructor; [assumption | now apply IH].
Qed.

Lemma well_keyed_update (k : string) (f : Scores -> Scores) (d : list (string * Scores)) :
  well_keyed d -> (forall v, s_id (f v) = s_id v) -> well_keyed (PyDict.update k f d).
Proof.
  unfold well_keyed. intros Hd Hf.
  induction d as [|[k' v'] d IH]; simpl; [constructor|].
  inversion Hd as [|? ? Hk Hd']. destruct (String.eqb k k').
  - constructor; [simpl in *; now rewrite Hf | assumption].
  - constructor; [assumption | now apply IH].
Qed.

Lemma add_vector_result_keys (acc : list (string * Scores)) (h : Hit) :
  PyDict.keys (add_vector_result acc h) = add_id (PyDict.keys acc) (hit_id h).
Proof.
  unfold add_vector_result, add_id. now rewrite keys_set, has_existsb.
Qed.

Lemma add_keyword_result_keys (acc : list (string * Scores)) (h : Hit) :
  PyDict.keys (add_keyword_result acc h) = add_id (PyDict.keys acc) (hit_id h).
Proof.
  unfold add_keyword_result, add_id. rewrite <- has_existsb.
  destruct (PyDict.has (hit_id h) acc) eqn:E; simpl.
  - apply keys_update.
  - now rewrite keys_set, E.
Qed.

Lemma fold_vector_keys (hits : list Hit) (acc : list (string * Scores)) :
  PyDict.keys (fold_left add_vector_result hits acc)
  = fold_left add_id (map hit_id hits) (PyDict.keys acc).
Proof.
  revert acc. induction hits as [|h hits IH]; intros acc; simpl; [reflexivity|].
  now rewrite IH, add_vector_result_keys.
Qed.

Lemma fold_keyword_keys (hits : list Hit) (acc : list (string * Scores)) :
  PyDict.keys (fold_left add_keyword_result hits acc)
  = fold_left add_id (map hit_id hits) (PyDict.keys acc).
Proof.
  revert acc. induction hits as [|h hits IH]; intros acc; simpl; [reflexivity|].
  now rewrite IH, add_keyword_result_keys.
Qed.

Lemma merge_keys (vector_results keyword_results : list Hit) :
  PyDict.keys (merge vector_results keyword_results)
  = first_seen (map hit_id vector_results ++ map hit_id keyword_results).
Proof.
  unfold merge, first_seen.
  now rewrite fold_keyword_keys, fold_vector_keys, fold_left_app.
Qed.

Lemma add_id_NoDup (seen : list string) (i : string) :
  NoDup seen -> NoDup (add_id seen i).
Proof.
  intros H. unfold add_id. destruct (existsb (String.eqb i) seen) eqn:E; [assumption|].
  apply NoDup_app; [assumption | repeat constructor; intros [] | ].
  intros x Hx [Hi|[]]. subst x.
  assert (existsb (String.eqb i) seen = true)
    by (apply existsb_exists; exists i; split; [assumption | apply String.eqb_refl]).
  congruence.
Qed.

Lemma first_seen_NoDup (ids : list string) : NoDup (first_seen ids).
Proof.
  unfold first_seen.
  assert (G : forall seen, NoDup seen -> NoDup (fold_left add_id ids seen)).
  { induction ids as [|i ids IH]; simpl; intros seen H; [assumption|].
    apply IH, add_id_NoDup, H. }
  apply G. constructor.
Qed.

Lemma fold_vector_well_keyed (hits : list Hit) (acc : list (string * Scores)) :
  well_keyed acc -> well_keyed (fold_left add_vector_result hits acc).
Proof.
  revert acc. induction hits as [|h hits IH]; intros acc H; simpl; [assumption|].
  apply IH. unfold add_vector_result. now apply well_keyed_set.
Qed.

Lemma fold_keyword_well_keyed (hits : list Hit) (acc : list (string * Scores)) :
  well_keyed acc -> well_keyed (fold_left add_keyword_result hits acc).
Proof.
  revert acc. induction hits as [|h hits IH]; intros acc H; simpl; [assumption|].
  apply IH. unfold add_keyword_result.
  destruct (PyDict.has (hit_id h) acc); simpl.
  - now apply well_keyed_update.
  - now apply well_keyed_set.
Qed.

Lemma merge_well_keyed (vector_results keyword_results : list Hit) :
  well_keyed (merge vector_results keyword_results).
Proof.
  apply fold_keyword_well_keyed, fold_vector_well_keyed. constructor.
Qed.

Lemma unsorted_ids (vector_results keyword_results : list Hit) (w : Q) :
  map id (unsorted_results vector_results keyword_results w)
  = first_seen (map hit_id vector_results ++ map hit_id keyword_results).
Proof.
  rewrite <- merge_keys. unfold unsorted_results, PyDict.keys.
  rewrite map_map. apply map_ext_Forall.
  generalize (merge_well_keyed vector_results keyword_results).
  unfold well_keyed. apply Forall_impl. intros [k v]. simpl. auto.
Qed.

(** The entry of an id after the loop over the dense hits. *)
Lemma fold_vector_get_absent (i : string) (hits : list Hit) (acc : list (string * Scores)) :
  last_score i hits = None ->
  PyDict.get i (fold_left add_vector_result hits acc) = PyDict.get i acc.
Proof.
  revert acc. induction hits as [|h hits IH]; intros acc Hl; simpl in *; [reflexivity|].
  destruct (last_score i hits); [discriminate|].
  destruct (String.eqb (hit_id h) i) eqn:E; [discriminate|].
  rewrite IH by reflexivity. unfold add_vector_result.
  apply get_set_other. apply String.eqb_neq in E. congruence.
Qed.

Lemma fold_vector_get (i : string) (vs : Q) (hits : list Hit) (acc : list (string * Scores)) :
  last_score i hits = Some vs ->
  exists e, PyDict.get i (fold_left add_vector_result hits acc) = Some e
            /\ s_vector_score e = vs /\ s_keyword_score e = 0%Q.
Proof.
  revert acc. induction hits as [|h hits IH]; intros acc Hl; simpl in *; [discriminate|].
  destruct (last_score i hits) as [s|] eqn:El.
  - apply IH. assumption.
  - destruct (String.eqb (hit_id h) i) eqn:E; [|discriminate].
    injection Hl as <-. apply String.eqb_eq in E.
    rewrite fold_vector_get_absent by assumption.
    unfold add_vector_result. rewrite E, get_set_same.
    eexists. split; [reflexivity | split; reflexivity].
Qed.

(** The entry of an id that is present, after the loop over the sparse
    hits. *)
Lemma fold_keyword_get (i : string) (hits : list Hit) :
  forall (acc : list (string * Scores)) (e : Scores),
  PyDict.get i acc = Some e ->
  exists e', PyDict.get i (fold_left add_keyword_result hits acc) = Some e'
             /\ s_vector_score e' = s_vector_score e
             /\ s_keyword_score e'
                = match last_score i hits with
                  | Some k => k
                  | None => s_keyword_score e
                  end.
Proof.
  induction hits as [|h hits IH]; intros acc e Hg; simpl.
  - exists e. auto.
  - destruct (String.eqb (hit_id h) i) eqn:E.
    + apply String.eqb_eq in E.
      assert (Hh : PyDict.has (hit_id h) acc = true) by (now rewrite has_get, E, Hg).
      unfold add_keyword_result at 2. rewrite Hh. simpl.
      edestruct (IH (PyDict.update (hit_id h)
                       (fun scores =>
                          {| s_id := s_id scores;
                             s_content := s_content scores;
                             s_metadata := s_metadata scores;
                             s_vector_score := s_vector_score scores;
                             s_keyword_score := hit_score h |}) acc))
        as (e' & He' & Hv & Hk).
      { rewrite E, get_update_same, Hg. reflexivity. }
      exists e'. split; [exact He' | split; [exact Hv|]].
      rewrite Hk. simpl. destruct (last_score i hits); reflexivity.
    + assert (Hne : i <> hit_id h) by (apply String.eqb_neq in E; congruence).
      edestruct (IH (add_keyword_result acc h) e) as (e' & He' & Hv & Hk).
      { unfold add_keyword_result. destruct (PyDict.has (hit_id h) acc); simpl.
        - now rewrite get_update_other.
        - now rewrite get_set_other. }
      exists e'. split; [exact He' | split; [exact Hv|]].
      rewrite Hk. destruct (last_score i hits); reflexivity.
Qed.

Lemma filter_absent (w : Q) (i : string) (d : list (string * Scores)) :
  well_keyed d -> ~ In i (PyDict.keys d) ->
  filter (fun c => String.eqb (id c) i) (map (scored w) d) = [].
Proof.
  unfold well_keyed. induction d as [|[k v] d IH]; simpl; intros Hw Hn; [reflexivity|].
  inversion Hw; subst. simpl in *.
  destruct (String.eqb (s_id v) i) eqn:E.
  - apply String.eqb_eq in E. exfalso. apply Hn. left. congruence.
  - apply IH; [assumption | intros Hi; apply Hn; now right].
Qed.

Lemma filter_present (w : Q) (i : string) (e : Scores) (d : list (string * Scores)) :
  well_keyed d -> NoDup (PyDict.keys d) -> PyDict.get i d = Some e ->
  filter (fun c => String.eqb (id c) i) (map (scored w) d) = [scored w (i, e)].
Proof.
  unfold well_keyed. induction d as [|[k v] d IH]; simpl; intros Hw Hn Hg; [discriminate|].
  inversion Hw; subst. inversion Hn; subst. simpl in *.
  destruct (String.eqb i k) eqn:E.
  - apply String.eqb_eq in E. subst k. injection Hg as ->.
    replace (String.eqb (s_id e) i) with true
      by (symmetry; apply String.eqb_eq; assumption).
    f_equal. now apply filter_absent.
  - replace (String.eqb (s_id v) i) with false.
    + now apply IH.
    + symmetry. rewrite String.eqb_sym. congruence.
Qed.

Lemma Permutation_filter {A : Type} (p : A -> bool) (l l' : list A) :
  Permutation l l' -> Permutation (filter p l) (filter p l').
Proof.
  induction 1; simpl.
  - constructor.
  - destruct (p x); [now constructor | assumption].
  - destruct (p x), (p y); try apply Permutation_refl. apply perm_swap.
  - eapply Permutation_trans; eassumption.
Qed.

Lemma merge_NoDup (vector_results keyword_results : list Hit) :
  NoDup (PyDict.keys (merge vector_results keyword_results)).
Proof. rewrite merge_keys. apply first_seen_NoDup. Qed.

Lemma pre_rerank_ids_NoDup (vector_results keyword_results : list Hit) (w : Q) :
  NoDup (map id (pre_rerank_results vector_results keyword_results w)).
Proof.
  unfold pre_rerank_results.
  eapply Permutation_NoDup.
  - apply Permutation_map, Permutation_sym, sort_desc_perm.
  - rewrite unsorted_ids. apply first_seen_NoDup.
Qed.

Lemma unsorted_weighted (vector_results keyword_results : list Hit) (w : Q) :
  Forall (weighted w) (unsorted_results vector_results keyword_results w).
Proof.
  unfold unsorted_results. apply Forall_map, Forall_forall.
  intros [k v] _. reflexivity.
Qed.

Lemma pre_rerank_weighted (vector_results keyword_results : list Hit) (w : Q) :
  Forall (weighted w) (pre_rerank_results vector_results keyword_results w).
Proof. apply sort_desc_Forall, unsorted_weighted. Qed.

Lemma firstn_NoDup {A : Type} (n : nat) (l : list A) : NoDup l -> NoDup (firstn n l).
Proof.
  intros H. rewrite <- (firstn_skipn n l) in H. now apply NoDup_app_remove_r in H.
Qed.

Lemma take_ids_NoDup (k : Z) (l : list SearchResult) :
  NoDup (map id l) -> NoDup (map id (PyList.take k l)).
Proof.
  unfold PyList.take. destruct (0 <=? k)%Z; rewrite <- firstn_map; apply firstn_NoDup.
Qed.

End FusionFacts.

Section HybridSearchFacts.
Import Results ElasticSearchClient.
Local Open Scope list_scope.

Lemma index_In {A : Type} (l : list A) (i : Z) (a : A) :
  PyList.index l i = Some a -> In a l.
Proof.
  unfold PyList.index.
  destruct (0 <=? i)%Z; [apply nth_error_In|].
  destruct (- Z.of_nat (length l) <=? i)%Z; [apply nth_error_In | discriminate].
Qed.

Lemma py_getitem_In {A : Type} (l : list A) (x : Json.json) (a : A) :
  Reranker.py_getitem l x = Some a -> In a l.
Proof.
  destruct x; simpl; try discriminate; apply index_In.
Qed.

(** [rerank_search_results] copies the entries it is given: whatever holds
    of the three scores of every entry holds of its results. *)
Lemma assemble_scores (P : Q -> Q -> Q -> Prop) (search_results : list SearchResult) :
  Forall (fun c => P (hybrid_score c) (vector_score c) (keyword_score c)) search_results ->
  forall reranked acc out,
  Forall (fun c => P (hybrid_score c) (vector_score c) (keyword_score c)) acc ->
  Reranker.assemble search_results reranked acc = Some out ->
  Forall (fun c => P (hybrid_score c) (vector_score c) (keyword_score c)) out.
Proof.
  intros Hs. induction reranked as [|r reranked IH]; intros acc out Hacc; simpl.
  - now intros [= <-].
  - destruct (Reranker.py_getitem search_results (Reranker.index r)) as [o|] eqn:E;
      [|discriminate].
    apply py_getitem_In in E. rewrite Forall_forall in Hs. specialize (Hs _ E).
    destruct (Reranker.index r); try discriminate;
      apply IH; apply Forall_app; (split; [assumption | repeat constructor; exact Hs]).
Qed.

Variable post : nat -> Reranker.JinaRequest -> Reranker.HttpOutcome.
Variable predict : nat -> list (string * string) -> option (list Q).
Variable chat : nat -> Reranker.Provider -> string -> list string -> option Reranker.LlmReply.

Lemma hybrid_search_without_reranker vector_results keyword_results query_text top_k w
      reranker world :
  hybrid_search post predict chat vector_results keyword_results query_text top_k w
                false reranker world
  = (PyList.take top_k (pre_rerank_results vector_results keyword_results w), world).
Proof. reflexivity. Qed.

Lemma hybrid_search_weighted vector_results keyword_results query_text top_k w
      use_reranker reranker world :
  Forall (weighted w)
         (fst (hybrid_search post predict chat vector_results keyword_results query_text
                             top_k w use_reranker reranker world)).
Proof.
  pose proof (pre_rerank_weighted vector_results keyword_results w) as Hpre.
  assert (Hfinal : Forall (weighted w)
            (PyList.take top_k (pre_rerank_results vector_results keyword_results w)))
    by now apply take_Forall.
  unfold hybrid_search.
  destruct use_reranker; [|exact Hfinal].
  destruct reranker as [r|]; [|exact Hfinal].
  destruct (Reranker._initialized r); [|exact Hfinal].
  destruct (Reranker.rerank_search_results _ _ _ _ _ _ _ _) as [[out|] w'] eqn:E;
    [|exact Hfinal].
  simpl. apply take_Forall, sort_desc_Forall.
  unfold Reranker.rerank_search_results in E.
  destruct (pre_rerank_results vector_results keyword_results w) as [|c pre] eqn:Ep.
  - injection E as <- _. constructor.
  - destruct (Reranker.rerank _ _ _ _ _ _ _ _) as [reranked w''].
    injection E as E _.
    eapply (assemble_scores (fun h v k => h = (v * w + k * (1 - w))%Q)); 
      [exact Hpre | constructor | exact E].
Qed.

End HybridSearchFacts.

Section FirstSeenFacts.
Local Open Scope list_scope.

Lemma fold_add_id_fresh (ids seen : list string) :
  fold_left add_id ids seen = seen ++ fresh seen ids.
Proof.
  revert seen. induction ids as [|i ids IH]; intros seen; simpl.
  - now rewrite List.app_nil_r.
  - rewrite IH. unfold add_id, seen_in.
    destruct (existsb (String.eqb i) seen); [reflexivity|].
    now rewrite <- List.app_assoc.
Qed.

Lemma seen_in_app (s1 s2 : list string) (i : string) :
  seen_in (s1 ++ s2) i = seen_in s1 i || seen_in s2 i.
Proof. unfold seen_in. apply existsb_app. Qed.

Lemma fresh_ext (ids s s' : list string) :
  (forall i, seen_in s i = seen_in s' i) -> fresh s ids = fresh s' ids.
Proof.
  revert s s'. induction ids as [|i ids IH]; intros s s' H; simpl; [reflexivity|].
  rewrite <- (H i). destruct (seen_in s i); [now apply IH|].
  f_equal. apply IH. intros j. rewrite !seen_in_app. now rewrite H.
Qed.

Lemma fresh_app (ids s1 s2 : list string) :
  fresh (s1 ++ s2) ids = filter (fun i => negb (seen_in s1 i)) (fresh s2 ids).
Proof.
  revert s2. induction ids as [|i ids IH]; intros s2; simpl; [reflexivity|].
  rewrite seen_in_app.
  destruct (seen_in s2 i) eqn:E2.
  - rewrite orb_true_r. apply IH.
  - rewrite orb_false_r. simpl. destruct (seen_in s1 i) eqn:E1; simpl.
    + rewrite <- IH. apply fresh_ext. intros j. rewrite !seen_in_app.
      unfold seen_in at 5. simpl.
      destruct (String.eqb j i) eqn:Ej; simpl.
      * apply String.eqb_eq in Ej. subst j. rewrite E1. reflexivity.
      * now rewrite !orb_false_r.
    + f_equal. rewrite <- IH. now rewrite List.app_assoc.
Qed.

(** Ids first seen in the first list come first, then the ids that only
    the second list has. *)
Lemma first_seen_app (a b : list string) :
  first_seen (a ++ b)
  = first_seen a ++ filter (fun i => negb (seen_in (first_seen a) i)) (first_seen b).
Proof.
  unfold first_seen. rewrite fold_left_app.
  rewrite (fold_add_id_fresh b). f_equal.
  rewrite (fold_add_id_fresh b []). simpl.
  rewrite <- fresh_app. now rewrite List.app_nil_r.
Qed.

End FirstSeenFacts.

(** ** The claims on [hybrid_search] *)

Section FusionClaims.
Import Results ElasticSearchClient.
Local Open Scope list_scope.





End FusionClaims.

(** ** The reranker *)

Section RerankerFacts.
Import Json Results Reranker.
Local Open Scope list_scope.

Lemma pass_through_text (documents : list string) (k : Z) :
  map text (pass_through documents k) = PyList.take k documents.
Proof.
  unfold pass_through, PyList.enumerate. rewrite map_map.
  rewrite <- (enumerate_from_snd 0 (PyList.take k documents)) at 2.
  apply map_ext. now intros [i doc].
Qed.

Lemma pass_through_length_take (documents : list string) (k : Z) :
  length (pass_through documents k) = length (PyList.take k documents).
Proof. now rewrite <- pass_through_text, length_map. Qed.

Lemma pass_through_length (documents : list string) (k : Z) :
  (0 <= k)%Z ->
  Z.of_nat (length (pass_through documents k)) = Z.min k (Z.of_nat (length documents)).
Proof.
  intros Hk. rewrite pass_through_length_take. now apply take_length.
Qed.

Lemma pass_through_index (documents : list string) (k : Z) :
  map index (pass_through documents k)
  = map (fun i => JInt (Z.of_nat i)) (seq 0 (length (pass_through documents k))).
Proof.
  rewrite pass_through_length_take.
  rewrite <- (enumerate_from_fst 0 (PyList.take k documents)).
  unfold pass_through, PyList.enumerate. rewrite !map_map.
  apply map_ext. now intros [i doc].
Qed.

Lemma pass_through_score (documents : list string) (k : Z) :
  map score (pass_through documents k)
  = map (fun i => (1 # Pos.of_succ_nat i)%Q) (seq 0 (length (pass_through documents k))).
Proof.
  rewrite pass_through_length_take.
  rewrite <- (enumerate_from_fst 0 (PyList.take k documents)).
  unfold pass_through, PyList.enumerate. rewrite !map_map.
  apply map_ext. now intros [i doc].
Qed.

Lemma firstn_own_length {A : Type} (n : nat) (l : list A) :
  firstn (length (firstn n l)) l = firstn n l.
Proof.
  revert n. induction l as [|x l IH]; intros [|n]; simpl; try reflexivity.
  now rewrite IH.
Qed.

Lemma take_firstn_length {A : Type} (k : Z) (l : list A) :
  PyList.take k l = firstn (length (PyList.take k l)) l.
Proof.
  unfold PyList.take. destruct (0 <=? k)%Z; now rewrite firstn_own_length.
Qed.

(** The loop of the LLM variant stops after [top_k] documents, but not
    before the first. *)
Lemma llm_results_length (rankings : list Q) (top_k : Z) (docs : list (nat * string)) :
  forall processed : Z,
    (processed < top_k)%Z ->
    Z.of_nat (length (llm_results rankings top_k processed docs))
    = Z.min (top_k - processed) (Z.of_nat (length docs)).
Proof.
  induction docs as [|[i doc] docs IH]; intros processed Hp;
    cbn [llm_results length].
  - lia.
  - destruct (Z.leb_spec top_k (processed + 1)); cbn [length];
      rewrite !Nat2Z.inj_succ.
    + simpl. lia.
    + rewrite IH by lia. lia.
Qed.

Variable post : nat -> JinaRequest -> HttpOutcome.
Variable predict : nat -> list (string * string) -> option (list Q).
Variable chat : nat -> Provider -> string -> list string -> option LlmReply.

Lemma cross_encoder_length self query documents (top_k : Z) w :
  (0 <= top_k)%Z ->
  Z.of_nat (length (fst (_cross_encoder_rerank predict self query documents top_k w)))
  = Z.min top_k (Z.of_nat (length documents)).
Proof.
  intros Hk. unfold _cross_encoder_rerank.
  destruct (negb (_initialized self)); simpl; [now apply pass_through_length|].
  destruct (predict _ _) as [scores|]; simpl; [|now apply pass_through_length].
  destruct (Nat.ltb_spec (length scores) (length documents)); simpl;
    [now apply pass_through_length|].
  rewrite length_map, length_firstn, sort_desc_length, length_combine, length_seq.
  lia.
Qed.

Lemma llm_length self query documents (top_k : Z) w :
  (1 <= top_k)%Z ->
  Z.of_nat (length (fst (_llm_rerank chat self query documents top_k w)))
  = Z.min top_k (Z.of_nat (length documents)).
Proof.
  intros Hk. unfold _llm_rerank.
  assert (Hp : Z.of_nat (length (pass_through documents top_k))
               = Z.min top_k (Z.of_nat (length documents)))
    by (apply pass_through_length; lia).
  assert (Hl : forall rankings,
             Z.of_nat (length (PyList.sort_desc rerank_score
                                 (llm_results rankings top_k 0 (PyList.enumerate documents))))
             = Z.min top_k (Z.of_nat (length documents))).
  { intros. rewrite sort_desc_length, llm_results_length by lia.
    unfold PyList.enumerate. rewrite enumerate_from_length. lia. }
  destruct (negb (_initialized self) || negb (llm_client self)); simpl; [exact Hp|].
  destruct (provider self); simpl; try exact Hp;
    destruct (chat _ _ _ _) as [[scores|content]|]; simpl; auto.
Qed.

(** The Jina variant: the pass-through list, or what a response with
    status 200 lists. *)
Lemma jina_cases self query documents (top_k : Z) w :
  let data := {| req_model := "jina-reranker-v2-base-multilingual";
                 req_query := query;
                 req_top_n := top_k;
                 req_documents := documents |} in
  fst (_jina_api_rerank post self query documents top_k w) = pass_through documents top_k
  \/ exists body,
       post (length (posted w)) data = HttpResponse 200 body
       /\ jina_results documents body
          = Some (fst (_jina_api_rerank post self query documents top_k w)).
Proof.
  unfold _jina_api_rerank.
  destruct (negb (_initialized self) || negb (jina_headers self)); simpl; [now left|].
  destruct (post _ _) as [|status body] eqn:E; simpl; [now left|].
  destruct (Z.eqb_spec status 200); simpl; [|now left].
  destruct (jina_results documents body) as [results|] eqn:Er; simpl; [|now left].
  right. exists body. subst status. split; [reflexivity | exact Er].
Qed.

End RerankerFacts.

(** ** The claims on the reranker *)

Section RerankerClaims.
Import Json Results Reranker.
Local Open Scope list_scope.

Lemma jina_entries_length documents items out :
  jina_entries documents items = Some out -> length out = length items.
Proof.
  revert out. induction items as [|[i item] items IH]; simpl; intros out.
  - now intros [= <-].
  - destruct (jina_entry documents i item); [|discriminate].
    destruct (jina_entries documents items); [|discriminate].
    intros [= <-]. simpl. f_equal. now apply IH.
Qed.

Lemma dict_items_length (l : list json) ds :
  dict_items (JArr l) = Some ds -> length ds = length l.
Proof.
  simpl. revert ds. induction l as [|v l IH]; simpl; intros ds.
  - now intros [= <-].
  - destruct v; try discriminate.
    destruct (fold_right _ _ l) as [ds'|]; [|discriminate].
    intros [= <-]. simpl. f_equal. now apply IH.
Qed.

(** A response that is read without an exception gives one entry per item
    of its [results]. *)
Lemma jina_results_length documents d items out :
  PyDict.get "results" d = Some (JArr items) ->
  jina_results documents (Some (JObj d)) = Some out ->
  length out = length items.
Proof.
  intros Hg. unfold jina_results. simpl py_in. rewrite has_get, Hg.
  destruct (dict_items (JArr items)) as [ds|] eqn:E; [|discriminate].
  intros H. apply jina_entries_length in H.
  unfold PyList.enumerate in H. rewrite enumerate_from_length in H.
  rewrite H. now apply dict_items_length.
Qed.

Variable post : nat -> JinaRequest -> HttpOutcome.
Variable predict : nat -> list (string * string) -> option (list Q).
Variable chat : nat -> Provider -> string -> list string -> option LlmReply.


(** X10.  Every call of an initialized Jina variant sends a request, whatever
    the earlier calls met: the instance keeps no trace of a failure. *)
Lemma jina_always_posts self query documents top_k w :
  model_type self = jina_api -> _initialized self = true -> jina_headers self = true ->
  documents <> [] ->
  posted (snd (rerank post predict chat self query documents top_k w))
  = posted w ++ [jina_request query documents top_k].
Proof.
  intros Hm Hi Hh Hd. unfold rerank. rewrite Hm.
  destruct documents as [|doc documents]; [congruence|].
  unfold _jina_api_rerank. rewrite Hi, Hh. simpl negb. simpl orb. cbv iota.
  fold (jina_request query (doc :: documents) top_k).
  destruct (post _ _) as [|status body]; [reflexivity|].
  destruct (status =? 200)%Z; [|reflexivity].
  destruct (jina_results _ body); reflexivity.
Qed.

(** C6.  A reranker in degraded mode (not initialized, or without the
    handle of its variant) returns, for [0 <= k], the first
    [min(k, len(documents))] documents in their order: entry [i] is
    document [i], with score [1/(i+1)].  It calls no collaborator. *)
Theorem degraded_rerank_pass_through :
  forall self query documents (k : Z) w,
    (_initialized self = false \/ degraded self = true) ->
    (0 <= k)%Z ->
    Z.of_nat (length (fst (rerank post predict chat self query documents k w)))
    = Z.min k (Z.of_nat (length documents))
    /\ map text (fst (rerank post predict chat self query documents k w))
       = firstn (length (fst (rerank post predict chat self query documents k w))) documents
    /\ map index (fst (rerank post predict chat self query documents k w))
       = map (fun i => JInt (Z.of_nat i))
             (seq 0 (length (fst (rerank post predict chat self query documents k w))))
    /\ map score (fst (rerank post predict chat self query documents k w))
       = map (fun i => (1 # Pos.of_succ_nat i)%Q)
             (seq 0 (length (fst (rerank post predict chat self query documents k w))))
    /\ snd (rerank post predict chat self query documents k w) = w.
Proof.
  intros self query documents k w Hd Hk.
  assert (Hg : degraded self = true).
  { destruct Hd as [Hi|Hd]; [|exact Hd].
    unfold degraded. rewrite Hi. now destruct (model_type self). }
  assert (E : rerank post predict chat self query documents k w
              = (pass_through documents k, w)).
  { unfold rerank, _cross_encoder_rerank, _jina_api_rerank, _llm_rerank.
    unfold degraded in Hg.
    destruct documents as [|doc documents].
    - unfold pass_through, PyList.take. simpl.
      destruct (0 <=? k)%Z; simpl; now rewrite firstn_nil.
    - destruct (model_type self); rewrite Hg; reflexivity. }
  rewrite E. simpl. split; [|split; [|split; [|split]]].
  - now apply pass_through_length.
  - rewrite pass_through_text, pass_through_length_take. apply take_firstn_length.
  - apply pass_through_index.
  - apply pass_through_score.
  - reflexivity.
Qed.


End RerankerClaims.

Section RerankerExamples.
Import Json Results Reranker.
Local Open Scope list_scope.

Lemma degraded_rerank_pass_through_witness :
  Z.of_nat (length (fst (rerank (always_200 (JObj [])) no_predict no_chat
                                cross_encoder_degraded "q" ["a"; "b"; "c"] 2 empty_world)))
  = Z.min 2 (Z.of_nat (length ["a"; "b"; "c"]))
  /\ map text (fst (rerank (always_200 (JObj [])) no_predict no_chat
                           cross_encoder_degraded "q" ["a"; "b"; "c"] 2 empty_world))
     = ["a"; "b"].
Proof.
  split.
  - apply (degraded_rerank_pass_through (always_200 (JObj [])) no_predict no_chat
             cross_encoder_degraded "q" ["a"; "b"; "c"] 2 empty_world);
      [left; reflexivity | lia].
  - reflexivity.
Defined.



(** C4 at its failing input: a response with status 200 whose body is a
    JSON object without [results].  The call returns no entry, where the
    pass-through list has the two documents. *)
Theorem jina_body_without_results_returns_nothing :
  fst (rerank (always_200 (JObj [])) no_predict no_chat
              jina_ready "q" ["a"; "b"] 2 empty_world) = []
  /\ pass_through ["a"; "b"] 2
     = [ {| index := JInt 0; score := 1; text := "a";
            original_rank := JInt 0; rerank_score := 1 |};
         {| index := JInt 1; score := (1 # 2)%Q; text := "b";
            original_rank := JInt 1; rerank_score := (1 # 2)%Q |} ].
Proof. split; reflexivity. Qed.

(** The other failures the claim names do degrade, for this call only: a
    status 503 gives the pass-through list, and the next call sends its
    request and returns what the endpoint then lists. *)
Example jina_failure_is_transient :
  let first := rerank (down_then_up one_entry_body) no_predict no_chat
                      jina_ready "q" ["a"; "b"] 2 empty_world in
  let second := rerank (down_then_up one_entry_body) no_predict no_chat
                       jina_ready "q" ["a"; "b"] 2 (snd first) in
  fst first = pass_through ["a"; "b"] 2
  /\ posted (snd first) = [jina_request "q" ["a"; "b"] 2]
  /\ posted (snd second) = [jina_request "q" ["a"; "b"] 2; jina_request "q" ["a"; "b"] 2]
  /\ map text (fst second) = ["b"].
Proof. repeat split. Qed.

End RerankerExamples.

(** ** The decoder: fuel *)

Section DecoderFuel.
Import Json.

Lemma skip_ws_le (s : string) : String.length (skip_ws s) <= String.length s.
Proof.
  induction s as [|c s IH]; simpl; [lia|].
  destruct (is_ws c); simpl; lia.
Qed.

Lemma drop_length (n : nat) (s : string) :
  String.length (drop n s) = String.length s - n.
Proof.
  revert s. induction n as [|n IH]; intros [|c s]; simpl; try lia. apply IH.
Qed.

Lemma prefix_length (p s : string) :
  String.prefix p s = true -> String.length p <= String.length s.
Proof.
  revert s. induction p as [|a p IH]; intros [|b s]; simpl; try lia; try discriminate.
  destruct (ascii_dec a b); [|discriminate]. intros H. apply IH in H. lia.
Qed.

Lemma cons_to_Some (p : string) (r : option (string * string)) (str rest : string) :
  cons_to p r = Some (str, rest) ->
  exists str', r = Some (str', rest) /\ str = p ++ str'.
Proof.
  destruct r as [[str' rest']|]; simpl; [|discriminate].
  intros [= <- <-]. eauto.
Qed.

Lemma scanstring_shorter_upto (n : nat) :
  forall s str rest,
    String.length s <= n ->
    scanstring s = Some (str, rest) -> String.length rest < String.length s.
Proof.
  induction n as [|n IH]; intros s str rest Hn H.
  - destruct s; simpl in *; [discriminate | lia].
  - destruct s as [|c s]; [discriminate|].
    cbn [scanstring] in H. cbn [String.length] in *.
    destruct (Ascii.eqb c "034"); [injection H as _ <-; lia|].
    destruct (Ascii.eqb c "092").
    + destruct s as [|e s]; [discriminate|]. cbn [String.length] in *.
      destruct (Ascii.eqb e "u").
      * destruct s as [|h1 [|h2 [|h3 [|h4 r]]]]; try discriminate.
        cbn [String.length] in *.
        destruct (hex4 h1 h2 h3 h4) as [cp|]; [|discriminate].
        assert (Hr : forall p, cons_to p (scanstring r) = Some (str, rest) ->
                               String.length rest < String.length r).
        { intros p Hp. apply cons_to_Some in Hp as (str' & Hp & _).
          eapply IH; [|exact Hp]. lia. }
        destruct (is_high_surrogate cp); [|apply Hr in H; lia].
        destruct r as [|b [|u [|g1 [|g2 [|g3 [|g4 r2]]]]]];
          try (apply Hr in H; cbn [String.length] in *; lia).
        destruct (low_surrogate_at _) as [[lo ?]|];
          [|apply Hr in H; cbn [String.length] in *; lia].
        apply cons_to_Some in H as (str' & H & _).
        apply IH in H; cbn [String.length] in *; lia.
      * destruct (simple_escape e); [|discriminate].
        apply cons_to_Some in H as (str' & H & _).
        apply IH in H; lia.
    + destruct (N_of_ascii c <? 32)%N; [discriminate|].
      apply cons_to_Some in H as (str' & H & _).
      apply IH in H; lia.
Qed.

Lemma scanstring_shorter (s str rest : string) :
  scanstring s = Some (str, rest) -> String.length rest < String.length s.
Proof. apply (scanstring_shorter_upto (String.length s)). lia. Qed.

Lemma span_digits_le (s d r : string) :
  span_digits s = (d, r) -> String.length r <= String.length s.
Proof.
  revert d r. induction s as [|c s IH]; simpl; intros d r.
  - intros [= <- <-]. simpl. lia.
  - destruct (PyStr.is_digit c).
    + destruct (span_digits s) as [d' r']. intros [= <- <-].
      specialize (IH _ _ eq_refl). lia.
    + intros [= <- <-]. simpl. lia.
Qed.

Lemma scan_int_part_shorter (s ip r : string) :
  scan_int_part s = Some (ip, r) -> String.length r < String.length s.
Proof.
  destruct s as [|c s]; simpl; [discriminate|].
  destruct (Ascii.eqb c "0"); [intros [= <- <-]; lia|].
  destruct (PyStr.is_digit c); [|discriminate].
  destruct (span_digits s) as [d r'] eqn:E. intros [= <- <-].
  apply span_digits_le in E. lia.
Qed.

Lemma scan_frac_le (s f r : string) :
  scan_frac s = Some (f, r) -> String.length r <= String.length s.
Proof.
  destruct s as [|c s]; simpl; [discriminate|].
  destruct (Ascii.eqb c "."); [|discriminate].
  destruct (span_digits s) as [d r'] eqn:E.
  apply span_digits_le in E.
  destruct d; [discriminate|]. intros [= <- <-]. lia.
Qed.

Lemma scan_exp_le (s : string) (e : Z) (r : string) :
  scan_exp s = Some (e, r) -> String.length r <= String.length s.
Proof.
  destruct s as [|c s]; simpl; [discriminate|].
  destruct (Ascii.eqb c "e" || Ascii.eqb c "E"); [|discriminate].
  assert (G : forall sign s1, String.length s1 <= String.length s ->
              match span_digits s1 with
              | (EmptyString, _) => None
              | (d, r0) => Some ((sign * Z_of_digits d)%Z, r0)
              end = Some (e, r) -> String.length r <= S (String.length s)).
  { intros sign s1 Hs1. destruct (span_digits s1) as [d r'] eqn:E.
    apply span_digits_le in E. destruct d; [discriminate|].
    intros [= <- <-]. lia. }
  destruct s as [|g t]; [apply (G 1%Z); simpl; lia|].
  destruct (Ascii.eqb g "+"); [apply G; simpl; lia|].
  destruct (Ascii.eqb g "-"); apply G; simpl; lia.
Qed.

Lemma match_number_shorter (s : string) (v : json) (r : string) :
  match_number s = Some (v, r) -> String.length r < String.length s.
Proof.
  unfold match_number.
  assert (G : forall neg s1, String.length s1 <= String.length s ->
    match scan_int_part s1 with
    | None => None
    | Some (ip, r1) =>
        let (frac, r2) :=
          match scan_frac r1 with
          | Some (f, r) => (Some f, r)
          | None => (None, r1)
          end in
        let (ex, r3) :=
          match scan_exp r2 with
          | Some (e, r) => (Some e, r)
          | None => (None, r2)
          end in
        match frac, ex with
        | None, None =>
            Some (JInt (if neg then - Z_of_digits ip else Z_of_digits ip)%Z, r3)
        | Some f, None => Some (JFloat (decimal_value neg ip f 0), r3)
        | None, Some e => Some (JFloat (decimal_value neg ip EmptyString e), r3)
        | Some f, Some e => Some (JFloat (decimal_value neg ip f e), r3)
        end
    end = Some (v, r) -> String.length r < String.length s1).
  { intros neg s1 _.
    destruct (scan_int_part s1) as [[ip r1]|] eqn:E1; [|discriminate].
    apply scan_int_part_shorter in E1.
    destruct (scan_frac r1) as [[f r2]|] eqn:E2;
      [apply scan_frac_le in E2|];
      (destruct (scan_exp _) as [[e r3]|] eqn:E3;
       [apply scan_exp_le in E3|]); intros [= _ <-]; lia. }
  destruct s as [|c t]; [intros H; apply (G false) in H; simpl in *; lia|].
  destruct (Ascii.eqb c "-"); intros H; apply G in H; simpl in *; lia.
Qed.

Lemma match_constant_shorter (cs : list (string * json)) (s : string) (v : json) (r : string) :
  Forall (fun c => fst c <> EmptyString) cs ->
  match_constant cs s = Some (v, r) -> String.length r < String.length s.
Proof.
  induction 1 as [|[lit v'] cs Hl _ IH]; simpl; [discriminate|].
  destruct (String.prefix lit s) eqn:E; [|exact IH].
  intros [= _ <-]. apply prefix_length in E. rewrite drop_length.
  destruct lit; [now elim Hl|]. simpl in *. lia.
Qed.

Lemma scan_scalar_shorter (s : string) (v : json) (r : string) :
  scan_scalar s = Decoded v r -> String.length r < String.length s.
Proof.
  unfold scan_scalar.
  destruct (match_constant constants s) as [[v1 r1]|] eqn:E.
  - intros [= _ <-]. eapply match_constant_shorter; [|exact E].
    unfold constants. repeat constructor; discriminate.
  - destruct (match_number s) as [[v1 r1]|] eqn:En; [|discriminate].
    intros [= _ <-]. eapply match_number_shorter, En.
Qed.

Lemma scan_scalar_fuel (s : string) : scan_scalar s <> OutOfFuel.
Proof.
  unfold scan_scalar.
  destruct (match_constant constants s) as [[? ?]|]; [discriminate|].
  destruct (match_number s) as [[? ?]|]; discriminate.
Qed.

Lemma decoder_fuel (fuel : nat) :
  (forall depth s, 2 * String.length s + 1 <= fuel -> progress s (scan_once fuel depth s))
  /\ (forall depth s acc,
         2 * String.length s + 2 <= fuel -> progress s (parse_items fuel depth s acc))
  /\ (forall depth s acc,
         2 * String.length s + 2 <= fuel -> progress s (parse_members fuel depth s acc)).
Proof.
  induction fuel as [|fuel (IHv & IHi & IHm)].
  - repeat split; intros; lia.
  - split; [|split].
    + intros depth s Hf. destruct s as [|c s]; [exact I|].
      cbn [scan_once]. cbn [String.length] in Hf.
      destruct (Ascii.eqb c "034").
      { destruct (scanstring s) as [[str rest]|] eqn:E; [|exact I].
        apply scanstring_shorter in E. simpl. lia. }
      destruct (Ascii.eqb c "{").
      { destruct depth as [|depth]; [exact I|].
        pose proof (skip_ws_le s) as Hw.
        destruct (skip_ws s) as [|c1 r1] eqn:E; [exact I|].
        destruct (Ascii.eqb c1 "}"); [simpl in *; lia|].
        specialize (IHm depth (String c1 r1) []).
        destruct (parse_members fuel depth (String c1 r1) []);
          simpl in *; try exact I; apply IHm in Hw || (try lia); lia. }
      destruct (Ascii.eqb c "[").
      { destruct depth as [|depth]; [exact I|].
        pose proof (skip_ws_le s) as Hw.
        destruct (skip_ws s) as [|c1 r1] eqn:E; [exact I|].
        destruct (Ascii.eqb c1 "]"); [simpl in *; lia|].
        specialize (IHi depth (String c1 r1) []).
        destruct (parse_items fuel depth (String c1 r1) []);
          simpl in *; try exact I; apply IHi in Hw || (try lia); lia. }
      pose proof (scan_scalar_fuel (String c s)) as Hs.
      destruct (scan_scalar (String c s)) eqn:E; try exact I; [|congruence].
      apply scan_scalar_shorter in E. exact E.
    + intros depth s acc Hf. cbn [parse_items].
      specialize (IHv depth s).
      destruct (scan_once fuel depth s) as [v rest| | |]; simpl in IHv |- *;
        try exact I; [|apply IHv; lia].
      assert (Hr : String.length rest < String.length s) by (apply IHv; lia).
      pose proof (skip_ws_le rest) as Hw.
      destruct (skip_ws rest) as [|c r] eqn:E; [exact I|].
      destruct (Ascii.eqb c "]"); [simpl in *; lia|].
      destruct (Ascii.eqb c ","); [|exact I].
      pose proof (skip_ws_le r) as Hw2.
      specialize (IHi depth (skip_ws r) (acc ++ [v])%list).
      destruct (parse_items fuel depth (skip_ws r) (acc ++ [v])%list);
        simpl in *; try exact I; try (apply IHi; lia).
      assert (String.length rest0 < String.length (skip_ws r)) by (apply IHi; lia).
      lia.
    + intros depth s acc Hf. cbn [parse_members].
      destruct s as [|c s]; [exact I|]. cbn [String.length] in Hf.
      destruct (Ascii.eqb c "034"); [|exact I].
      destruct (scanstring s) as [[key r0]|] eqn:Ek; [|exact I].
      apply scanstring_shorter in Ek.
      pose proof (skip_ws_le r0) as Hw0.
      destruct (skip_ws r0) as [|c1 r1] eqn:E0; [exact I|].
      destruct (Ascii.eqb c1 ":"); [|exact I].
      pose proof (skip_ws_le r1) as Hw1.
      specialize (IHv depth (skip_ws r1)).
      destruct (scan_once fuel depth (skip_ws r1)) as [v rest| | |];
        simpl in IHv |- *; try exact I; [|apply IHv; simpl in *; lia].
      assert (Hr : String.length rest < String.length (skip_ws r1))
        by (apply IHv; simpl in *; lia).
      pose proof (skip_ws_le rest) as Hw.
      destruct (skip_ws rest) as [|c2 r2] eqn:E; [exact I|].
      destruct (Ascii.eqb c2 "}"); [simpl in *; lia|].
      destruct (Ascii.eqb c2 ","); [|exact I].
      pose proof (skip_ws_le r2) as Hw2.
      specialize (IHm depth (skip_ws r2) (PyDict.set key v acc)).
      destruct (parse_members fuel depth (skip_ws r2) (PyDict.set key v acc));
        simpl in *; try exact I; try (apply IHm; lia).
      assert (String.length rest0 < String.length (skip_ws r2)) by (apply IHm; lia).
      lia.
Qed.

(** [json_loads] never runs out of fuel. *)
Lemma json_loads_fuel (recursion_limit : nat) (s : string) :
  json_loads recursion_limit s <> OutOfFuel.
Proof.
  unfold json_loads.
  destruct (decoder_fuel (2 * String.length s + 1)) as (Hv & _ & _).
  specialize (Hv recursion_limit (skip_ws s)).
  pose proof (skip_ws_le s) as Hw.
  destruct (scan_once _ _ _) as [v rest| | |]; try discriminate.
  - destruct (skip_ws rest); discriminate.
  - simpl in Hv. intros _. apply Hv. lia.
Qed.

(** More fuel does not change what a step that ended with fuel left
    yields. *)
Lemma decoder_fuel_mono (fuel : nat) :
  (forall fuel' depth s,
      fuel <= fuel' -> scan_once fuel depth s <> OutOfFuel ->
      scan_once fuel' depth s = scan_once fuel depth s)
  /\ (forall fuel' depth s acc,
         fuel <= fuel' -> parse_items fuel depth s acc <> OutOfFuel ->
         parse_items fuel' depth s acc = parse_items fuel depth s acc)
  /\ (forall fuel' depth s acc,
         fuel <= fuel' -> parse_members fuel depth s acc <> OutOfFuel ->
         parse_members fuel' depth s acc = parse_members fuel depth s acc).
Proof.
  induction fuel as [|fuel (IHv & IHi & IHm)].
  - repeat split; intros; simpl in *; congruence.
  - split; [|split].
    + intros [|fuel'] depth s Hle; [lia|]. assert (Hle' : fuel <= fuel') by lia.
      cbn [scan_once]. destruct s as [|c s]; [reflexivity|].
      destruct (Ascii.eqb c "034"); [reflexivity|].
      destruct (Ascii.eqb c "{").
      { destruct depth as [|depth]; [reflexivity|].
        destruct (skip_ws s) as [|c1 r1]; [reflexivity|].
        destruct (Ascii.eqb c1 "}"); [reflexivity|]. now apply IHm. }
      destruct (Ascii.eqb c "[").
      { destruct depth as [|depth]; [reflexivity|].
        destruct (skip_ws s) as [|c1 r1]; [reflexivity|].
        destruct (Ascii.eqb c1 "]"); [reflexivity|]. now apply IHi. }
      reflexivity.
    + intros [|fuel'] depth s acc Hle; [lia|]. assert (Hle' : fuel <= fuel') by lia.
      cbn [parse_items]. intros H.
      assert (Hv : scan_once fuel depth s <> OutOfFuel)
        by (intros E; rewrite E in H; congruence).
      rewrite (IHv fuel' depth s Hle' Hv).
      destruct (scan_once fuel depth s) as [v rest| | |]; try reflexivity.
      destruct (skip_ws rest) as [|c r]; [reflexivity|].
      destruct (Ascii.eqb c "]"); [reflexivity|].
      destruct (Ascii.eqb c ","); [|reflexivity]. now apply IHi.
    + intros [|fuel'] depth s acc Hle; [lia|]. assert (Hle' : fuel <= fuel') by lia.
      cbn [parse_members]. intros H.
      destruct s as [|c s]; [reflexivity|].
      destruct (Ascii.eqb c "034"); [|reflexivity].
      destruct (scanstring s) as [[key r0]|]; [|reflexivity].
      destruct (skip_ws r0) as [|c1 r1]; [reflexivity|].
      destruct (Ascii.eqb c1 ":"); [|reflexivity].
      assert (Hv : scan_once fuel depth (skip_ws r1) <> OutOfFuel)
        by (intros E; rewrite E in H; congruence).
      rewrite (IHv fuel' depth _ Hle' Hv).
      destruct (scan_once fuel depth (skip_ws r1)) as [v rest| | |]; try reflexivity.
      destruct (skip_ws rest) as [|c2 r2]; [reflexivity|].
      destruct (Ascii.eqb c2 "}"); [reflexivity|].
      destruct (Ascii.eqb c2 ","); [|reflexivity]. now apply IHm.
Qed.

(** What [scan_once] decodes with some fuel, [json_loads] decodes. *)
Lemma json_loads_decoded (recursion_limit fuel : nat) (s : string) (v : json) :
  scan_once fuel recursion_limit (skip_ws s) = Decoded v EmptyString ->
  json_loads recursion_limit s = Decoded v EmptyString.
Proof.
  intros H. unfold json_loads.
  destruct (decoder_fuel (2 * String.length s + 1)) as (Hp & _ & _).
  specialize (Hp recursion_limit (skip_ws s)).
  pose proof (skip_ws_le s) as Hw.
  assert (Hf : scan_once (2 * String.length s + 1) recursion_limit (skip_ws s) <> OutOfFuel).
  { intros E. rewrite E in Hp. apply Hp. lia. }
  destruct (decoder_fuel_mono (2 * String.length s + 1)) as (Hm1 & _ & _).
  destruct (decoder_fuel_mono fuel) as (Hm2 & _ & _).
  rewrite <- (Hm1 (Nat.max fuel (2 * String.length s + 1)) recursion_limit (skip_ws s))
    by (assumption || lia).
  rewrite (Hm2 (Nat.max fuel (2 * String.length s + 1)) recursion_limit (skip_ws s))
    by (lia || (rewrite H; discriminate)).
  rewrite H. reflexivity.
Qed.

End DecoderFuel.

(** ** The decoder reads back the canonical text *)

Section Roundtrip.
Import PyStr Json StructuredAnswer.

Lemma append_assoc_s (a b c : string) : (a ++ b) ++ c = a ++ (b ++ c).
Proof. induction a as [|x a IH]; simpl; [reflexivity | now rewrite IH]. Qed.

Lemma append_nil_s (a : string) : a ++ EmptyString = a.
Proof. induction a as [|x a IH]; simpl; [reflexivity | now rewrite IH]. Qed.

(** One escaped character is read back as that character. *)
Lemma escape_char_scan (c : ascii) (rest : string) :
  scanstring (escape_char c ++ rest) = cons_to (String c EmptyString) (scanstring rest).
Proof.
  destruct c as [[] [] [] [] [] [] [] []]; reflexivity.
Qed.

Lemma escape_scan (s rest : string) :
  scanstring (escape s ++ String "034" rest) = Some (s, rest).
Proof.
  induction s as [|c s IH]; simpl.
  - reflexivity.
  - rewrite append_assoc_s, escape_char_scan, IH. reflexivity.
Qed.

Lemma encode_string_scan (s rest : string) (fuel depth : nat) :
  scan_once (S fuel) depth (encode_string s ++ rest) = Decoded (JStr s) rest.
Proof.
  unfold encode_string, dq. rewrite !append_assoc_s. cbn [append scan_once].
  rewrite Ascii.eqb_refl.
  change (String "034" rest) with (String "034" EmptyString ++ rest) at 1.
  cbn [append]. now rewrite escape_scan.
Qed.

Lemma after_value_cases (rest : string) :
  after_value rest = true ->
  exists r, rest = String "," r \/ rest = String "]" r \/ rest = String "}" r.
Proof.
  destruct rest as [|c r]; simpl; [discriminate|]. intros H. exists r.
  apply orb_true_iff in H as [H|H]; [apply orb_true_iff in H as [H|H]|];
    apply Ascii.eqb_eq in H; subst; auto.
Qed.

Lemma uint_span (u : Decimal.uint) (rest : string) :
  after_value rest = true ->
  span_digits (NilEmpty.string_of_uint u ++ rest) = (NilEmpty.string_of_uint u, rest).
Proof.
  intros H. induction u; cbn [NilEmpty.string_of_uint append span_digits];
    try (rewrite IHu; reflexivity).
  apply after_value_cases in H as (r & [->|[->| ->]]); reflexivity.
Qed.

Lemma Z_of_digits_uint (u : Decimal.uint) :
  Z_of_digits (NilEmpty.string_of_uint u) = Z.of_uint u.
Proof. unfold Z_of_digits. now rewrite NilEmpty.usu. Qed.

Lemma to_uint_canonical (p : positive) : canonical (Pos.to_uint p).
Proof.
  right. split; [apply Unsigned.to_uint_nonnil|].
  intros u' E.
  pose proof (DecimalPos.Unsigned.to_of (Pos.to_uint p)) as H.
  rewrite DecimalPos.Unsigned.of_to in H. simpl in H.
  rewrite E in H. rewrite unorm_D0 in H. unfold Decimal.unorm in H.
  destruct (Decimal.nzhead u') eqn:En; try discriminate H.
  - injection H as ->. exact (Unsigned.to_uint_nonzero p E).
  - exact (nzhead_nonzero _ _ En).
Qed.

Lemma int_part_scan (u : Decimal.uint) (rest : string) :
  canonical u -> after_value rest = true ->
  scan_int_part (NilEmpty.string_of_uint u ++ rest)
  = Some (NilEmpty.string_of_uint u, rest).
Proof.
  intros [->|(Hnil & H0)] Hr; [reflexivity|].
  destruct u; try congruence; try (now elim (H0 u));
    cbn [NilEmpty.string_of_uint append scan_int_part];
    rewrite (uint_span u rest Hr); reflexivity.
Qed.

Lemma uint_head (u : Decimal.uint) :
  u <> Decimal.Nil ->
  exists c t, NilEmpty.string_of_uint u = String c t /\ PyStr.is_digit c = true.
Proof.
  destruct u; try congruence; intros _; simpl; eauto.
Qed.

Lemma canonical_nonnil (u : Decimal.uint) : canonical u -> u <> Decimal.Nil.
Proof. intros [->|(H & _)]; [discriminate | exact H]. Qed.

Lemma match_number_uint (u : Decimal.uint) (neg : bool) (rest : string) :
  canonical u -> after_value rest = true ->
  match_number ((if neg then "-" else EmptyString) ++ NilEmpty.string_of_uint u ++ rest)
  = Some (JInt (if neg then - Z.of_uint u else Z.of_uint u)%Z, rest).
Proof.
  intros Hc Hr.
  assert (Hfe : scan_frac rest = None /\ scan_exp rest = None).
  { apply after_value_cases in Hr as (r & [->|[->| ->]]); split; reflexivity. }
  destruct Hfe as (Hf & He).
  pose proof (int_part_scan u rest Hc Hr) as Hi.
  unfold match_number. destruct neg; cbn [append].
  - rewrite Ascii.eqb_refl, Hi, Hf, He, Z_of_digits_uint. reflexivity.
  - destruct (uint_head u (canonical_nonnil u Hc)) as (c & t & E & Hd).
    rewrite E in Hi |- *. cbn [append] in Hi |- *.
    replace (Ascii.eqb c "-") with false
      by (clear -Hd; destruct c as [[] [] [] [] [] [] [] []];
          try discriminate; reflexivity).
    rewrite Hi, Hf, He. rewrite <- E, Z_of_digits_uint. reflexivity.
Qed.

Lemma digit_not_constant (c : ascii) (t : string) :
  PyStr.is_digit c = true ->
  match_constant constants (String c t) = None
  /\ match_constant constants (String "-" (String c t)) = None.
Proof.
  intros Hd. destruct c as [[] [] [] [] [] [] [] []]; try discriminate; split; reflexivity.
Qed.

Lemma digit_is_scalar (c : ascii) (t : string) (fuel depth : nat) :
  PyStr.is_digit c = true ->
  scan_once (S fuel) depth (String c t) = scan_scalar (String c t).
Proof.
  intros Hd. destruct c as [[] [] [] [] [] [] [] []]; try discriminate; reflexivity.
Qed.

Lemma uint_scan (u : Decimal.uint) (neg : bool) (rest : string) (fuel depth : nat) :
  canonical u -> after_value rest = true ->
  scan_once (S fuel) depth
            ((if neg then "-" else EmptyString) ++ NilEmpty.string_of_uint u ++ rest)
  = Decoded (JInt (if neg then - Z.of_uint u else Z.of_uint u)%Z) rest.
Proof.
  intros Hc Hr.
  pose proof (match_number_uint u neg rest Hc Hr) as Hn.
  destruct (uint_head u (canonical_nonnil u Hc)) as (c & t & E & Hd).
  rewrite E in Hn |- *.
  destruct (digit_not_constant c (t ++ rest) Hd) as (Hc1 & Hc2).
  destruct neg; cbn [append] in Hn |- *.
  - change (scan_once (S fuel) depth (String "-" (String c (t ++ rest))))
      with (scan_scalar (String "-" (String c (t ++ rest)))).
    unfold scan_scalar. now rewrite Hc2, Hn.
  - rewrite digit_is_scalar by assumption.
    unfold scan_scalar. now rewrite Hc1, Hn.
Qed.

Lemma encode_int_scan (z : Z) (rest : string) (fuel depth : nat) :
  after_value rest = true ->
  scan_once (S fuel) depth (encode_int z ++ rest) = Decoded (JInt z) rest.
Proof.
  intros Hr. unfold encode_int. destruct z as [|p|p]; simpl Z.to_int.
  - apply (uint_scan (Decimal.D0 Decimal.Nil) false rest fuel depth); [now left | exact Hr].
  - pose proof (uint_scan (Pos.to_uint p) false rest fuel depth (to_uint_canonical p) Hr) as H.
    cbn [append] in H. unfold Z.of_uint in H.
    rewrite DecimalPos.Unsigned.of_to in H. simpl Z.of_N in H.
    unfold NilZero.string_of_int, NilZero.string_of_uint.
    destruct (Pos.to_uint p) eqn:E; try exact H.
    now elim (Unsigned.to_uint_nonnil p).
  - pose proof (uint_scan (Pos.to_uint p) true rest fuel depth (to_uint_canonical p) Hr) as H.
    unfold Z.of_uint in H.
    rewrite DecimalPos.Unsigned.of_to in H. simpl Z.of_N in H. simpl Z.opp in H.
    unfold NilZero.string_of_int, NilZero.string_of_uint.
    destruct (Pos.to_uint p) eqn:E; try exact H.
    now elim (Unsigned.to_uint_nonnil p).
Qed.

Lemma skip_ws_head (c : ascii) (t : string) :
  is_ws c = false -> skip_ws (String c t) = String c t.
Proof. intros H. simpl. now rewrite H. Qed.

Lemma parse_items_step (fuel depth : nat) (s : string) (acc : list json) :
  parse_items (S fuel) depth s acc
  = match scan_once fuel depth s with
    | Decoded v rest =>
        match skip_ws rest with
        | EmptyString => Invalid
        | String c r =>
            if Ascii.eqb c "]" then Decoded (JArr (acc ++ [v])%list) r
            else if Ascii.eqb c ","
            then parse_items fuel depth (skip_ws r) (acc ++ [v])%list
            else Invalid
        end
    | Invalid => Invalid
    | TooDeep => TooDeep
    | OutOfFuel => OutOfFuel
    end.
Proof. reflexivity. Qed.

Lemma scan_once_array (fuel depth : nat) (s : string) :
  scan_once (S fuel) (S depth) (String "[" s)
  = match skip_ws s with
    | EmptyString => Invalid
    | String c1 r1 =>
        if Ascii.eqb c1 "]" then Decoded (JArr []) r1
        else parse_items fuel depth (String c1 r1) []
    end.
Proof. reflexivity. Qed.

Lemma scan_once_object (fuel depth : nat) (s : string) :
  scan_once (S fuel) (S depth) (String "{" s)
  = match skip_ws s with
    | EmptyString => Invalid
    | String c1 r1 =>
        if Ascii.eqb c1 "}" then Decoded (JObj []) r1
        else parse_members fuel depth (String c1 r1) []
    end.
Proof. reflexivity. Qed.

(** Lists, for any kind of item that is read back when a delimiter
    follows it. *)
Section Items.
Context {A : Type}.
Variable encode : A -> string.
Variable decode_item : A -> json.
Hypothesis encode_scan :
  forall a rest fuel depth,
    after_value rest = true ->
    scan_once (S fuel) depth (encode a ++ rest) = Decoded (decode_item a) rest.
Hypothesis encode_head :
  forall a, exists c t, encode a = String c t /\ is_ws c = false /\ Ascii.eqb c "]" = false.

Lemma items_scan (l : list A) :
  forall acc fuel depth rest,
    l <> [] -> 2 * length l <= fuel ->
    parse_items fuel depth (join ", " (map encode l) ++ "]" ++ rest) acc
    = Decoded (JArr (acc ++ map decode_item l)%list) rest.
Proof.
  induction l as [|a l IH]; intros acc fuel depth rest Hl Hf; [congruence|].
  destruct fuel as [|[|fuel]]; cbn [length] in Hf; try lia.
  rewrite parse_items_step.
  destruct l as [|b l].
  - cbn [map join String.concat].
    rewrite encode_scan by reflexivity. reflexivity.
  - assert (E : join ", " (map encode (a :: b :: l))
                = encode a ++ ", " ++ join ", " (map encode (b :: l))) by reflexivity.
    rewrite E, append_assoc_s.
    rewrite encode_scan by reflexivity.
    rewrite append_assoc_s.
    destruct (encode_head b) as (c & t & Eb & Hw & _).
    assert (Es : skip_ws (" " ++ join ", " (map encode (b :: l)) ++ "]" ++ rest)
                 = join ", " (map encode (b :: l)) ++ "]" ++ rest).
    { destruct l; cbn [map join String.concat]; rewrite Eb;
        rewrite ?append_assoc_s; cbn [append]; 
        change (skip_ws (String " " ?x)) with (skip_ws x);
        now apply skip_ws_head. }
    change (skip_ws (", " ++ ?x)) with (String "," (" " ++ x)).
    cbv iota. change (Ascii.eqb "," "]") with false. change (Ascii.eqb "," ",") with true.
    cbv iota.
    rewrite Es, IH; [|discriminate|cbn [length] in *; lia].
    now rewrite <- List.app_assoc.
Qed.

Lemma encode_list_scan (l : list A) (rest : string) (fuel depth : nat) :
  2 * length l + 1 <= fuel ->
  scan_once fuel (S depth) (encode_list encode l ++ rest)
  = Decoded (JArr (map decode_item l)) rest.
Proof.
  intros Hf. destruct fuel as [|fuel]; [lia|].
  unfold encode_list. rewrite !append_assoc_s.
  change ("[" ++ ?x) with (String "[" x).
  rewrite scan_once_array.
  destruct l as [|a l].
  - reflexivity.
  - destruct (encode_head a) as (c & t & Ea & Hw & Hb).
    assert (Es : exists t', join ", " (map encode (a :: l)) ++ "]" ++ rest = String c t').
    { destruct l; cbn [map join String.concat]; rewrite Ea;
        rewrite ?append_assoc_s; cbn [append]; eauto. }
    destruct Es as (t' & Es).
    rewrite Es, skip_ws_head, Hb, <- Es by assumption.
    rewrite items_scan; [reflexivity | discriminate | cbn [length] in *; lia].
Qed.

End Items.

Lemma encode_string_head (s : string) :
  exists c t, encode_string s = String c t /\ is_ws c = false /\ Ascii.eqb c "]" = false.
Proof. unfold encode_string, dq. simpl. eauto. Qed.

Lemma encode_int_head (z : Z) :
  exists c t, encode_int z = String c t /\ is_ws c = false /\ Ascii.eqb c "]" = false.
Proof.
  unfold encode_int.
  assert (G : forall u, u <> Decimal.Nil ->
              exists c t, NilEmpty.string_of_uint u = String c t
                          /\ is_ws c = false /\ Ascii.eqb c "]" = false).
  { destruct u; try congruence; intros _; simpl; eauto. }
  destruct z as [|p|p]; simpl.
  - eauto.
  - unfold NilZero.string_of_uint.
    destruct (Pos.to_uint p) eqn:E; try (rewrite <- E; apply G, Unsigned.to_uint_nonnil).
    simpl. eauto.
  - eauto.
Qed.

Lemma parse_members_step (fuel depth : nat) (c : ascii) (s' : string)
      (acc : list (string * json)) :
  parse_members (S fuel) depth (String c s') acc
  = if Ascii.eqb c "034" then
      match scanstring s' with
      | None => Invalid
      | Some (key, r0) =>
          match skip_ws r0 with
          | EmptyString => Invalid
          | String c1 r1 =>
              if Ascii.eqb c1 ":" then
                match scan_once fuel depth (skip_ws r1) with
                | Decoded v rest =>
                    match skip_ws rest with
                    | EmptyString => Invalid
                    | String c2 r2 =>
                        if Ascii.eqb c2 "}"
                        then Decoded (JObj (PyDict.set key v acc)) r2
                        else if Ascii.eqb c2 ","
                        then parse_members fuel depth (skip_ws r2) (PyDict.set key v acc)
                        else Invalid
                    end
                | Invalid => Invalid
                | TooDeep => TooDeep
                | OutOfFuel => OutOfFuel
                end
              else Invalid
          end
      end
    else Invalid.
Proof. reflexivity. Qed.

Lemma after_value_skip_ws (rest : string) :
  after_value rest = true -> skip_ws rest = rest.
Proof.
  intros H. apply after_value_cases in H as (r & [->|[->| ->]]); reflexivity.
Qed.

Lemma char_app (c : ascii) (x : string) : String c EmptyString ++ x = String c x.
Proof. reflexivity. Qed.

(** One member of an object: the key, a colon and a space, the value. *)
Lemma member_scan (key vtext : string) (v : json) (fuel depth : nat) (rest : string)
      (acc : list (string * json)) :
  (exists c t, vtext = String c t /\ is_ws c = false) ->
  scan_once fuel depth (vtext ++ rest) = Decoded v rest ->
  after_value rest = true ->
  parse_members (S fuel) depth (encode_string key ++ ": " ++ vtext ++ rest) acc
  = match rest with
    | EmptyString => Invalid
    | String c2 r2 =>
        if Ascii.eqb c2 "}" then Decoded (JObj (PyDict.set key v acc)) r2
        else if Ascii.eqb c2 ","
        then parse_members fuel depth (skip_ws r2) (PyDict.set key v acc)
        else Invalid
    end.
Proof.
  intros (c & t & Ev & Hw) Hv Hr.
  unfold encode_string, dq. rewrite !append_assoc_s, !char_app.
  rewrite parse_members_step, Ascii.eqb_refl, escape_scan.
  change (skip_ws (": " ++ ?x)) with (String ":" (" " ++ x)).
  cbv iota. rewrite Ascii.eqb_refl.
  change (skip_ws (" " ++ ?x)) with (skip_ws x).
  assert (Es : skip_ws (vtext ++ rest) = vtext ++ rest).
  { rewrite Ev. cbn [append]. now apply skip_ws_head. }
  rewrite Es, Hv, after_value_skip_ws by assumption. reflexivity.
Qed.

Lemma prefix_nil (s : string) : String.prefix EmptyString s = true.
Proof. destruct s; reflexivity. Qed.

Lemma final_answer_scan (a : FinalAnswer) (rest : string) (fuel depth : nat) :
  after_value rest = true ->
  2 * names_length a + 1 <= fuel ->
  scan_once fuel (S depth) (encode_final_answer a ++ rest)
  = Decoded (final_answer_json a) rest.
Proof.
  intros Hr Hf. destruct fuel as [|fuel]; [lia|].
  destruct a as [s|z|b|names]; cbn [encode_final_answer final_answer_json].
  - apply encode_string_scan.
  - now apply encode_int_scan.
  - destruct b; simpl; unfold scan_scalar, constants; simpl; now rewrite prefix_nil.
  - apply encode_list_scan.
    + intros. apply encode_string_scan.
    + apply encode_string_head.
    + exact Hf.
Qed.

Lemma final_answer_head (a : FinalAnswer) :
  exists c t, encode_final_answer a = String c t /\ is_ws c = false.
Proof.
  destruct a as [s|z|b|names]; cbn [encode_final_answer].
  - destruct (encode_string_head s) as (c & t & E & H & _). eauto.
  - destruct (encode_int_head z) as (c & t & E & H & _). eauto.
  - destruct b; simpl; eauto.
  - unfold encode_list. simpl. eauto.
Qed.

(** The decoder reads the canonical text of a structured answer back. *)
Lemma serialize_scan (x : StructuredAnswer.t) (depth : nat) :
  exists fuel,
    scan_once fuel (S (S depth)) (skip_ws (serialize x)) = Decoded (to_json x) EmptyString.
Proof.
  destruct x as [step summary pages answer].
  exists (S (S (S (S (S (2 * length pages + 2 * names_length answer + 1)))))).
  unfold serialize, to_json.
  cbn [StructuredAnswer.step_by_step_analysis StructuredAnswer.reasoning_summary
       StructuredAnswer.relevant_pages StructuredAnswer.final_answer].
  change ("{" ++ ?x) with (String "{" x).
  rewrite skip_ws_head by reflexivity.
  rewrite scan_once_object.
  assert (Ek : forall k r, skip_ws (encode_string k ++ r) = encode_string k ++ r).
  { intros. unfold encode_string, dq. rewrite !append_assoc_s. reflexivity. }
  assert (Ek' : forall k r, exists t, encode_string k ++ r = String "034" t).
  { intros. unfold encode_string, dq. rewrite !append_assoc_s. simpl. eauto. }
  rewrite Ek. destruct (Ek' "step_by_step_analysis"
    (": " ++ encode_string step ++ ", " ++ encode_string "reasoning_summary" ++ ": "
       ++ encode_string summary ++ ", " ++ encode_string "relevant_pages" ++ ": "
       ++ encode_list encode_int pages ++ ", " ++ encode_string "final_answer" ++ ": "
       ++ encode_final_answer answer ++ "}")) as (t & Et).
  rewrite Et. change (Ascii.eqb "034" "}") with false. cbv iota. rewrite <- Et. clear t Et.
  rewrite (member_scan "step_by_step_analysis" (encode_string step) (JStr step));
    [| destruct (encode_string_head step) as (c & t & E & H & _); eauto
     | apply encode_string_scan | reflexivity].
  change (", " ++ ?x) with (String "," (" " ++ x)) at 1. cbv iota.
  change (Ascii.eqb "," "}") with false. change (Ascii.eqb "," ",") with true. cbv iota.
  change (skip_ws (" " ++ ?x)) with (skip_ws x). rewrite Ek.
  rewrite (member_scan "reasoning_summary" (encode_string summary) (JStr summary));
    [| destruct (encode_string_head summary) as (c & t & E & H & _); eauto
     | apply encode_string_scan | reflexivity].
  change (", " ++ ?x) with (String "," (" " ++ x)) at 1. cbv iota.
  change (Ascii.eqb "," "}") with false. change (Ascii.eqb "," ",") with true. cbv iota.
  change (skip_ws (" " ++ ?x)) with (skip_ws x). rewrite Ek.
  rewrite (member_scan "relevant_pages" (encode_list encode_int pages)
                       (JArr (map JInt pages)));
    [| unfold encode_list; simpl; eauto
     | apply encode_list_scan;
       [intros; now apply encode_int_scan | apply encode_int_head | lia]
     | reflexivity].
  change (", " ++ ?x) with (String "," (" " ++ x)) at 1. cbv iota.
  change (Ascii.eqb "," "}") with false. change (Ascii.eqb "," ",") with true. cbv iota.
  change (skip_ws (" " ++ ?x)) with (skip_ws x). rewrite Ek.
  rewrite (member_scan "final_answer" (encode_final_answer answer)
                       (final_answer_json answer));
    [| apply final_answer_head
     | apply final_answer_scan; [reflexivity | lia]
     | reflexivity].
  reflexivity.
Qed.

Lemma json_loads_serialize (x : StructuredAnswer.t) (recursion_limit : nat) :
  2 <= recursion_limit ->
  json_loads recursion_limit (serialize x) = Decoded (to_json x) EmptyString.
Proof.
  intros H. destruct recursion_limit as [|[|depth]]; try lia.
  destruct (serialize_scan x depth) as (fuel & Hs).
  eapply json_loads_decoded, Hs.
Qed.

(** *** The canonical text goes through the preprocessing unchanged *)

Lemma all_chars_app (p : ascii -> bool) (a b : string) :
  all_chars p (a ++ b) = all_chars p a && all_chars p b.
Proof.
  induction a as [|c a IH]; simpl; [reflexivity|].
  now rewrite IH, andb_assoc.
Qed.

Lemma split_one_line (s : string) :
  all_chars not_newline s = true -> split "010" s = [s].
Proof.
  induction s as [|c s IH]; simpl; [reflexivity|].
  intros H. apply andb_true_iff in H as (Hc & Hs).
  unfold not_newline in Hc. apply negb_true_iff in Hc. rewrite Hc.
  now rewrite IH.
Qed.

Lemma escape_char_one_line (c : ascii) : all_chars not_newline (escape_char c) = true.
Proof. destruct c as [[] [] [] [] [] [] [] []]; reflexivity. Qed.

Lemma escape_one_line (s : string) : all_chars not_newline (escape s) = true.
Proof.
  induction s as [|c s IH]; simpl; [reflexivity|].
  now rewrite all_chars_app, escape_char_one_line, IH.
Qed.

Lemma encode_string_one_line (s : string) :
  all_chars not_newline (encode_string s) = true.
Proof.
  unfold encode_string, dq. rewrite !all_chars_app, escape_one_line. reflexivity.
Qed.

Lemma uint_one_line (u : Decimal.uint) :
  all_chars not_newline (NilEmpty.string_of_uint u) = true.
Proof. induction u; simpl; auto. Qed.

Lemma encode_int_one_line (z : Z) : all_chars not_newline (encode_int z) = true.
Proof.
  unfold encode_int, NilZero.string_of_int, NilZero.string_of_uint.
  destruct z as [|p|p]; simpl; [reflexivity| |];
    destruct (Pos.to_uint p) eqn:E; try reflexivity;
    rewrite <- E; try apply uint_one_line;
    change (not_newline "-" && all_chars not_newline (NilEmpty.string_of_uint (Pos.to_uint p)) = true);
    now rewrite uint_one_line.
Qed.

Lemma encode_list_one_line {A : Type} (encode : A -> string) (l : list A) :
  (forall a, all_chars not_newline (encode a) = true) ->
  all_chars not_newline (encode_list encode l) = true.
Proof.
  intros H. unfold encode_list.
  rewrite !all_chars_app. simpl. rewrite andb_true_r.
  induction l as [|a [|b l] IH]; cbn [map join String.concat].
  - reflexivity.
  - apply H.
  - rewrite !all_chars_app, H. simpl. exact IH.
Qed.

Lemma encode_final_answer_one_line (a : FinalAnswer) :
  all_chars not_newline (encode_final_answer a) = true.
Proof.
  destruct a as [s|z|b|names]; cbn [encode_final_answer].
  - apply encode_string_one_line.
  - apply encode_int_one_line.
  - destruct b; reflexivity.
  - apply encode_list_one_line, encode_string_one_line.
Qed.

Lemma serialize_one_line (x : StructuredAnswer.t) :
  all_chars not_newline (serialize x) = true.
Proof.
  unfold serialize.
  rewrite !all_chars_app, !encode_string_one_line, encode_final_answer_one_line.
  rewrite encode_list_one_line by apply encode_int_one_line.
  reflexivity.
Qed.

Lemma rstrip_last (s : string) (c : ascii) :
  is_space c = false ->
  rstrip (s ++ String c EmptyString) = s ++ String c EmptyString.
Proof.
  intros Hc. induction s as [|a s IH]; simpl.
  - now rewrite Hc.
  - rewrite IH. destruct (s ++ String c EmptyString) eqn:E; [|reflexivity].
    destruct s; discriminate.
Qed.

Lemma serialize_shape (x : StructuredAnswer.t) :
  exists body, serialize x = String "{" (body ++ "}").
Proof.
  unfold serialize. eexists.
  change ("{" ++ ?s) with (String "{" s). f_equal.
  rewrite <- !append_assoc_s. reflexivity.
Qed.

Lemma strip_serialize (x : StructuredAnswer.t) : strip (serialize x) = serialize x.
Proof.
  destruct (serialize_shape x) as (body & ->).
  unfold strip. cbn [lstrip]. change (is_space "{") with false. cbv iota.
  change (String "{" (body ++ "}")) with (String "{" body ++ String "}" EmptyString).
  now apply rstrip_last.
Qed.

Lemma preprocess_serialize (x : StructuredAnswer.t) :
  StructuredOutputParser.preprocess (serialize x) = serialize x.
Proof.
  unfold StructuredOutputParser.preprocess. rewrite strip_serialize.
  destruct (contains "```" (serialize x)); [|reflexivity].
  rewrite split_one_line by apply serialize_one_line.
  cbn [fold_left]. unfold StructuredOutputParser.fence_step.
  rewrite strip_serialize.
  destruct (serialize_shape x) as (body & ->). reflexivity.
Qed.

End Roundtrip.

(** ** The claims on the parser and on the classifiers *)

Section ParserClaims.
Import PyStr Json StructuredAnswer StructuredOutputParser.

Lemma fill_has (k k0 : string) (v : json) (d : list (string * json)) :
  PyDict.has k (fill k0 v d) = String.eqb k k0 || PyDict.has k d.
Proof.
  unfold fill. destruct (PyDict.has k0 d) eqn:E.
  - destruct (String.eqb k k0) eqn:Ek; [|reflexivity].
    apply String.eqb_eq in Ek. subst. now rewrite E.
  - rewrite !has_existsb, keys_set, E. rewrite existsb_app. simpl.
    rewrite orb_false_r. apply orb_comm.
Qed.

(** The recovery step always yields the four keys. *)
Lemma recover_populated (recursion_limit : nat) (processed_text : string) :
  populated (recover recursion_limit processed_text) = true.
Proof.
  unfold recover.
  destruct (set_if "final_answer" _ _) as [|kv result]; [reflexivity|].
  unfold populated, answer_keys. cbn [forallb].
  rewrite !fill_has. simpl. reflexivity.
Qed.

Lemma on_error_populated (error_text text : string) :
  populated (on_error error_text text) = true.
Proof. reflexivity. Qed.



(** C7 fails as stated: the three fields the reply lacks are absent from
    the result, not defaulted. *)
Lemma parse_fenced_counterexample :
  field "final_answer" (parse 1000 EmptyString fenced_reply) = Some (JStr "42")
  /\ field "step_by_step_analysis" (parse 1000 EmptyString fenced_reply) = None
  /\ field "reasoning_summary" (parse 1000 EmptyString fenced_reply) = None
  /\ field "relevant_pages" (parse 1000 EmptyString fenced_reply) = None.
Proof. repeat split; vm_compute; reflexivity. Qed.

(** C7, as amended.  The fenced reply is decoded inside its fence and
    returned as decoded: a dict whose only key is [final_answer], with
    the value 42 as a string. *)
Theorem parse_fenced_reply :
  forall depth error_text,
    preprocess fenced_reply = bare_reply
    /\ parse (S depth) error_text fenced_reply = JObj [("final_answer", JStr "42")].
Proof.
  intros depth error_text. split; [vm_compute; reflexivity|].
  unfold parse. replace (preprocess fenced_reply) with bare_reply by (vm_compute; reflexivity).
  unfold loads.
  rewrite (json_loads_decoded (S depth) 10 bare_reply (JObj [("final_answer", JStr "42")])).
  - reflexivity.
  - vm_compute. reflexivity.
Qed.


End ParserClaims.

Section ParserExamples.
Import PyStr Json StructuredAnswer StructuredOutputParser.


(** The two examples of the specification. *)
Example classify_number :
  AnswerTypeClassifier.determine_answer_type "公司2022年总资产是多少" = "number".
Proof. reflexivity. Qed.

Example classify_names :
  AnswerTypeClassifier.determine_answer_type "哪些高管新上任" = "names".
Proof. reflexivity. Qed.

(** C10.  The classifier of the knowledge base and the classifier of the
    chain give the same answer type for every question. *)
Theorem classifiers_agree :
  forall question,
    KnowledgeBase.determine_answer_type question
    = AnswerTypeClassifier.determine_answer_type question.
Proof. intros question. reflexivity. Qed.

End ParserExamples.

(* ================================================================= *)
(** ** More on the reranker: what each variant returns *)

Section SortedFacts.
Context {A B : Type}.
Local Open Scope list_scope.

Lemma descending_map (f : A -> B) (key : B -> Q) (key' : A -> Q) (l : list A) :
  (forall a, key (f a) = key' a) ->
  descending key' l -> descending key (map f l).
Proof.
  intros Hk. unfold descending. induction 1 as [|a l Hs IH Ha]; simpl; constructor.
  - exact IH.
  - rewrite Forall_forall in *. intros b Hb.
    apply in_map_iff in Hb as (a' & <- & Ha'). rewrite !Hk. now apply Ha.
Qed.

Lemma StronglySorted_app_le (R : A -> A -> Prop) (l1 l2 : list A) :
  StronglySorted R (l1 ++ l2) ->
  forall a b, In a l1 -> In b l2 -> R a b.
Proof.
  induction l1 as [|x l1 IH]; simpl; intros Hs a b Ha Hb; [contradiction|].
  inversion Hs as [|? ? Hs' Hx]; subst.
  destruct Ha as [<-|Ha].
  - rewrite Forall_forall in Hx. apply Hx, in_or_app. now right.
  - now apply IH.
Qed.

Lemma combine_seq_In (start : nat) (l : list A) (i : nat) (a : A) :
  In (i, a) (combine (seq start (length l)) l) ->
  (start <= i)%nat /\ nth_error l (i - start) = Some a.
Proof.
  revert start. induction l as [|x l IH]; simpl; intros start H; [contradiction|].
  destruct H as [H|H].
  - injection H as <- <-. split; [lia|]. now rewrite Nat.sub_diag.
  - apply IH in H as (Hle & Hn). split; [lia|].
    replace (i - start)%nat with (S (i - S start)) by lia. exact Hn.
Qed.

Lemma NoDup_map_injective (f : A -> B) (l : list A) :
  (forall a b, f a = f b -> a = b) -> NoDup l -> NoDup (map f l).
Proof.
  intros Hf. induction 1 as [|a l Ha Hl IH]; simpl; constructor; [|exact IH].
  intros H. apply in_map_iff in H as (b & Hb & Hin). apply Hf in Hb. now subst b.
Qed.

Lemma combine_seq_fst (start n : nat) (l : list A) :
  (n <= length l)%nat -> map fst (combine (seq start n) l) = seq start n.
Proof.
  revert start l. induction n as [|n IH]; intros start [|x l] Hl; simpl in *;
    try reflexivity; try lia.
  f_equal. apply IH. lia.
Qed.

Lemma combine_firstn_r (n : nat) (l1 : list B) (l : list A) :
  length l1 = n -> combine l1 l = combine l1 (firstn n l).
Proof.
  revert l1 l. induction n as [|n IH]; intros [|y l1] [|x l] Hl; simpl in *;
    try reflexivity; try discriminate.
  f_equal. apply IH. lia.
Qed.

End SortedFacts.

Section RerankerMore.
Import Json Results Reranker.
Local Open Scope list_scope.

Variable post : nat -> JinaRequest -> HttpOutcome.
Variable predict : nat -> list (string * string) -> option (list Q).
Variable chat : nat -> Provider -> string -> list string -> option LlmReply.

(** What the CrossEncoder variant returns when its model scored the
    documents. *)
Lemma cross_encoder_scored self query documents (top_k : Z) w scores :
  _initialized self = true ->
  predict (length (predicted w)) (map (fun doc => (query, doc)) documents) = Some scores ->
  (length documents <= length scores)%nat ->
  fst (_cross_encoder_rerank predict self query documents top_k w)
  = map (fun '(idx, s) =>
           {| index := JInt (Z.of_nat idx); score := s;
              text := nth idx documents EmptyString;
              original_rank := JInt (Z.of_nat idx); rerank_score := s |})
        (firstn (Z.to_nat (Z.min top_k (Z.of_nat (length documents))))
                (PyList.sort_desc snd (combine (seq 0 (length documents)) scores))).
Proof.
  intros Hi Hp Hl. unfold _cross_encoder_rerank. rewrite Hi, Hp. simpl negb. cbv iota.
  destruct (Nat.ltb_spec (length scores) (length documents)); [lia|].
  simpl. rewrite sort_desc_length, length_combine, length_seq.
  now replace (Nat.min (length documents) (length scores)) with (length documents) by lia.
Qed.

Lemma scored_pairs_In (documents : list string) (scores : list Q) (i : nat) (s : Q) :
  In (i, s) (combine (seq 0 (length documents)) scores) ->
  (i < length documents)%nat /\ nth_error scores i = Some s.
Proof.
  intros H. split.
  - apply in_combine_l in H. apply in_seq in H. lia.
  - revert H. generalize (length documents). intros n H.
    assert (G : forall start (l : list Q),
               In (i, s) (combine (seq start n) l) ->
               nth_error l (i - start) = Some s /\ (start <= i)%nat).
    { clear H. induction n as [|n IH]; intros start [|x l] H; simpl in H;
        try contradiction.
      destruct H as [H|H].
      - injection H as <- <-. rewrite Nat.sub_diag. split; [reflexivity | lia].
      - apply IH in H as (Hn & Hle). split; [|lia].
        replace (i - start)%nat with (S (i - S start)) by lia. exact Hn. }
    apply G in H as (H & _). now rewrite Nat.sub_0_r in H.
Qed.

(** X1.  The CrossEncoder variant, when its model scores every document:
    the outcomes are in non-increasing order of score, no document is
    reported twice, and every outcome carries the index of a document,
    the text of that document and the score the model gave it. *)
Theorem cross_encoder_rerank_sorted :
  forall self query documents (top_k : Z) w scores,
    _initialized self = true ->
    predict (length (predicted w)) (map (fun doc => (query, doc)) documents) = Some scores ->
    (length documents <= length scores)%nat ->
    descending score (fst (_cross_encoder_rerank predict self query documents top_k w))
    /\ NoDup (map index (fst (_cross_encoder_rerank predict self query documents top_k w)))
    /\ Forall (fun r => exists i : nat,
                   index r = JInt (Z.of_nat i)
                   /\ original_rank r = JInt (Z.of_nat i)
                   /\ nth_error documents i = Some (text r)
                   /\ nth_error scores i = Some (score r)
                   /\ rerank_score r = score r)
              (fst (_cross_encoder_rerank predict self query documents top_k w)).
Proof.
  intros self query documents top_k w scores Hi Hp Hl.
  rewrite (cross_encoder_scored _ _ _ _ _ _ Hi Hp Hl).
  set (pairs := combine (seq 0 (length documents)) scores).
  set (n := Z.to_nat _).
  split; [|split].
  - apply descending_map with (key' := snd); [now intros [idx s]|].
    apply firstn_StronglySorted, sort_desc_sorted.
  - rewrite map_map.
    rewrite (map_ext _ (fun p => JInt (Z.of_nat (fst p)))) by now intros [idx s].
    rewrite <- (map_map fst (fun i => JInt (Z.of_nat i))).
    apply NoDup_map_injective.
    + intros a b H. injection H as H. lia.
    + rewrite <- firstn_map. apply firstn_NoDup.
      eapply Permutation_NoDup.
      * apply Permutation_map, Permutation_sym, sort_desc_perm.
      * unfold pairs. rewrite combine_seq_fst by lia. apply seq_NoDup.
  - apply Forall_forall. intros r Hr.
    apply in_map_iff in Hr as ([idx s] & <- & Hin).
    apply firstn_In in Hin.
    eapply Permutation_in in Hin; [|apply sort_desc_perm].
    apply scored_pairs_In in Hin as (Hlt & Hs).
    exists idx. simpl. repeat split; try reflexivity; try exact Hs.
    now apply nth_error_nth'.
Qed.

(** X2.  The CrossEncoder variant returns the best: a document it leaves
    out has a score that is not above the score of any outcome. *)
Theorem cross_encoder_rerank_keeps_the_best :
  forall self query documents (top_k : Z) w scores (i : nat) (s : Q),
    _initialized self = true ->
    predict (length (predicted w)) (map (fun doc => (query, doc)) documents) = Some scores ->
    (length documents <= length scores)%nat ->
    (i < length documents)%nat ->
    nth_error scores i = Some s ->
    ~ In (JInt (Z.of_nat i))
         (map index (fst (_cross_encoder_rerank predict self query documents top_k w))) ->
    Forall (fun r => (s <= score r)%Q)
           (fst (_cross_encoder_rerank predict self query documents top_k w)).
Proof.
  intros self query documents top_k w scores i s Hi Hp Hl Hlt Hs Hout.
  rewrite (cross_encoder_scored _ _ _ _ _ _ Hi Hp Hl) in *.
  set (pairs := combine (seq 0 (length documents)) scores) in *.
  set (n := Z.to_nat _) in *.
  assert (Hin : In (i, s) (PyList.sort_desc snd pairs)).
  { eapply Permutation_in; [apply Permutation_sym, sort_desc_perm|].
    unfold pairs. rewrite (combine_firstn_r (length documents)) by apply length_seq.
    clear Hout n. revert Hl Hlt Hs. generalize documents as docs.
    intros docs Hl Hlt Hs.
    assert (G : forall (l : list Q) start k,
               nth_error l k = Some s -> (k < length l)%nat ->
               In ((start + k)%nat, s) (combine (seq start (length l)) l)).
    { induction l as [|x l IH]; intros start [|k] Hn Hk; simpl in *; try lia.
      - injection Hn as ->. left. now rewrite Nat.add_0_r.
      - right. replace (start + S k)%nat with (S start + k)%nat by lia.
        apply IH; [exact Hn | lia]. }
    specialize (G (firstn (length docs) scores) 0%nat i).
    rewrite length_firstn in G.
    replace (Nat.min (length docs) (length scores)) with (length docs) in G by lia.
    apply G; [|lia].
    rewrite nth_error_firstn. destruct (Nat.ltb_spec i (length docs)); [exact Hs | lia]. }
  rewrite <- (firstn_skipn n (PyList.sort_desc snd pairs)) in Hin.
  apply in_app_or in Hin as [Hin|Hin].
  - exfalso. apply Hout. rewrite map_map. apply in_map_iff.
    exists (i, s). split; [reflexivity | exact Hin].
  - apply Forall_forall. intros r Hr.
    apply in_map_iff in Hr as ([idx s'] & <- & Hr). simpl.
    pose proof (sort_desc_sorted snd pairs) as Hsorted. unfold descending in Hsorted.
    rewrite <- (firstn_skipn n (PyList.sort_desc snd pairs)) in Hsorted.
    exact (StronglySorted_app_le _ _ _ Hsorted (idx, s') (i, s) Hr Hin).
Qed.

End RerankerMore.

(** *** The LLM variant *)

Section LlmMore.
Import Json Results Reranker.
Local Open Scope list_scope.

Variable chat : nat -> Provider -> string -> list string -> option LlmReply.

(** The entry the loop of the LLM variant builds for a document. *)
Lemma llm_results_entries (rankings : list Q) (top_k : Z) :
  forall (docs : list string) (start : nat) (processed : Z),
    (processed < top_k)%Z ->
    llm_results rankings top_k processed (PyList.enumerate_from start docs)
    = map (fun '(i, doc) =>
             let s := match nth_error rankings i with Some r => r | None => 0%Q end in
             {| index := JInt (Z.of_nat i); score := s; text := doc;
                original_rank := JInt (Z.of_nat i); rerank_score := s |})
          (PyList.enumerate_from start (firstn (Z.to_nat (top_k - processed)) docs)).
Proof.
  induction docs as [|doc docs IH]; intros start processed Hp.
  - now rewrite firstn_nil.
  - replace (Z.to_nat (top_k - processed)) with (S (Z.to_nat (top_k - (processed + 1)))) by lia.
    cbn [PyList.enumerate_from llm_results firstn map].
    destruct (Z.leb_spec top_k (processed + 1)).
    + replace (Z.to_nat (top_k - (processed + 1))) with 0%nat by lia. reflexivity.
    + f_equal. now apply IH.
Qed.

(** With [top_k] below one the loop still handles the first document. *)
Lemma llm_results_first (rankings : list Q) (top_k : Z) (doc : string) (docs : list string) :
  (top_k <= 0)%Z ->
  llm_results rankings top_k 0 (PyList.enumerate (doc :: docs))
  = [ {| index := JInt 0;
         score := match nth_error rankings 0 with Some r => r | None => 0%Q end;
         text := doc;
         original_rank := JInt 0;
         rerank_score := match nth_error rankings 0 with Some r => r | None => 0%Q end |} ].
Proof.
  intros Hk. unfold PyList.enumerate. cbn [PyList.enumerate_from llm_results].
  destruct (Z.leb_spec top_k (0 + 1)); [reflexivity | lia].
Qed.

(** What the LLM variant returns when the service answered. *)
Lemma llm_answered self query documents (top_k : Z) w rankings :
  _initialized self = true -> llm_client self = true ->
  (provider self = openai
   /\ chat (length (asked w)) openai query documents = Some (BlockRankings rankings))
  \/ (provider self = dashscope
      /\ rankings = map (fun _ => 0%Q) documents
      /\ exists content,
           chat (length (asked w)) dashscope query documents = Some (MessageContent content)) ->
  fst (_llm_rerank chat self query documents top_k w)
  = PyList.sort_desc rerank_score
      (llm_results rankings top_k 0 (PyList.enumerate documents)).
Proof.
  intros Hi Hc H. unfold _llm_rerank. rewrite Hi, Hc. simpl negb. simpl orb. cbv iota.
  destruct H as [(Hp & Hr)|(Hp & -> & content & Hr)]; rewrite Hp, Hr; reflexivity.
Qed.

(** X3.  The LLM variant with the dashscope provider gives every document
    the score zero, so for [1 <= top_k] its outcomes are the first
    [min(top_k, len(documents))] documents in their input order. *)
Theorem llm_rerank_dashscope_keeps_order :
  forall self query documents (top_k : Z) w content,
    _initialized self = true -> llm_client self = true -> provider self = dashscope ->
    chat (length (asked w)) dashscope query documents = Some (MessageContent content) ->
    (1 <= top_k)%Z ->
    map text (fst (_llm_rerank chat self query documents top_k w))
    = firstn (Z.to_nat top_k) documents
    /\ map index (fst (_llm_rerank chat self query documents top_k w))
       = map (fun i => JInt (Z.of_nat i))
             (seq 0 (length (firstn (Z.to_nat top_k) documents)))
    /\ Forall (fun r => score r = 0%Q /\ rerank_score r = 0%Q)
              (fst (_llm_rerank chat self query documents top_k w)).
Proof.
  intros self query documents top_k w content Hi Hc Hp Hr Hk.
  rewrite (llm_answered self query documents top_k w (map (fun _ => 0%Q) documents) Hi Hc)
    by (right; repeat split; [exact Hp | now exists content]).
  unfold PyList.enumerate. rewrite llm_results_entries by lia.
  rewrite Z.sub_0_r.
  set (entry := fun '(i, doc) => _).
  assert (Hz : Forall (fun r => score r = 0%Q /\ rerank_score r = 0%Q)
                 (map entry (PyList.enumerate_from 0 (firstn (Z.to_nat top_k) documents)))).
  { apply Forall_forall. intros r Hin.
    apply in_map_iff in Hin as ([i doc] & <- & _). simpl.
    rewrite nth_error_map. destruct (nth_error documents i); simpl; now split. }
  rewrite (sort_desc_constant rerank_score _ 0%Q).
  - split; [|split].
    + rewrite map_map. rewrite (map_ext _ snd) by now intros [i doc].
      apply enumerate_from_snd.
    + rewrite map_map.
      rewrite (map_ext _ (fun p => JInt (Z.of_nat (fst p)))) by now intros [i doc].
      rewrite <- (map_map fst (fun i => JInt (Z.of_nat i))).
      now rewrite enumerate_from_fst.
    + exact Hz.
  - eapply Forall_impl; [|exact Hz]. intros r (_ & ->). reflexivity.
Qed.

(** X4.  The LLM variant looks only at the first [top_k] documents: for
    [1 <= top_k], when the service answered, the outcomes are these
    documents, each once, sorted by non-increasing score; a document
    further down the list is never returned, whatever the service said
    of it.  The score of document [i] is the [i]-th of the rankings, and
    zero when the service gave fewer. *)
Theorem llm_rerank_reorders_the_first :
  forall self query documents (top_k : Z) w rankings,
    _initialized self = true -> llm_client self = true -> provider self = openai ->
    chat (length (asked w)) openai query documents = Some (BlockRankings rankings) ->
    (1 <= top_k)%Z ->
    descending score (fst (_llm_rerank chat self query documents top_k w))
    /\ Permutation (map index (fst (_llm_rerank chat self query documents top_k w)))
                   (map (fun i => JInt (Z.of_nat i))
                        (seq 0 (length (firstn (Z.to_nat top_k) documents))))
    /\ Forall (fun r => exists i : nat,
                   index r = JInt (Z.of_nat i)
                   /\ (Z.of_nat i < top_k)%Z
                   /\ nth_error documents i = Some (text r)
                   /\ score r = nth i rankings 0%Q
                   /\ rerank_score r = score r)
              (fst (_llm_rerank chat self query documents top_k w)).
Proof.
  intros self query documents top_k w rankings Hi Hc Hp Hr Hk.
  rewrite (llm_answered self query documents top_k w rankings Hi Hc)
    by (left; now split).
  unfold PyList.enumerate. rewrite llm_results_entries by lia.
  rewrite Z.sub_0_r.
  set (entry := fun '(i, doc) => _).
  set (docs := firstn (Z.to_nat top_k) documents).
  split; [|split].
  - assert (E : forall l : list Ranked,
               descending rerank_score l -> Forall (fun r => rerank_score r = score r) l ->
               descending score l).
    { unfold descending. induction 1 as [|a l Hs IH Ha]; intros Hf; constructor.
      - apply IH. now inversion Hf.
      - inversion Hf as [|? ? Ea El]; subst. rewrite Forall_forall in *.
        intros b Hb. rewrite <- Ea, <- (El b Hb). now apply Ha. }
    apply E; [apply sort_desc_sorted|].
    apply sort_desc_Forall, Forall_forall. intros r Hin.
    now apply in_map_iff in Hin as ([i doc] & <- & _).
  - eapply Permutation_trans; [apply Permutation_map, sort_desc_perm|].
    rewrite map_map.
    rewrite (map_ext _ (fun p => JInt (Z.of_nat (fst p)))) by now intros [i doc].
    rewrite <- (map_map fst (fun i => JInt (Z.of_nat i))).
    now rewrite enumerate_from_fst.
  - apply sort_desc_Forall, Forall_forall. intros r Hin.
    apply in_map_iff in Hin as ([i doc] & <- & Hin).
    assert (G : forall (l : list string) start,
               In (i, doc) (PyList.enumerate_from start l) ->
               (start <= i)%nat /\ nth_error l (i - start) = Some doc).
    { induction l as [|x l IH]; simpl; intros start H; [contradiction|].
      destruct H as [H|H].
      - injection H as <- <-. rewrite Nat.sub_diag. split; [lia | reflexivity].
      - apply IH in H as (Hle & Hn). split; [lia|].
        replace (i - start)%nat with (S (i - S start)) by lia. exact Hn. }
    apply G in Hin as (_ & Hn). rewrite Nat.sub_0_r in Hn. unfold docs in Hn.
    assert (Hlt : (i < Z.to_nat top_k)%nat).
    { assert (Hs : nth_error (firstn (Z.to_nat top_k) documents) i <> None) by congruence.
      apply nth_error_Some in Hs. rewrite length_firstn in Hs. lia. }
    rewrite nth_error_firstn in Hn.
    destruct (Nat.ltb_spec i (Z.to_nat top_k)); [|lia].
    exists i. simpl. repeat split; try reflexivity; try lia; try exact Hn.
    destruct (nth_error rankings i) as [r|] eqn:En.
    + symmetry. now apply nth_error_nth.
    + symmetry. apply nth_overflow. now apply nth_error_None.
Qed.

(** X5.  The test that ends the loop of the LLM variant comes after the
    first document was handled: with [top_k] zero or negative and a
    service that answered, the variant still returns one outcome, the
    first document. *)
Theorem llm_rerank_returns_one_for_no_top_k :
  forall self query doc documents (top_k : Z) w rankings,
    _initialized self = true -> llm_client self = true -> provider self = openai ->
    chat (length (asked w)) openai query (doc :: documents) = Some (BlockRankings rankings) ->
    (top_k <= 0)%Z ->
    map text (fst (_llm_rerank chat self query (doc :: documents) top_k w)) = [doc]
    /\ map index (fst (_llm_rerank chat self query (doc :: documents) top_k w)) = [JInt 0].
Proof.
  intros self query doc documents top_k w rankings Hi Hc Hp Hr Hk.
  rewrite (llm_answered self query (doc :: documents) top_k w rankings Hi Hc)
    by (left; now split).
  rewrite llm_results_first by exact Hk. now split.
Qed.

End LlmMore.

(** *** Putting the search results back together *)

Section AssembleMore.
Import Json Results Reranker.
Local Open Scope list_scope.

Variable post : nat -> JinaRequest -> HttpOutcome.
Variable predict : nat -> list (string * string) -> option (list Q).
Variable chat : nat -> Provider -> string -> list string -> option LlmReply.

(** The loop of [rerank_search_results]: it appends one result for each
    outcome, a copy of the search result the outcome points at. *)
Lemma assemble_appends (search_results : list SearchResult) :
  forall (reranked : list Ranked) (final_results out : list SearchResult),
    assemble search_results reranked final_results = Some out ->
    exists added,
      out = final_results ++ added
      /\ map Results.rerank_score added = map (fun r => Some (Reranker.rerank_score r)) reranked
      /\ map rerank_position added
         = map (fun i => Some (Z.of_nat i + 1)%Z) (seq (length final_results) (length reranked))
      /\ Forall (copy_of search_results) added.
Proof.
  induction reranked as [|r reranked IH]; intros final_results out H; simpl in H.
  - injection H as <-. exists []. rewrite List.app_nil_r. repeat split; constructor.
  - destruct (py_getitem search_results (index r)) as [original|] eqn:Eg; [|discriminate].
    destruct (index r) as [| | z | | | | |] eqn:Ei; try discriminate.
    + apply IH in H as (added & -> & Hs & Hp & Hc).
      eexists (_ :: added). rewrite <- List.app_assoc. split; [reflexivity|].
      rewrite length_app, Nat.add_1_r in Hp.
      cbn [map seq]. rewrite Hs, Hp. repeat split.
      constructor; [|exact Hc].
      exists (if b then 1 else 0)%Z, original. simpl. now repeat split.
    + apply IH in H as (added & -> & Hs & Hp & Hc).
      eexists (_ :: added). rewrite <- List.app_assoc. split; [reflexivity|].
      rewrite length_app, Nat.add_1_r in Hp.
      cbn [map seq]. rewrite Hs, Hp. repeat split.
      constructor; [|exact Hc].
      exists z, original. simpl. now repeat split.
Qed.

(** X6.  What [rerank_search_results] returns, whenever it returns: one
    result for each outcome of [rerank], in the order of the outcomes;
    the result at place [i] has [rerank_position] [i + 1] and the
    [rerank_score] of the outcome; and it is a copy of the search result
    at [original_position - 1]: same id, content, metadata and scores. *)
Theorem rerank_search_results_annotates :
  forall self query search_results (top_k : Z) w results,
    fst (rerank_search_results post predict chat self query search_results top_k w)
    = Some results ->
    map Results.rerank_score results
    = map (fun r => Some (Reranker.rerank_score r))
          (fst (rerank post predict chat self query (map content search_results) top_k w))
    /\ map rerank_position results
       = map (fun i => Some (Z.of_nat i + 1)%Z) (seq 0 (length results))
    /\ Forall (copy_of search_results) results.
Proof.
  intros self query search_results top_k w results H.
  unfold rerank_search_results in H.
  destruct search_results as [|c search_results].
  - injection H as <-. repeat split; constructor.
  - destruct (rerank _ _ _ _ _ _ _ _) as [reranked w'] eqn:Er.
    cbn [fst] in *.
    apply assemble_appends in H as (added & -> & Hs & Hp & Hc).
    cbn [app length] in *. repeat split; try assumption.
    rewrite Hp. f_equal. f_equal.
    apply (f_equal (@length _)) in Hs. now rewrite !length_map in Hs.
Qed.

Lemma assemble_total (search_results : list SearchResult) :
  forall (reranked : list Ranked) (final_results : list SearchResult),
    Forall (points_inside (length search_results)) reranked ->
    exists out, assemble search_results reranked final_results = Some out.
Proof.
  induction reranked as [|r reranked IH]; intros final_results H; simpl.
  - now eexists.
  - inversion H as [|? ? (i & Ei & Hlt) H']; subst.
    rewrite Ei. unfold py_getitem, PyList.index.
    destruct (Z.leb_spec 0 (Z.of_nat i)); [|lia].
    rewrite Nat2Z.id.
    destruct (nth_error search_results i) eqn:En.
    + now apply IH.
    + apply nth_error_None in En. lia.
Qed.

Lemma pass_through_points_inside (documents : list string) (top_k : Z) :
  Forall (points_inside (length documents)) (pass_through documents top_k).
Proof.
  apply Forall_forall. intros r Hr.
  apply In_nth_error in Hr as (n & Hn).
  assert (Hlen : (n < length (pass_through documents top_k))%nat)
    by (apply nth_error_Some; congruence).
  pose proof (pass_through_index documents top_k) as Hi.
  apply (f_equal (fun l => nth_error l n)) in Hi.
  rewrite !nth_error_map, Hn in Hi. simpl in Hi.
  rewrite nth_error_seq in Hi.
  destruct (Nat.ltb_spec n (length (pass_through documents top_k))); [|lia].
  simpl in Hi. injection Hi as Hi.
  exists n. split; [exact Hi|].
  rewrite pass_through_length_take in Hlen.
  eapply Nat.lt_le_trans; [exact Hlen|].
  unfold PyList.take. destruct (0 <=? top_k)%Z; rewrite length_firstn; lia.
Qed.

Lemma llm_results_points_inside (rankings : list Q) (top_k : Z) :
  forall (docs : list string) (start : nat) (processed : Z),
    Forall (points_inside (start + length docs))
           (llm_results rankings top_k processed (PyList.enumerate_from start docs)).
Proof.
  induction docs as [|doc docs IH]; intros start processed;
    cbn [PyList.enumerate_from llm_results]; [constructor|].
  assert (H0 : points_inside (start + length (doc :: docs))
                 {| index := JInt (Z.of_nat start);
                    score := match nth_error rankings start with Some r => r | None => 0%Q end;
                    text := doc;
                    original_rank := JInt (Z.of_nat start);
                    rerank_score := match nth_error rankings start with
                                    | Some r => r | None => 0%Q end |})
    by (exists start; simpl; split; [reflexivity | lia]).
  destruct (top_k <=? processed + 1)%Z; constructor; try exact H0; try constructor.
  replace (start + length (doc :: docs))%nat with (S start + length docs)%nat
    by (simpl; lia).
  apply IH.
Qed.

Lemma rerank_points_inside self query documents (top_k : Z) w :
  model_type self <> jina_api \/ degraded self = true ->
  Forall (points_inside (length documents))
         (fst (rerank post predict chat self query documents top_k w)).
Proof.
  intros H. unfold rerank.
  destruct documents as [|doc documents]; [constructor|].
  set (docs := doc :: documents).
  pose proof (pass_through_points_inside docs top_k) as Hpass.
  unfold degraded in H.
  destruct (model_type self) eqn:Em.
  - unfold _cross_encoder_rerank.
    destruct (negb (_initialized self)); [exact Hpass|].
    destruct (predict _ _) as [scores|]; [|exact Hpass].
    destruct (Nat.ltb_spec (length scores) (length docs)); [exact Hpass|].
    cbn [fst]. apply Forall_forall. intros r Hr.
    apply in_map_iff in Hr as ([idx s] & <- & Hin).
    apply firstn_In in Hin.
    eapply Permutation_in in Hin; [|apply sort_desc_perm].
    apply in_combine_l, in_seq in Hin.
    exists idx. cbn [index]. split; [reflexivity | lia].
  - destruct H as [H|H]; [congruence|].
    unfold _jina_api_rerank. now rewrite H.
  - unfold _llm_rerank.
    destruct (negb (_initialized self) || negb (llm_client self)); [exact Hpass|].
    assert (Hl : forall rankings,
               Forall (points_inside (length docs))
                 (PyList.sort_desc rerank_score
                    (llm_results rankings top_k 0 (PyList.enumerate docs)))).
    { intros. apply sort_desc_Forall.
      exact (llm_results_points_inside rankings top_k docs 0 0). }
    destruct (provider self); try exact Hpass;
      destruct (chat _ _ _ _) as [[scores|content]|]; cbn [fst]; auto.
Qed.

(** X7.  With the CrossEncoder or the LLM variant, and with any variant
    in degraded mode, [rerank_search_results] does not raise: every
    outcome points at a search result, and the call returns one result
    for each outcome. *)
Theorem rerank_search_results_returns :
  forall self query search_results (top_k : Z) w,
    model_type self <> jina_api \/ degraded self = true ->
    exists results,
      fst (rerank_search_results post predict chat self query search_results top_k w)
      = Some results
      /\ length results
         = length (fst (rerank post predict chat self query
                               (map content search_results) top_k w)).
Proof.
  intros self query search_results top_k w H.
  unfold rerank_search_results.
  destruct search_results as [|c search_results]; [now exists []|].
  pose proof (rerank_points_inside self query (map content (c :: search_results)) top_k w H)
    as Hin.
  destruct (rerank _ _ _ _ _ _ _ _) as [reranked w'] eqn:Er. cbn [fst] in *.
  rewrite length_map in Hin.
  destruct (assemble_total (c :: search_results) reranked [] Hin) as (out & Ho).
  exists out. split; [exact Ho|].
  apply assemble_appends in Ho as (added & -> & Hs & _).
  apply (f_equal (@length _)) in Hs. now rewrite !length_map in Hs.
Qed.

(** X8.  Whatever the variant and whatever its collaborator answers, the
    text of an outcome of [rerank] is the document at the index of the
    outcome; the one exception is the Jina variant, which gives the empty
    text to an index past the end of the list. *)
Theorem rerank_text_is_the_indexed_document :
  forall self query documents (top_k : Z) w,
    Forall (fun r => py_getitem documents (index r) = Some (text r)
                     \/ (model_type self = jina_api /\ text r = EmptyString
                         /\ py_lt_len (index r) (length documents) = Some false))
           (fst (rerank post predict chat self query documents top_k w)).
Proof.
  intros self query documents top_k w.
  assert (Hpass : Forall (fun r => py_getitem documents (index r) = Some (text r))
                         (pass_through documents top_k)).
  { unfold pass_through, PyList.enumerate, PyList.take.
    apply Forall_forall. intros r Hr.
    apply in_map_iff in Hr as ([i doc] & <- & Hin). simpl.
    assert (G : forall (l : list string) start,
               In (i, doc) (PyList.enumerate_from start l) ->
               (start <= i)%nat /\ nth_error l (i - start) = Some doc).
    { induction l as [|x l IH]; simpl; intros start H; [contradiction|].
      destruct H as [H|H].
      - injection H as <- <-. rewrite Nat.sub_diag. split; [lia | reflexivity].
      - apply IH in H as (Hle & Hn). split; [lia|].
        replace (i - start)%nat with (S (i - S start)) by lia. exact Hn. }
    apply G in Hin as (_ & Hn). rewrite Nat.sub_0_r in Hn.
    unfold PyList.index. destruct (Z.leb_spec 0 (Z.of_nat i)); [|lia].
    rewrite Nat2Z.id.
    destruct (0 <=? top_k)%Z; rewrite nth_error_firstn in Hn;
      destruct (_ <? _)%nat; congruence. }
  assert (Hpass' : Forall (fun r => py_getitem documents (index r) = Some (text r)
                     \/ (model_type self = jina_api /\ text r = EmptyString
                         /\ py_lt_len (index r) (length documents) = Some false))
                          (pass_through documents top_k))
    by (eapply Forall_impl; [|exact Hpass]; intros; now left).
  unfold rerank. destruct documents as [|doc documents]; [constructor|].
  set (docs := doc :: documents) in *.
  destruct (model_type self) eqn:Em.
  - unfold _cross_encoder_rerank.
    destruct (negb (_initialized self)); [exact Hpass'|].
    destruct (predict _ _) as [scores|]; [|exact Hpass'].
    destruct (Nat.ltb_spec (length scores) (length docs)); [exact Hpass'|].
    cbn [fst]. apply Forall_forall. intros r Hr.
    apply in_map_iff in Hr as ([idx s] & <- & Hin).
    apply firstn_In in Hin.
    eapply Permutation_in in Hin; [|apply sort_desc_perm].
    apply in_combine_l, in_seq in Hin.
    left. cbn [index text py_getitem]. unfold PyList.index.
    destruct (Z.leb_spec 0 (Z.of_nat idx)); [|lia].
    rewrite Nat2Z.id. apply nth_error_nth'. lia.
  - unfold _jina_api_rerank.
    destruct (negb (_initialized self) || negb (jina_headers self)); [exact Hpass'|].
    destruct (post _ _) as [|status body]; [exact Hpass'|].
    destruct (status =? 200)%Z; [|exact Hpass'].
    destruct (jina_results docs body) as [results|] eqn:Er; [|exact Hpass'].
    cbn [fst].
    assert (G : forall items out,
               jina_entries docs items = Some out ->
               Forall (fun r => py_getitem docs (index r) = Some (text r)
                        \/ (jina_api = jina_api /\ text r = EmptyString
                            /\ py_lt_len (index r) (length docs) = Some false)) out).
    { induction items as [|[i item] items IH]; simpl; intros out H.
      - injection H as <-. constructor.
      - destruct (jina_entry docs i item) as [e|] eqn:Ee; [|discriminate].
        destruct (jina_entries docs items) as [es|]; [|discriminate].
        injection H as <-. constructor; [|now apply IH].
        unfold jina_entry in Ee.
        destruct (py_float _); [|discriminate].
        destruct (py_lt_len _ _) as [[|]|] eqn:El; try discriminate.
        + destruct (py_getitem docs _) eqn:Eg; [|discriminate].
          injection Ee as <-. left. exact Eg.
        + injection Ee as <-. right. now repeat split. }
    unfold jina_results in Er.
    destruct body as [result|]; [|discriminate].
    destruct (py_in "results" result) as [[|]|]; try discriminate.
    + destruct result; try discriminate.
      destruct (PyDict.get "results" _); [|discriminate].
      destruct (dict_items _); [|discriminate].
      now apply G in Er.
    + injection Er as <-. constructor.
  - unfold _llm_rerank.
    destruct (negb (_initialized self) || negb (llm_client self)); [exact Hpass'|].
    assert (Hl : forall rankings,
               Forall (fun r => py_getitem docs (index r) = Some (text r)
                        \/ (llm = jina_api /\ text r = EmptyString
                            /\ py_lt_len (index r) (length docs) = Some false))
                 (PyList.sort_desc rerank_score
                    (llm_results rankings top_k 0 (PyList.enumerate docs)))).
    { intros. apply sort_desc_Forall.
      assert (G : forall (l : list string) start processed,
                 (forall i doc, nth_error l i = Some doc ->
                                nth_error docs (start + i) = Some doc) ->
                 Forall (fun r => py_getitem docs (index r) = Some (text r)
                          \/ (llm = jina_api /\ text r = EmptyString
                              /\ py_lt_len (index r) (length docs) = Some false))
                   (llm_results rankings top_k processed (PyList.enumerate_from start l))).
      { induction l as [|x l IH]; intros start processed Hn;
          cbn [PyList.enumerate_from llm_results]; [constructor|].
        assert (H0 : py_getitem docs (JInt (Z.of_nat start)) = Some x).
        { cbn [py_getitem]. unfold PyList.index.
          destruct (Z.leb_spec 0 (Z.of_nat start)); [|lia].
          rewrite Nat2Z.id. specialize (Hn 0%nat x eq_refl).
          now rewrite Nat.add_0_r in Hn. }
        destruct (top_k <=? processed + 1)%Z; constructor;
          try (left; exact H0); try constructor.
        apply IH. intros i d Hd. specialize (Hn (S i) d Hd).
        now replace (S start + i)%nat with (start + S i)%nat by lia. }
      apply G. intros i d Hd. exact Hd. }
    destruct (provider self); try exact Hpass';
      destruct (chat _ _ _ _) as [[scores|content]|]; cbn [fst]; auto.
Qed.

End AssembleMore.

(* ================================================================= *)
(** ** More on the parsers *)

Section ClientParser.
Import PyStr Json StructuredAnswer StructuredOutputParser QwenLLMClient.

(** The client's parser in terms of the brace span. *)
Lemma parse_structured_response_span (recursion_limit : nat) (response_text answer_type : string) :
  parse_structured_response recursion_limit response_text answer_type
  = match brace_span response_text with
    | Some span =>
        match json_loads recursion_limit span with
        | Decoded v _ => Some v
        | Invalid => Some (json_decode_error response_text)
        | _ => None
        end
    | None => Some (no_json_found response_text)
    end.
Proof.
  unfold parse_structured_response, brace_span.
  destruct (negb (find "{" response_text =? -1)%Z
            && negb (rfind "}" response_text =? -1)%Z
            && (find "{" response_text <? rfind "}" response_text)%Z);
    reflexivity.
Qed.

(** X12.  [parse_structured_response] of the client looks at the span
    from the first opening brace to the last closing one, the span of the
    second step of [StructuredOutputParser.parse].  What it returns is
    the value decoded from that span, as decoded, or a structure with the
    four keys whose [final_answer] is the whole response. *)
Theorem parse_structured_response_decoded_or_default :
  forall recursion_limit response_text answer_type v,
    parse_structured_response recursion_limit response_text answer_type = Some v ->
    (exists span,
        brace_span response_text = Some span
        /\ json_loads recursion_limit span = Decoded v EmptyString)
    \/ (populated v = true /\ field "final_answer" v = Some (JStr response_text)).
Proof.
  intros recursion_limit response_text answer_type v.
  rewrite parse_structured_response_span.
  destruct (brace_span response_text) as [span|].
  - destruct (json_loads recursion_limit span) as [v' rest| | |] eqn:E; try discriminate.
    + intros [= <-]. left. exists span. split; [reflexivity|].
      rewrite E. f_equal.
      unfold json_loads in E.
      destruct (scan_once _ _ _) as [v'' rest'| | |]; try discriminate.
      destruct (skip_ws rest'); [now injection E as _ <- | discriminate].
    + intros [= <-]. right. split; reflexivity.
  - intros [= <-]. right. split; reflexivity.
Qed.

Lemma find_head (c : ascii) (s : string) : find c (String c s) = 0%Z.
Proof. simpl. now rewrite Ascii.eqb_refl. Qed.

Lemma rfind_last (c : ascii) (s : string) :
  rfind c (s ++ String c EmptyString) = Z.of_nat (String.length s).
Proof.
  induction s as [|a s IH].
  - simpl. now rewrite Ascii.eqb_refl.
  - cbn [append rfind String.length]. rewrite IH.
    destruct (Z.eqb_spec (Z.of_nat (String.length s)) (-1)); lia.
Qed.

Lemma substring_all (s : string) : String.substring 0 (String.length s) s = s.
Proof. induction s as [|c s IH]; simpl; [reflexivity | now rewrite IH]. Qed.

Lemma length_append (a b : string) :
  String.length (a ++ b) = (String.length a + String.length b)%nat.
Proof. induction a as [|c a IH]; simpl; [reflexivity | now rewrite IH]. Qed.

(** The brace span of a text that starts with an opening brace and ends
    with a closing one is the text. *)
Lemma brace_span_whole (body : string) :
  brace_span (String "{" (body ++ "}")) = Some (String "{" (body ++ "}")).
Proof.
  unfold brace_span. rewrite find_head.
  change (String "{" (body ++ "}")) with (String "{" body ++ String "}" EmptyString).
  rewrite rfind_last. cbn [String.length].
  destruct (Z.ltb_spec 0 (Z.of_nat (S (String.length body)))); [|lia].
  destruct (Z.eqb_spec (Z.of_nat (S (String.length body))) (-1)); [lia|].
  cbn [negb andb Z.eqb]. unfold slice. f_equal.
  replace (Z.to_nat (Z.of_nat (S (String.length body)) + 1 - 0))
    with (String.length (String "{" body ++ String "}" EmptyString)).
  - apply substring_all.
  - rewrite length_append. simpl. lia.
Qed.


End ClientParser.

Section RecoveryTypes.
Import PyStr Json Re StructuredOutputParser.
Local Open Scope list_scope.

Lemma parse_items_array (fuel : nat) :
  forall depth s acc v rest,
    parse_items fuel depth s acc = Decoded v rest -> exists l, v = JArr l.
Proof.
  induction fuel as [|fuel IH]; intros depth s acc v rest; cbn [parse_items];
    [discriminate|].
  destruct (scan_once fuel depth s) as [v0 r0| | |]; try discriminate.
  destruct (skip_ws r0) as [|c r]; [discriminate|].
  destruct (Ascii.eqb c "]").
  - intros [= <- _]. now eexists.
  - destruct (Ascii.eqb c ","); [apply IH | discriminate].
Qed.

(** A text that starts with an opening bracket decodes to a list, if it
    decodes. *)
Lemma loads_bracket_array (recursion_limit : nat) (s : string) (v : json) (rest : string) :
  json_loads recursion_limit (String "[" s) = Decoded v rest -> exists l, v = JArr l.
Proof.
  unfold json_loads.
  change (skip_ws (String "[" s)) with (String "[" s).
  destruct (2 * String.length (String "[" s) + 1)%nat as [|fuel]; [discriminate|].
  cbn [scan_once].
  change (Ascii.eqb "[" "034") with false. change (Ascii.eqb "[" "{") with false.
  change (Ascii.eqb "[" "[") with true. cbv iota.
  destruct recursion_limit as [|depth]; [discriminate|].
  destruct (skip_ws s) as [|c1 r1]; [discriminate|].
  destruct (Ascii.eqb c1 "]").
  - destruct (skip_ws r1); [|discriminate]. intros [= <- _]. now eexists.
  - destruct (parse_items fuel depth (String c1 r1) []) as [v' rest'| | |] eqn:E;
      try discriminate.
    destruct (skip_ws rest'); [|discriminate].
    intros [= <- _]. eapply parse_items_array, E.
Qed.

Lemma set_typed (k : string) (v : json) (d : list (string * json)) :
  schema_typed k v -> typed_dict d -> typed_dict (PyDict.set k v d).
Proof.
  intros Hv. unfold typed_dict.
  induction 1 as [|[k' v'] d Hkv Hd IH]; simpl.
  - repeat constructor. exact Hv.
  - destruct (String.eqb_spec k k') as [->|_]; constructor; try assumption.
Qed.

Lemma set_if_typed (k : string) (v : option json) (d : list (string * json)) :
  (forall x, v = Some x -> schema_typed k x) ->
  typed_dict d -> typed_dict (set_if k v d).
Proof.
  intros Hv Hd. destruct v as [x|]; simpl; [|exact Hd].
  apply set_typed; [now apply Hv | exact Hd].
Qed.

Lemma fill_typed (k : string) (v : json) (d : list (string * json)) :
  schema_typed k v -> typed_dict d -> typed_dict (fill k v d).
Proof.
  intros Hv Hd. unfold fill. destruct (PyDict.has k d); [exact Hd|].
  now apply set_typed.
Qed.

Lemma typed_get (k : string) (v : json) (d : list (string * json)) :
  typed_dict d -> PyDict.get k d = Some v -> schema_typed k v.
Proof.
  unfold typed_dict. induction 1 as [|[k' v'] d Hkv Hd IH]; simpl; [discriminate|].
  destruct (String.eqb_spec k k') as [->|_]; [|exact IH].
  now intros [= <-].
Qed.

Lemma pages_match_typed (recursion_limit : nat) (processed_text : string) (x : json) :
  pages_match recursion_limit processed_text = Some x -> schema_typed "relevant_pages" x.
Proof.
  unfold pages_match, loads, page_numbers, schema_typed. simpl String.eqb. cbv iota.
  destruct (search pages_re processed_text) as [[g rest]|].
  - destruct (json_loads _ _) as [v r| | |] eqn:E; intros [= <-]; try now eexists.
    eapply loads_bracket_array. exact E.
  - destruct (search pages_alt_re processed_text) as [[g rest]|]; [|discriminate].
    intros [= <-]. now eexists.
Qed.

Lemma text_field_typed (k : string) (f : string -> string) (o : option string) (x : json) :
  String.eqb k "relevant_pages" = false ->
  option_map (fun g => JStr (f g)) o = Some x -> schema_typed k x.
Proof.
  intros Hk Hx. unfold schema_typed. rewrite Hk.
  destruct o as [g|]; simpl in Hx; [|discriminate Hx].
  injection Hx as <-. now eexists.
Qed.

Lemma recover_typed (recursion_limit : nat) (processed_text : string) :
  exists d, recover recursion_limit processed_text = JObj d /\ typed_dict d.
Proof.
  unfold recover.
  assert (H4 : typed_dict
            (set_if "final_answer"
               (option_map JStr (field_match "final_answer" processed_text))
               (set_if "relevant_pages" (pages_match recursion_limit processed_text)
                  (set_if "reasoning_summary"
                     (option_map JStr (field_match "reasoning_summary" processed_text))
                     (set_if "step_by_step_analysis"
                        (option_map (fun g => JStr (replace (backslash ++ "n") nl g))
                           (field_match "step_by_step_analysis" processed_text))
                        []))))).
  { apply set_if_typed.
    { intros x. now apply (text_field_typed "final_answer" (fun g => g)). }
    apply set_if_typed; [apply pages_match_typed|].
    apply set_if_typed.
    { intros x. now apply (text_field_typed "reasoning_summary" (fun g => g)). }
    apply set_if_typed; [|constructor].
    intros x.
    now apply (text_field_typed "step_by_step_analysis"
                 (fun g => replace (backslash ++ "n") nl g)). }
  destruct (set_if "final_answer" _ _) as [|kv r4].
  - eexists. split; [reflexivity|].
    repeat constructor; unfold schema_typed; simpl; now eexists.
  - eexists. split; [reflexivity|].
    repeat apply fill_typed; try exact H4; unfold schema_typed; simpl; now eexists.
Qed.

(** X14.  The recovery step of [StructuredOutputParser.parse] follows the
    answer schema: whatever the text, the structure it builds holds the
    four keys, a list under [relevant_pages] and a text under each of the
    three others. *)
Theorem recover_follows_the_schema :
  forall recursion_limit processed_text,
    Forall (fun k => exists v,
                field k (recover recursion_limit processed_text) = Some v
                /\ schema_typed k v)
           answer_keys.
Proof.
  intros recursion_limit processed_text.
  pose proof (recover_populated recursion_limit processed_text) as Hp.
  destruct (recover_typed recursion_limit processed_text) as (d & E & Ht).
  rewrite E in *. unfold populated in Hp. rewrite forallb_forall in Hp.
  apply Forall_forall. intros k Hk. specialize (Hp k Hk).
  rewrite has_get in Hp. simpl.
  destruct (PyDict.get k d) as [v|] eqn:Eg; [|discriminate].
  exists v. split; [reflexivity|]. eapply typed_get; eassumption.
Qed.

End RecoveryTypes.

Section FenceAndProse.
Import PyStr Json Re StructuredOutputParser.
Local Open Scope list_scope.

(** *** Texts without a given character *)

Lemma all_chars_impl (p q : ascii -> bool) (s : string) :
  (forall c, p c = true -> q c = true) -> all_chars p s = true -> all_chars q s = true.
Proof.
  intros Hpq. induction s as [|c s IH]; simpl; [reflexivity|].
  intros H. apply andb_true_iff in H as (Hc & Hs).
  now rewrite (Hpq c Hc), IH.
Qed.

Lemma all_chars_lstrip (p : ascii -> bool) (s : string) :
  all_chars p s = true -> all_chars p (lstrip s) = true.
Proof.
  induction s as [|c s IH]; simpl; [reflexivity|].
  intros H. destruct (is_space c); [|exact H].
  apply andb_true_iff in H as (_ & Hs). now apply IH.
Qed.

Lemma all_chars_rstrip (p : ascii -> bool) (s : string) :
  all_chars p s = true -> all_chars p (rstrip s) = true.
Proof.
  induction s as [|c s IH]; simpl; [reflexivity|].
  intros H. apply andb_true_iff in H as (Hc & Hs). specialize (IH Hs).
  destruct (rstrip s) as [|c' r].
  - destruct (is_space c); simpl; [reflexivity | now rewrite Hc].
  - cbn [all_chars] in *. now rewrite Hc, IH.
Qed.

Lemma all_chars_strip (p : ascii -> bool) (s : string) :
  all_chars p s = true -> all_chars p (strip s) = true.
Proof. intros H. now apply all_chars_rstrip, all_chars_lstrip. Qed.

Lemma prefix_absent (c : ascii) (needle s : string) :
  all_chars (fun a => negb (Ascii.eqb a c)) s = true ->
  String.prefix (String c needle) s = false.
Proof.
  destruct s as [|a s]; cbn [String.prefix all_chars]; [reflexivity|].
  intros H. apply andb_true_iff in H as (Ha & _).
  apply negb_true_iff, Ascii.eqb_neq in Ha.
  destruct (ascii_dec c a) as [->|_]; [congruence | reflexivity].
Qed.

(** A text without the first character of [needle] does not hold
    [needle]. *)
Lemma contains_absent (c : ascii) (needle s : string) :
  all_chars (fun a => negb (Ascii.eqb a c)) s = true ->
  contains (String c needle) s = false.
Proof.
  induction s as [|a s IH]; intros H.
  - reflexivity.
  - cbn [contains]. rewrite (prefix_absent c needle (String a s) H).
    cbn [all_chars] in H. apply andb_true_iff in H as (_ & Hs).
    now rewrite (IH Hs).
Qed.

Lemma find_absent (c : ascii) (s : string) :
  all_chars (fun a => negb (Ascii.eqb a c)) s = true -> find c s = (-1)%Z.
Proof.
  induction s as [|a s IH]; simpl; [reflexivity|].
  intros H. apply andb_true_iff in H as (Ha & Hs).
  apply negb_true_iff in Ha. rewrite Ha, (IH Hs). reflexivity.
Qed.

(** A pattern that starts with a literal whose first character the text
    does not hold matches nowhere. *)
Lemma search_absent (c : ascii) (l : string) (r : regex) (s : string) :
  all_chars (fun a => negb (Ascii.eqb a c)) s = true ->
  search (Cat (Lit (String c l)) r) s = None.
Proof.
  induction s as [|a s IH]; intros H.
  - reflexivity.
  - cbn [search]. unfold match_at. cbn [run].
    rewrite (prefix_absent c l (String a s) H).
    apply IH. cbn [all_chars] in H. now apply andb_true_iff in H as (_ & Hs).
Qed.

(** *** Prose *)

Lemma prose_without (c : ascii) (s : string) :
  prose_char c = false ->
  all_chars prose_char s = true ->
  all_chars (fun a => negb (Ascii.eqb a c)) s = true.
Proof.
  intros Hc. apply all_chars_impl. intros a Ha.
  destruct (Ascii.eqb_spec a c) as [->|]; [congruence | reflexivity].
Qed.

Lemma field_match_prose (key s : string) :
  all_chars prose_char s = true -> field_match key s = None.
Proof.
  intros H. unfold field_match, key_value_re, key_alt_re, quoted, dq.
  cbn [Re.seq append].
  now rewrite !(search_absent "034" _ _ s (prose_without "034" s eq_refl H)).
Qed.

Lemma pages_match_prose (recursion_limit : nat) (s : string) :
  all_chars prose_char s = true -> pages_match recursion_limit s = None.
Proof.
  intros H. unfold pages_match, pages_re, pages_alt_re, quoted, dq.
  cbn [Re.seq append].
  rewrite (search_absent "034" _ _ s (prose_without "034" s eq_refl H)).
  now rewrite (search_absent "[" _ _ s (prose_without "[" s eq_refl H)).
Qed.

(** What [parse] makes of prose that is not a JSON value. *)
Lemma parse_prose (recursion_limit : nat) (error_text text : string) :
  all_chars prose_char text = true ->
  json_loads recursion_limit (strip text) = Invalid ->
  parse recursion_limit error_text text = unreadable (strip text).
Proof.
  intros Hp Hj.
  pose proof (all_chars_strip _ _ Hp) as Hs.
  unfold parse, preprocess, loads.
  rewrite (contains_absent "`" _ _ (prose_without "`" _ eq_refl Hs)).
  rewrite Hj. unfold brace_span.
  rewrite (find_absent "{" _ (prose_without "{" _ eq_refl Hs)).
  cbn [Z.eqb negb andb].
  unfold recover.
  rewrite !(field_match_prose _ _ Hs), (pages_match_prose _ _ Hs).
  reflexivity.
Qed.


(** *** Code fences *)

Lemma split_line (line rest : string) :
  all_chars not_newline line = true ->
  split "010" (line ++ String "010" rest) = line :: split "010" rest.
Proof.
  induction line as [|c line IH]; simpl; intros H; [reflexivity|].
  apply andb_true_iff in H as (Hc & Hl).
  unfold not_newline in Hc. apply negb_true_iff in Hc. rewrite Hc.
  now rewrite (IH Hl).
Qed.

Lemma join_cons (sep line : string) (lines : list string) :
  lines <> [] -> join sep (line :: lines) = (line ++ sep ++ join sep lines)%string.
Proof. destruct lines; [congruence | reflexivity]. Qed.

(** Splitting the lines that a newline joined gives the lines back. *)
Lemma split_join (lines : list string) :
  lines <> [] ->
  Forall (fun line => all_chars not_newline line = true) lines ->
  split "010" (join nl lines) = lines.
Proof.
  induction lines as [|line lines IH]; [congruence|].
  intros _ H. inversion H as [|? ? Hl Hls]; subst.
  destruct lines as [|line' lines].
  - cbn [join String.concat]. now apply split_one_line.
  - rewrite join_cons by discriminate. unfold nl. cbn [append].
    rewrite split_line by exact Hl. f_equal. apply IH; [discriminate | exact Hls].
Qed.

Lemma prefix_app (p a b : string) :
  String.prefix p a = true -> String.prefix p (a ++ b)%string = true.
Proof.
  revert a. induction p as [|c p IH]; intros [|x a]; cbn [String.prefix append];
    try discriminate; try reflexivity.
  - now rewrite prefix_nil.
  - destruct (ascii_dec c x); [apply IH | discriminate].
Qed.

Lemma contains_app_l (needle a b : string) :
  contains needle a = true -> contains needle (a ++ b)%string = true.
Proof.
  induction a as [|x a IH]; cbn [contains append].
  - rewrite orb_false_r. intros H. destruct needle; [|discriminate].
    destruct b; reflexivity.
  - intros H. apply orb_true_iff in H as [H|H].
    + change (String x (a ++ b)%string) with (String x a ++ b)%string.
      now rewrite (prefix_app _ _ b H).
    + rewrite (IH H). apply orb_true_r.
Qed.

Lemma contains_app_r (needle a b : string) :
  contains needle b = true -> contains needle (a ++ b)%string = true.
Proof.
  intros H. induction a as [|x a IH]; cbn [contains append]; [exact H|].
  rewrite IH. apply orb_true_r.
Qed.

Lemma contains_join (needle sep line : string) (lines : list string) :
  In line lines -> contains needle line = true ->
  contains needle (join sep lines) = true.
Proof.
  intros Hin Hc. induction lines as [|l lines IH]; [contradiction|].
  destruct lines as [|l' lines].
  - destruct Hin as [->|[]]. exact Hc.
  - rewrite join_cons by discriminate.
    destruct Hin as [->|Hin].
    + now apply contains_app_l.
    + apply contains_app_r, contains_app_r. now apply IH.
Qed.

(** A plain line is no fence. *)
Lemma plain_line_no_fence (line : string) :
  plain_line line = true ->
  startswith "```json" (strip line) || String.eqb (strip line) "```" = false.
Proof.
  intros H. unfold plain_line in H.
  assert (Hb : all_chars (fun a => negb (Ascii.eqb a "`")) (strip line) = true).
  { apply all_chars_strip. revert H. apply all_chars_impl.
    intros c Hc. unfold plain_char in Hc. now apply andb_true_iff in Hc as (_ & Hc). }
  unfold startswith. rewrite (prefix_absent "`" _ _ Hb).
  destruct (strip line) as [|c s]; [reflexivity|].
  cbn [all_chars] in Hb. apply andb_true_iff in Hb as (Hc & _).
  apply negb_true_iff in Hc. cbn [String.eqb orb]. now rewrite Hc.
Qed.

Lemma fence_step_plain (inside_json : bool) (json_lines : list string) (line : string) :
  plain_line line = true ->
  fence_step (inside_json, json_lines) line
  = if inside_json then (true, json_lines ++ [line]) else (false, json_lines).
Proof.
  intros H. unfold fence_step. rewrite (plain_line_no_fence line H).
  now destruct inside_json.
Qed.

Lemma fold_fence_outside (lines json_lines : list string) :
  Forall (fun line => plain_line line = true) lines ->
  fold_left fence_step lines (false, json_lines) = (false, json_lines).
Proof.
  induction 1 as [|line lines Hl _ IH]; cbn [fold_left]; [reflexivity|].
  rewrite fence_step_plain by exact Hl. exact IH.
Qed.

Lemma fold_fence_inside (lines json_lines : list string) :
  Forall (fun line => plain_line line = true) lines ->
  fold_left fence_step lines (true, json_lines) = (true, json_lines ++ lines).
Proof.
  intros H. revert json_lines.
  induction H as [|line lines Hl _ IH]; intros json_lines; cbn [fold_left].
  - now rewrite List.app_nil_r.
  - rewrite fence_step_plain by exact Hl. rewrite IH.
    now rewrite <- List.app_assoc.
Qed.

Lemma plain_line_one_line (line : string) :
  plain_line line = true -> all_chars not_newline line = true.
Proof.
  apply all_chars_impl. intros c Hc. unfold plain_char in Hc.
  now apply andb_true_iff in Hc as (Hc & _).
Qed.

(** The lines [preprocess] keeps of a reply with one code fence. *)
Lemma preprocess_fenced (before inside after : list string) :
  Forall (fun line => plain_line line = true) (before ++ inside ++ after) ->
  inside <> [] ->
  strip (fenced before inside after) = fenced before inside after ->
  preprocess (fenced before inside after) = strip (join nl inside).
Proof.
  intros Hplain Hne Hstrip.
  apply Forall_app in Hplain as (Hb & Hplain).
  apply Forall_app in Hplain as (Hi & Ha).
  unfold preprocess. rewrite Hstrip.
  unfold fenced at 1.
  rewrite (contains_join "```" nl "```json") by (try reflexivity; apply in_or_app; right; now left).
  unfold fenced. rewrite split_join.
  - rewrite !fold_left_app. rewrite fold_fence_outside by exact Hb.
    cbn [fold_left].
    change (fence_step (false, []) "```json") with (true, @nil string).
    rewrite fold_fence_inside by exact Hi. cbn [app].
    assert (E : fence_step (true, inside) "```" = (false, inside)) by reflexivity.
    rewrite E. rewrite fold_fence_outside by exact Ha.
    destruct inside; [congruence | reflexivity].
  - destruct before; discriminate.
  - repeat (apply Forall_app; split); try (repeat constructor);
      eapply Forall_impl; try eassumption; apply plain_line_one_line.
Qed.


End FenceAndProse.

(* ================================================================= *)
(** ** More on the hybrid search *)

Section HybridMore.
Import Results Reranker ElasticSearchClient.
Local Open Scope list_scope.

Variable post : nat -> JinaRequest -> HttpOutcome.
Variable predict : nat -> list (string * string) -> option (list Q).
Variable chat : nat -> Provider -> string -> list string -> option LlmReply.

Lemma descending_ext {A : Type} (key key' : A -> Q) (l : list A) :
  Forall (fun a => key' a = key a) l -> descending key l -> descending key' l.
Proof.
  unfold descending. intros Hf Hs. induction Hs as [|a l Hs IH Ha]; constructor.
  - apply IH. now inversion Hf.
  - inversion Hf as [|? ? Ea El]; subst. rewrite Forall_forall in *.
    intros b Hb. rewrite Ea, (El b Hb). now apply Ha.
Qed.

Lemma take_length_le {A : Type} (k : Z) (l : list A) :
  (0 <= k)%Z -> (Z.of_nat (length (PyList.take k l)) <= k)%Z.
Proof. intros Hk. rewrite take_length by exact Hk. lia. Qed.

Lemma first_seen_incl (ids : list string) (i : string) :
  In i (first_seen ids) -> In i ids.
Proof.
  unfold first_seen.
  assert (G : forall seen, In i (fold_left add_id ids seen) -> In i seen \/ In i ids).
  { induction ids as [|x ids IH]; simpl; intros seen H; [now left|].
    apply IH in H as [H|H]; [|now right; right].
    unfold add_id in H. destruct (existsb _ seen); [now left|].
    apply in_app_or in H as [H|[<-|[]]]; [now left | right; now left]. }
  intros H. apply G in H as [[]|H]. exact H.
Qed.

(** The fused list holds no result yet. *)
Lemma pre_rerank_not_reranked vector_results keyword_results w :
  Forall (fun c => Results.rerank_score c = None)
         (pre_rerank_results vector_results keyword_results w).
Proof.
  unfold pre_rerank_results, unsorted_results.
  apply sort_desc_Forall, Forall_map, Forall_forall. intros [k v] _. reflexivity.
Qed.

Lemma pre_rerank_ids_incl vector_results keyword_results w c :
  In c (pre_rerank_results vector_results keyword_results w) ->
  In (id c) (map hit_id vector_results ++ map hit_id keyword_results).
Proof.
  intros H. apply first_seen_incl. rewrite <- (unsorted_ids _ _ w).
  apply in_map. eapply Permutation_in; [apply sort_desc_perm | exact H].
Qed.

(** The results [rerank_search_results] returns carry a rerank score. *)
Lemma assemble_reranked (search_results : list SearchResult) :
  forall reranked final_results out,
    assemble search_results reranked final_results = Some out ->
    Forall (fun r => Results.rerank_score r <> None) final_results ->
    Forall (fun r => Results.rerank_score r <> None) out.
Proof.
  induction reranked as [|r reranked IH]; intros final_results out H Hf; simpl in H.
  - now injection H as <-.
  - destruct (py_getitem search_results (index r)); [|discriminate].
    destruct (index r); try discriminate;
      (eapply IH; [exact H|]); apply Forall_app; split; try exact Hf;
      repeat constructor; discriminate.
Qed.

(** X11.  Whatever the reranker and its collaborators do, [hybrid_search]
    returns at most [top_k] results, and each of them carries a candidate
    of the fused list: its id is the id of a dense or of a sparse hit,
    and its content, metadata and three scores are those of the
    candidate.  Reranking adds annotations and changes the order; it
    brings in no document. *)
Theorem hybrid_search_returns_fused_candidates :
  forall vector_results keyword_results query_text (top_k : Z) w use_reranker
         reranker world,
    (0 <= top_k)%Z ->
    (Z.of_nat (length (fst (hybrid_search post predict chat vector_results
                                          keyword_results query_text top_k w
                                          use_reranker reranker world)))
     <= top_k)%Z
    /\ Forall (fun r =>
                 In (id r) (map hit_id vector_results ++ map hit_id keyword_results)
                 /\ exists c,
                      In c (pre_rerank_results vector_results keyword_results w)
                      /\ carries c r)
              (fst (hybrid_search post predict chat vector_results keyword_results
                                  query_text top_k w use_reranker reranker world)).
Proof.
  intros vector_results keyword_results query_text top_k w use_reranker reranker world Hk.
  set (pre := pre_rerank_results vector_results keyword_results w).
  assert (Hself : forall l, incl l pre ->
            Forall (fun r =>
                      In (id r) (map hit_id vector_results ++ map hit_id keyword_results)
                      /\ exists c, In c pre /\ carries c r) l).
  { intros l Hl. apply Forall_forall. intros r Hr. apply Hl in Hr. split.
    - now apply (pre_rerank_ids_incl vector_results keyword_results w).
    - exists r. split; [exact Hr | now repeat split]. }
  assert (Hfinal : (Z.of_nat (length (PyList.take top_k pre)) <= top_k)%Z
                   /\ Forall (fun r =>
                        In (id r) (map hit_id vector_results ++ map hit_id keyword_results)
                        /\ exists c, In c pre /\ carries c r) (PyList.take top_k pre)).
  { split; [now apply take_length_le|]. apply Hself. intros x. apply take_incl. }
  unfold hybrid_search. fold pre.
  destruct use_reranker; [|exact Hfinal].
  destruct reranker as [r|]; [|exact Hfinal].
  destruct (_initialized r); [|exact Hfinal].
  destruct (rerank_search_results _ _ _ _ _ _ _ _) as [[out|] w'] eqn:E;
    [|exact Hfinal].
  cbn [fst]. split; [now apply take_length_le|].
  apply take_Forall, sort_desc_Forall.
  assert (Hc : Forall (copy_of pre) out).
  { unfold rerank_search_results in E. destruct pre as [|c pre'].
    - injection E as <- _. constructor.
    - destruct (rerank _ _ _ _ _ _ _ _) as [reranked w''].
      injection E as E _.
      now apply assemble_appends in E as (added & -> & _ & _ & Hc). }
  eapply Forall_impl; [|exact Hc].
  intros x (z & original & _ & Hi & H1 & H2 & H3 & H4 & H5 & H6).
  apply index_In in Hi. split.
  - rewrite H1. now apply (pre_rerank_ids_incl vector_results keyword_results w).
  - exists original. split; [exact Hi | now repeat split].
Qed.

(** The score a caller reads off a result: the rerank score when there is
    one, the hybrid score otherwise.  The list [hybrid_search] returns is
    non-increasing in it, on every path. *)
Lemma hybrid_search_descending vector_results keyword_results query_text (top_k : Z) w
      use_reranker reranker world :
  descending Chains.score_of
    (fst (hybrid_search post predict chat vector_results keyword_results query_text
                        top_k w use_reranker reranker world)).
Proof.
  set (pre := pre_rerank_results vector_results keyword_results w).
  assert (Hfinal : descending Chains.score_of (PyList.take top_k pre)).
  { apply descending_ext with (key := hybrid_score).
    - apply take_Forall.
      eapply Forall_impl; [|apply pre_rerank_not_reranked].
      intros c Hc. unfold Chains.score_of. now rewrite Hc.
    - apply take_StronglySorted, sort_desc_sorted. }
  unfold hybrid_search. fold pre.
  destruct use_reranker; [|exact Hfinal].
  destruct reranker as [r|]; [|exact Hfinal].
  destruct (_initialized r); [|exact Hfinal].
  destruct (rerank_search_results _ _ _ _ _ _ _ _) as [[out|] w'] eqn:E;
    [|exact Hfinal].
  cbn [fst]. apply descending_ext with (key := rerank_key).
  - apply take_Forall, sort_desc_Forall.
    unfold rerank_search_results in E.
    destruct pre as [|c pre'].
    + injection E as <- _. constructor.
    + destruct (rerank _ _ _ _ _ _ _ _) as [reranked w''].
      injection E as E _.
      eapply Forall_impl; [|eapply assemble_reranked; [exact E | constructor]].
      intros x Hx. unfold Chains.score_of, rerank_key.
      destruct (Results.rerank_score x) eqn:Ex; [reflexivity | congruence].
  - apply take_StronglySorted, sort_desc_sorted.
Qed.

End HybridMore.

(* ================================================================= *)
(** ** The chains *)

Section ChainFacts.
Import PyStr Json Results Exn Chains StructuredOutputParser.
Local Open Scope list_scope.

Variable recursion_limit : nat.
Variable error_text : string.
Variable invoke : nat -> string -> option string.

(** *** ComparativeAnswerChain *)

(** X17.  [ComparativeAnswerChain.__call__] reads its two keys first: when
    one is absent it raises, and has asked nothing.  With both keys it
    does not raise: it asks the model once and returns a dict with the
    key [final_answer], whose value is N/A or the [final_answer] of the
    dict parsed from the reply. *)
Theorem comparative_chain_always_answers :
  forall system_prompt (inputs : ComparativeAnswerChain.Inputs) sent,
    match ComparativeAnswerChain.context inputs, ComparativeAnswerChain.question inputs with
    | Some context, Some question =>
        exists final_answer,
          ComparativeAnswerChain.call recursion_limit error_text invoke system_prompt
                                      inputs sent
          = (Some (JObj [("final_answer", final_answer)]),
             sent ++ [ComparativeAnswerChain.formatted_prompt system_prompt context question])
          /\ (final_answer = JStr "N/A"
              \/ exists response d,
                   invoke (length sent)
                          (ComparativeAnswerChain.formatted_prompt system_prompt
                                                                   context question)
                   = Some response
                   /\ parse recursion_limit error_text response = JObj d
                   /\ PyDict.get "final_answer" d = Some final_answer)
    | _, _ =>
        ComparativeAnswerChain.call recursion_limit error_text invoke system_prompt
                                    inputs sent
        = (None, sent)
    end.
Proof.
  intros system_prompt [context question] sent.
  unfold ComparativeAnswerChain.call, bind, lift, try_except, ret, llm_invoke.
  cbn [ComparativeAnswerChain.context ComparativeAnswerChain.question].
  destruct context as [context|]; [|reflexivity].
  destruct question as [question|]; [|reflexivity].
  destruct (invoke (length sent) _) as [response|] eqn:Ei.
  - unfold get_or.
    destruct (parse recursion_limit error_text response) as [| | | | | | |d] eqn:Ep;
      try (exists (JStr "N/A"); split; [reflexivity | now left]).
    destruct (PyDict.get "final_answer" d) as [v|] eqn:Eg.
    + exists v. split; [reflexivity|]. right. now exists response, d.
    + exists (JStr "N/A"). split; [reflexivity | now left].
  - exists (JStr "N/A"). split; [reflexivity | now left].
Qed.

(** *** QuestionRephraseChain *)

Lemma rephrase_call system_prompt question companies sent :
  QuestionRephraseChain.call recursion_limit error_text invoke system_prompt
    {| QuestionRephraseChain.question := Some question;
       QuestionRephraseChain.companies := Some companies |} sent
  = (match invoke (length sent)
                  (QuestionRephraseChain.formatted_prompt system_prompt question companies)
     with
     | Some response =>
         match get_or (parse recursion_limit error_text response) "questions" (JArr []) with
         | Some rephrased_questions =>
             Some (JObj [("rephrased_questions", rephrased_questions)])
         | None => None
         end
     | None => None
     end,
     sent ++ [QuestionRephraseChain.formatted_prompt system_prompt question companies]).
Proof.
  unfold QuestionRephraseChain.call, bind, lift, ret, llm_invoke.
  cbn [QuestionRephraseChain.question QuestionRephraseChain.companies].
  destruct (invoke (length sent) _) as [response|]; [|reflexivity].
  destruct (get_or _ _ _); reflexivity.
Qed.

(** X18.  When the model answers [QuestionRephraseChain] in plain prose
    that is not a JSON value, the chain does not raise: the parser falls
    back on its default structure, which has no key [questions], and the
    chain returns an empty list of rephrased questions. *)
Theorem rephrase_chain_prose_gives_no_question :
  forall system_prompt question companies sent response,
    invoke (length sent)
           (QuestionRephraseChain.formatted_prompt system_prompt question companies)
    = Some response ->
    all_chars prose_char response = true ->
    json_loads recursion_limit (strip response) = Invalid ->
    QuestionRephraseChain.call recursion_limit error_text invoke system_prompt
      {| QuestionRephraseChain.question := Some question;
         QuestionRephraseChain.companies := Some companies |} sent
    = (Some (JObj [("rephrased_questions", JArr [])]),
       sent ++ [QuestionRephraseChain.formatted_prompt system_prompt question companies]).
Proof.
  intros system_prompt question companies sent response Hi Hp Hj.
  rewrite rephrase_call, Hi.
  rewrite (parse_prose recursion_limit error_text response Hp Hj).
  reflexivity.
Qed.

(** X19.  When the reply to [QuestionRephraseChain] is a JSON value that
    is not an object (a bare list of questions, a number, a string), the
    parser returns that value as decoded, the chain cannot read a key of
    it, and the exception goes to the caller. *)
Theorem rephrase_chain_raises_on_non_object :
  forall system_prompt question companies sent response v,
    invoke (length sent)
           (QuestionRephraseChain.formatted_prompt system_prompt question companies)
    = Some response ->
    json_loads recursion_limit (preprocess response) = Decoded v EmptyString ->
    (forall d, v <> JObj d) ->
    QuestionRephraseChain.call recursion_limit error_text invoke system_prompt
      {| QuestionRephraseChain.question := Some question;
         QuestionRephraseChain.companies := Some companies |} sent
    = (None,
       sent ++ [QuestionRephraseChain.formatted_prompt system_prompt question companies]).
Proof.
  intros system_prompt question companies sent response v Hi Hj Hv.
  rewrite rephrase_call, Hi.
  unfold parse, loads. rewrite Hj.
  destruct v; try reflexivity. now destruct (Hv members).
Qed.

(** *** RAGChain *)

Variable hybrid_search : string -> Z -> bool -> string -> option (list SearchResult).
Variable name_qa_prompt : string -> string -> option string.
Variable number_qa_prompt : string -> string -> option string.
Variable boolean_qa_prompt : string -> string -> option string.
Variable names_qa_prompt : string -> string -> option string.
Variable string_qa_prompt : string -> string -> option string.

Local Notation "'rag_call'" :=
  (RAGChain.call recursion_limit error_text invoke hybrid_search
                 name_qa_prompt number_qa_prompt boolean_qa_prompt names_qa_prompt
                 string_qa_prompt).

Local Notation "'rag_prompt'" :=
  (RAGChain.prompt_template name_qa_prompt number_qa_prompt boolean_qa_prompt
                            names_qa_prompt string_qa_prompt).

(** The handler of [RAGChain.__call__]. *)
Lemma basic_answer_cases context question sources search_results sent :
  RAGChain.basic_answer invoke context question sources search_results sent
  = (match invoke (length sent) (RAGChain.basic_rag_prompt context question) with
     | Some answer =>
         Some {| RAGChain.answer := JStr answer;
                 RAGChain.sources := sources;
                 RAGChain.search_results := search_results;
                 RAGChain.structured_response := JObj [];
                 RAGChain.answer_type := "fallback" |}
     | None => None
     end,
     sent ++ [RAGChain.basic_rag_prompt context question]).
Proof.
  unfold RAGChain.basic_answer, bind, ret, llm_invoke.
  now destruct (invoke (length sent) _).
Qed.

(** [RAGChain.__call__], once the question is read, the search has
    answered and the prompt is formatted. *)
Lemma rag_call_cases (inputs : RAGChain.Inputs) question search_results formatted_prompt sent :
  RAGChain.question inputs = Some question ->
  hybrid_search question
                (match RAGChain.top_k inputs with Some k => k | None => 5%Z end)
                (match RAGChain.use_reranker inputs with Some b => b | None => true end)
                (match RAGChain.reranker_model inputs with
                 | Some m => m | None => "default"%string end)
  = Some search_results ->
  rag_prompt (AnswerTypeClassifier.determine_answer_type question)
             (context_of search_results) question
  = Some formatted_prompt ->
  let use_reranker :=
    match RAGChain.use_reranker inputs with Some b => b | None => true end in
  rag_call inputs sent
  = match invoke (length sent) formatted_prompt with
    | Some response =>
        match get_or (parse recursion_limit error_text response) "final_answer"
                     (JStr "未能从上下文中找到相关信息。") with
        | Some final_answer =>
            (Some {| RAGChain.answer := final_answer;
                     RAGChain.sources := sources_of use_reranker search_results;
                     RAGChain.search_results := search_results;
                     RAGChain.structured_response :=
                       parse recursion_limit error_text response;
                     RAGChain.answer_type :=
                       AnswerTypeClassifier.determine_answer_type question |},
             sent ++ [formatted_prompt])
        | None =>
            RAGChain.basic_answer invoke (context_of search_results) question
              (sources_of use_reranker search_results) search_results
              (sent ++ [formatted_prompt])
        end
    | None =>
        RAGChain.basic_answer invoke (context_of search_results) question
          (sources_of use_reranker search_results) search_results
          (sent ++ [formatted_prompt])
    end.
Proof.
  intros Hq Hs Hp use_reranker.
  unfold RAGChain.call, bind, lift, try_except, ret, llm_invoke.
  rewrite Hq, Hs, Hp.
  destruct (invoke (length sent) formatted_prompt) as [response|]; [|reflexivity].
  destruct (get_or _ _ _); reflexivity.
Qed.

(** X20.  When the first reply to [RAGChain] is a JSON value that is not
    an object, or when the first call of the model raises, the
    structured answer is dropped: the chain asks the model a second time,
    with the basic prompt, and returns that reply as the answer, with an
    empty [structured_response] and the answer type fallback; it raises
    only when this second call raises too. *)
Theorem rag_chain_falls_back_on_non_object :
  forall (inputs : RAGChain.Inputs) question search_results formatted_prompt sent,
    RAGChain.question inputs = Some question ->
    hybrid_search question
                  (match RAGChain.top_k inputs with Some k => k | None => 5%Z end)
                  (match RAGChain.use_reranker inputs with Some b => b | None => true end)
                  (match RAGChain.reranker_model inputs with
                   | Some m => m | None => "default"%string end)
    = Some search_results ->
    rag_prompt (AnswerTypeClassifier.determine_answer_type question)
               (context_of search_results) question
    = Some formatted_prompt ->
    (invoke (length sent) formatted_prompt = None
     \/ exists response v,
          invoke (length sent) formatted_prompt = Some response
          /\ json_loads recursion_limit (preprocess response) = Decoded v EmptyString
          /\ forall d, v <> JObj d) ->
    rag_call inputs sent
    = (match invoke (S (length sent))
                    (RAGChain.basic_rag_prompt (context_of search_results) question) with
       | Some answer =>
           Some {| RAGChain.answer := JStr answer;
                   RAGChain.sources :=
                     sources_of (match RAGChain.use_reranker inputs with
                                 | Some b => b | None => true end) search_results;
                   RAGChain.search_results := search_results;
                   RAGChain.structured_response := JObj [];
                   RAGChain.answer_type := "fallback" |}
       | None => None
       end,
       sent ++ [formatted_prompt;
                RAGChain.basic_rag_prompt (context_of search_results) question]).
Proof.
  intros inputs question search_results formatted_prompt sent Hq Hs Hp H.
  rewrite (rag_call_cases inputs question search_results formatted_prompt sent Hq Hs Hp).
  assert (Hb : RAGChain.basic_answer invoke (context_of search_results) question
                 (sources_of (match RAGChain.use_reranker inputs with
                              | Some b => b | None => true end) search_results)
                 search_results (sent ++ [formatted_prompt])
               = (match invoke (S (length sent))
                               (RAGChain.basic_rag_prompt (context_of search_results)
                                                          question) with
                  | Some answer =>
                      Some {| RAGChain.answer := JStr answer;
                              RAGChain.sources :=
                                sources_of (match RAGChain.use_reranker inputs with
                                            | Some b => b | None => true end)
                                           search_results;
                              RAGChain.search_results := search_results;
                              RAGChain.structured_response := JObj [];
                              RAGChain.answer_type := "fallback" |}
                  | None => None
                  end,
                  sent ++ [formatted_prompt;
                           RAGChain.basic_rag_prompt (context_of search_results)
                                                     question])).
  { rewrite basic_answer_cases. rewrite length_app, Nat.add_1_r.
    now rewrite <- List.app_assoc. }
  destruct H as [Hi|(response & v & Hi & Hj & Hv)]; rewrite Hi; [exact Hb|].
  unfold parse, loads. rewrite Hj.
  destruct v; try exact Hb. now destruct (Hv members).
Qed.

(** X21.  When the model answers [RAGChain] in plain prose that is not a
    JSON value, the chain does not fall back: it asks once, the answer is
    the stripped reply, and the answer type is the one the classifier
    gave the question. *)
Theorem rag_chain_prose_is_the_answer :
  forall (inputs : RAGChain.Inputs) question search_results formatted_prompt sent response,
    RAGChain.question inputs = Some question ->
    hybrid_search question
                  (match RAGChain.top_k inputs with Some k => k | None => 5%Z end)
                  (match RAGChain.use_reranker inputs with Some b => b | None => true end)
                  (match RAGChain.reranker_model inputs with
                   | Some m => m | None => "default"%string end)
    = Some search_results ->
    rag_prompt (AnswerTypeClassifier.determine_answer_type question)
               (context_of search_results) question
    = Some formatted_prompt ->
    invoke (length sent) formatted_prompt = Some response ->
    all_chars prose_char response = true ->
    json_loads recursion_limit (strip response) = Invalid ->
    exists out,
      rag_call inputs sent = (Some out, sent ++ [formatted_prompt])
      /\ RAGChain.answer out = JStr (strip response)
      /\ RAGChain.answer_type out = AnswerTypeClassifier.determine_answer_type question
      /\ RAGChain.search_results out = search_results
      /\ populated (RAGChain.structured_response out) = true.
Proof.
  intros inputs question search_results formatted_prompt sent response
         Hq Hs Hp Hi Hprose Hj.
  rewrite (rag_call_cases inputs question search_results formatted_prompt sent Hq Hs Hp).
  rewrite Hi. rewrite (parse_prose recursion_limit error_text response Hprose Hj).
  eexists. split; [reflexivity|]. now repeat split.
Qed.

(** What [RAGChain.__call__] returns, when it returns: the results of the
    search, and one source for each. *)
Lemma rag_call_output (inputs : RAGChain.Inputs) sent out sent' :
  rag_call inputs sent = (Some out, sent') ->
  exists question,
    RAGChain.question inputs = Some question
    /\ hybrid_search question
         (match RAGChain.top_k inputs with Some k => k | None => 5%Z end)
         (match RAGChain.use_reranker inputs with Some b => b | None => true end)
         (match RAGChain.reranker_model inputs with
          | Some m => m | None => "default"%string end)
       = Some (RAGChain.search_results out)
    /\ RAGChain.sources out
       = sources_of (match RAGChain.use_reranker inputs with Some b => b | None => true end)
                    (RAGChain.search_results out).
Proof.
  intros H.
  destruct (RAGChain.question inputs) as [question|] eqn:Hq.
  2:{ unfold RAGChain.call, bind, lift in H. rewrite Hq in H. discriminate H. }
  destruct (hybrid_search question
              (match RAGChain.top_k inputs with Some k => k | None => 5%Z end)
              (match RAGChain.use_reranker inputs with Some b => b | None => true end)
              (match RAGChain.reranker_model inputs with
               | Some m => m | None => "default"%string end)) as [search_results|] eqn:Hs.
  2:{ unfold RAGChain.call, bind, lift in H. rewrite Hq, Hs in H. discriminate H. }
  destruct (rag_prompt (AnswerTypeClassifier.determine_answer_type question)
                       (context_of search_results) question) as [formatted_prompt|] eqn:Hp.
  2:{ unfold RAGChain.call, bind, lift in H. rewrite Hq, Hs, Hp in H. discriminate H. }
  rewrite (rag_call_cases inputs question search_results formatted_prompt sent Hq Hs Hp) in H.
  exists question. split; [reflexivity|]. rewrite Hs.
  assert (Hb : forall s,
             RAGChain.basic_answer invoke (context_of search_results) question
               (sources_of (match RAGChain.use_reranker inputs with
                            | Some b => b | None => true end) search_results)
               search_results s = (Some out, sent') ->
             Some search_results = Some (RAGChain.search_results out)
             /\ RAGChain.sources out
                = sources_of (match RAGChain.use_reranker inputs with
                              | Some b => b | None => true end)
                             (RAGChain.search_results out)).
  { intros s Hb. rewrite basic_answer_cases in Hb.
    destruct (invoke (length s) _); [|discriminate Hb].
    injection Hb as <- _. now split. }
  destruct (invoke (length sent) formatted_prompt) as [response|]; [|exact (Hb _ H)].
  destruct (get_or _ _ _); [|exact (Hb _ H)].
  injection H as <- _. now split.
Qed.

End ChainFacts.

(** *** RAGChain over the vector store *)

Section RagOverStore.
Import PyStr Json Results Reranker Exn Chains.
Local Open Scope list_scope.

Variable post : nat -> JinaRequest -> HttpOutcome.
Variable predict : nat -> list (string * string) -> option (list Q).
Variable chat : nat -> Provider -> string -> list string -> option LlmReply.
Variable embed_query : string -> option (list Q).
Variable search_by_vector : list Q -> Z -> option (list Hit).
Variable keyword_search : string -> Z -> option (list Hit).
Variable reranker : option UniversalBGEReranker.

(** What the store's [hybrid_search] returns, when it returns: the list
    the fusion gives for the hits of the two searches, asked for
    [2 * top_k] hits each, at the weight 0.7. *)
Lemma store_hybrid_search_results query_text (top_k : Z) use_reranker reranker_model w results :
  fst (ElasticSearchVectorStore.hybrid_search post predict chat embed_query
         search_by_vector keyword_search reranker
         query_text top_k use_reranker reranker_model w)
  = Some results ->
  exists query_vector vector_results keyword_results,
    embed_query query_text = Some query_vector
    /\ search_by_vector query_vector (top_k * 2) = Some vector_results
    /\ keyword_search query_text (top_k * 2) = Some keyword_results
    /\ results
       = fst (ElasticSearchClient.hybrid_search post predict chat vector_results
                keyword_results query_text top_k 0.7 use_reranker reranker w).
Proof.
  unfold ElasticSearchVectorStore.hybrid_search,
    ElasticSearchVectorStore.client_hybrid_search, bind, lift.
  destruct (embed_query query_text) as [query_vector|] eqn:Ee; [|discriminate].
  destruct (search_by_vector query_vector (top_k * 2)) as [vector_results|] eqn:Ev;
    [|discriminate].
  destruct (keyword_search query_text (top_k * 2)) as [keyword_results|] eqn:Ek;
    [|discriminate].
  intros H. exists query_vector, vector_results, keyword_results.
  split; [reflexivity|]. split; [exact Ev|]. split; [reflexivity|].
  destruct (ElasticSearchClient.hybrid_search post predict chat vector_results
              keyword_results query_text top_k 0.7 use_reranker reranker w) as [rs w'].
  cbn [fst] in *. now injection H as <-.
Qed.

(** X22.  [RAGChain] over the vector store: whenever the chain returns,
    its sources stand in non-increasing order of [score] (the rerank
    score of a result that has one, its hybrid score otherwise), there is
    one source for each search result, in the same order and with the
    same id, the [original_score] of a source is the hybrid score of its
    result, and that score is the sum of the vector score and of the
    keyword score at the weights 0.7 and 0.3. *)
Theorem rag_sources_are_ranked :
  forall recursion_limit error_text invoke
         name_qa_prompt number_qa_prompt boolean_qa_prompt names_qa_prompt
         string_qa_prompt w (inputs : RAGChain.Inputs) sent out sent',
    RAGChain.call recursion_limit error_text invoke
      (fun query_text top_k use_reranker reranker_model =>
         fst (ElasticSearchVectorStore.hybrid_search post predict chat embed_query
                search_by_vector keyword_search reranker
                query_text top_k use_reranker reranker_model w))
      name_qa_prompt number_qa_prompt boolean_qa_prompt names_qa_prompt string_qa_prompt
      inputs sent
    = (Some out, sent') ->
    descending source_score (RAGChain.sources out)
    /\ map source_id (RAGChain.sources out) = map id (RAGChain.search_results out)
    /\ map source_original_score (RAGChain.sources out)
       = map hybrid_score (RAGChain.search_results out)
    /\ Forall (weighted 0.7) (RAGChain.search_results out).
Proof.
  intros recursion_limit error_text invoke name_qa_prompt number_qa_prompt
         boolean_qa_prompt names_qa_prompt string_qa_prompt w inputs sent out sent' H.
  apply rag_call_output in H as (question & _ & Hs & ->).
  apply store_hybrid_search_results
    in Hs as (query_vector & vector_results & keyword_results & _ & _ & _ & ->).
  unfold sources_of. rewrite !map_map. repeat split.
  - apply descending_map with (key' := score_of); [reflexivity|].
    apply hybrid_search_descending.
  - apply hybrid_search_weighted.
Qed.

End RagOverStore.

(* ================================================================= *)
(** ** The client and the two knowledge bases *)

Section ClientFacts.
Import PyStr Json Exn Prompts QwenLLMClient.
Local Open Scope list_scope.

Variable generation_call : nat -> string -> Q -> option Response.

(** X23.  The answer type does not change what [structured_chat] asks:
    the five prompt classes take their user prompt from the shared
    class, and the user prompt is all the method sends.  For every two
    answer types the same prompt goes out, at the same temperature, and
    the same reply comes back. *)
Theorem structured_chat_ignores_the_answer_type :
  forall question context answer_type answer_type' calls,
    structured_chat generation_call question context answer_type calls
    = structured_chat generation_call question context answer_type' calls
    /\ snd (structured_chat generation_call question context answer_type calls)
       = calls ++ [(AnswerWithRAGContextSharedPrompt.user_prompt context question, 0.3%Q)].
Proof.
  intros question context answer_type answer_type' calls.
  assert (E : forall t,
             structured_chat generation_call question context t calls
             = generate generation_call
                        (AnswerWithRAGContextSharedPrompt.user_prompt context question)
                        0.3 calls).
  { intros t. unfold structured_chat.
    destruct (String.eqb t "name"); [reflexivity|].
    destruct (String.eqb t "number"); [reflexivity|].
    destruct (String.eqb t "boolean"); [reflexivity|].
    destruct (String.eqb t "names"); reflexivity. }
  rewrite !E. split; [reflexivity|].
  unfold generate. destruct (generation_call _ _ _) as [response|]; [|reflexivity].
  now destruct (status_code response =? 200)%Z.
Qed.

End ClientFacts.

Section EnhancedFacts.
Import PyStr Json Results Exn Chains Documents LangChainEnhancedKnowledgeBase.
Local Open Scope list_scope.

Variable recursion_limit : nat.
Variable error_text : string.
Variable hybrid_search : string -> Z -> bool -> string -> option (list SearchResult).
Variable invoke : nat -> string -> option string.
Variable name_qa_prompt : string -> string -> option string.
Variable number_qa_prompt : string -> string -> option string.
Variable boolean_qa_prompt : string -> string -> option string.
Variable names_qa_prompt : string -> string -> option string.
Variable string_qa_prompt : string -> string -> option string.

(** X24.  The guard of [search] does not guard [ask] in the LangChain
    knowledge base: on an instance that is not initialized, the
    exception of [search] is caught with the others and the RAG chain
    runs, which searches the vector store without testing the flag.
    [ask] then returns what the chain returns, and raises only when the
    chain raises. *)
Theorem enhanced_ask_runs_the_chain_when_not_initialized :
  forall question (top_k : Z) use_reranker reranker_model w,
    is_initialized w = false ->
    ask recursion_limit error_text hybrid_search invoke
        name_qa_prompt number_qa_prompt boolean_qa_prompt names_qa_prompt string_qa_prompt
        question top_k use_reranker reranker_model w
    = (option_map
         (fun result =>
            {| answer := RAGChain.answer result;
               sources := RAGChain.sources result;
               search_results := RAGChain.search_results result;
               structured_response := RAGChain.structured_response result;
               prompt_strategy := None;
               answer_type := RAGChain.answer_type result |})
         (fst (RAGChain.call recursion_limit error_text invoke hybrid_search
                 name_qa_prompt number_qa_prompt boolean_qa_prompt names_qa_prompt
                 string_qa_prompt
                 {| RAGChain.question := Some question;
                    RAGChain.top_k := Some top_k;
                    RAGChain.use_reranker := Some use_reranker;
                    RAGChain.reranker_model := Some reranker_model |} (sent w))),
       with_sent
         (snd (RAGChain.call recursion_limit error_text invoke hybrid_search
                 name_qa_prompt number_qa_prompt boolean_qa_prompt names_qa_prompt
                 string_qa_prompt
                 {| RAGChain.question := Some question;
                    RAGChain.top_k := Some top_k;
                    RAGChain.use_reranker := Some use_reranker;
                    RAGChain.reranker_model := Some reranker_model |} (sent w)))
         w).
Proof.
  intros question top_k use_reranker reranker_model w Hi.
  unfold ask, try_except, bind at 1, search. rewrite Hi. cbn [negb].
  unfold bind, on_sent, ret.
  destruct (RAGChain.call _ _ _ _ _ _ _ _ _ _ _) as [[result|] sent']; reflexivity.
Qed.

End EnhancedFacts.

(* ================================================================= *)
(** ** The properties on inputs *)

Section MoreExamples.
Import PyStr Json Results Reranker ElasticSearchClient StructuredAnswer.
Import StructuredOutputParser QwenLLMClient.
Local Open Scope list_scope.

Lemma cross_encoder_rerank_sorted_witness :
  descending score
    (fst (_cross_encoder_rerank three_scores cross_encoder_ready "q" ["a"; "b"; "c"] 2
                                empty_world)).
Proof.
  exact (proj1 (cross_encoder_rerank_sorted three_scores cross_encoder_ready "q"
                  ["a"; "b"; "c"] 2 empty_world [0.2; 0.9; 0.5]%Q
                  eq_refl eq_refl (le_n 3))).
Defined.

Lemma cross_encoder_rerank_keeps_the_best_witness :
  Forall (fun r => (0.2 <= score r)%Q)
    (fst (_cross_encoder_rerank three_scores cross_encoder_ready "q" ["a"; "b"; "c"] 2
                                empty_world)).
Proof.
  apply (cross_encoder_rerank_keeps_the_best three_scores cross_encoder_ready "q"
           ["a"; "b"; "c"] 2 empty_world [0.2; 0.9; 0.5]%Q 0%nat 0.2%Q);
    [reflexivity | reflexivity | simpl; lia | simpl; lia | reflexivity |].
  vm_compute. intros [H|[H|[]]]; discriminate H.
Defined.

Lemma llm_rerank_dashscope_keeps_order_witness :
  map text (fst (_llm_rerank chat_message llm_dashscope "q" ["a"; "b"; "c"] 2 empty_world))
  = ["a"; "b"].
Proof.
  exact (proj1 (llm_rerank_dashscope_keeps_order chat_message llm_dashscope "q"
                  ["a"; "b"; "c"] 2 empty_world "ok"
                  eq_refl eq_refl eq_refl eq_refl ltac:(lia))).
Defined.

Lemma llm_rerank_reorders_the_first_witness :
  descending score
    (fst (_llm_rerank chat_rankings llm_ready "q" ["a"; "b"; "c"] 2 empty_world)).
Proof.
  exact (proj1 (llm_rerank_reorders_the_first chat_rankings llm_ready "q"
                  ["a"; "b"; "c"] 2 empty_world [0.1; 0.8]%Q
                  eq_refl eq_refl eq_refl eq_refl ltac:(lia))).
Defined.

Lemma llm_rerank_returns_one_for_no_top_k_witness :
  map text (fst (_llm_rerank chat_rankings llm_ready "q" ["a"; "b"; "c"] 0 empty_world))
  = ["a"].
Proof.
  exact (proj1 (llm_rerank_returns_one_for_no_top_k chat_rankings llm_ready "q"
                  "a" ["b"; "c"] 0 empty_world [0.1; 0.8]%Q
                  eq_refl eq_refl eq_refl eq_refl ltac:(lia))).
Defined.

Lemma rerank_search_results_annotates_witness :
  fst (rerank_search_results no_post no_predict no_chat cross_encoder_degraded "q"
         [example_candidate "A" 0.63] 1 empty_world)
  = Some [ {| id := "A"; content := "A"; metadata := [];
              hybrid_score := 0.63; vector_score := 0.63; keyword_score := 0;
              Results.rerank_score := Some 1%Q;
              rerank_position := Some 1%Z; original_position := Some 1%Z |} ]
  /\ map rerank_position
         [ {| id := "A"; content := "A"; metadata := [];
              hybrid_score := 0.63; vector_score := 0.63; keyword_score := 0;
              Results.rerank_score := Some 1%Q;
              rerank_position := Some 1%Z; original_position := Some 1%Z |} ]
     = [Some 1%Z].
Proof.
  split; [reflexivity|].
  apply (rerank_search_results_annotates no_post no_predict no_chat cross_encoder_degraded
           "q" [example_candidate "A" 0.63] 1 empty_world).
  reflexivity.
Defined.

Lemma rerank_search_results_returns_witness :
  exists results,
    fst (rerank_search_results no_post three_scores no_chat cross_encoder_ready "q"
           [example_candidate "A" 0.63; example_candidate "B" 0.52;
            example_candidate "C" 0.15] 2 empty_world)
    = Some results
    /\ length results
       = length (fst (rerank no_post three_scores no_chat cross_encoder_ready "q"
                              (map content [example_candidate "A" 0.63;
                                            example_candidate "B" 0.52;
                                            example_candidate "C" 0.15]) 2 empty_world)).
Proof.
  apply (rerank_search_results_returns no_post three_scores no_chat cross_encoder_ready).
  left. discriminate.
Defined.

Lemma parse_structured_response_decoded_or_default_witness :
  (exists span,
      brace_span bare_reply = Some span
      /\ json_loads 1000 span = Decoded (JObj [("final_answer", JStr "42")]) EmptyString)
  \/ (populated (JObj [("final_answer", JStr "42")]) = true
      /\ field "final_answer" (JObj [("final_answer", JStr "42")]) = Some (JStr bare_reply)).
Proof.
  apply (parse_structured_response_decoded_or_default 1000 bare_reply "string").
  vm_compute. reflexivity.
Defined.




Lemma hybrid_search_returns_fused_candidates_witness :
  (Z.of_nat (length (fst (hybrid_search no_post no_predict no_chat
                                        example_dense example_sparse "q" 2 0.7 false None
                                        empty_world)))
   <= 2)%Z.
Proof.
  apply (hybrid_search_returns_fused_candidates no_post no_predict no_chat
           example_dense example_sparse "q" 2 0.7 false None empty_world).
  lia.
Defined.


Lemma jina_always_posts_witness :
  posted (snd (rerank (down_then_up one_entry_body) no_predict no_chat jina_ready "q"
                      ["a"; "b"] 2 empty_world))
  = [jina_request "q" ["a"; "b"] 2].
Proof.
  apply (jina_always_posts (down_then_up one_entry_body) no_predict no_chat
           jina_ready "q" ["a"; "b"] 2 empty_world);
    [reflexivity | reflexivity | reflexivity | discriminate].
Defined.

End MoreExamples.
